(** * MainViewManager: panes, view lists and the split controller

    A shallow embedding of [src/view/MainViewManager.js].  The module-level
    variables of the manager ([_paneViews], [_activePaneId], [_orientation])
    become one explicit [State] record, the notifications sent through
    [$(exports).triggerHandler] are appended to a trace kept in that record,
    and a JavaScript [TypeError] is an [Outcome] of its own: the state a
    function had reached when it threw is kept, as in the source.

    [view/Pane] is required by the manager but its source is not part of the
    files under study; its methods are modelled from the specification and
    marked as such. *)

From stdpp Require Import base decidable option list strings.
From Stdlib Require Import ZArith Lia.

#[global] Set Warnings "-clear-no-such-hyp".

Open Scope string_scope.
Open Scope list_scope.

(** ** Values shared with the collaborators *)

(** A [File] is keyed by its full path. *)
Record File := mkFile { fullPath : string }.

(** A [Document] as the manager uses it: [doc.file] and [doc.isUntitled()]. *)
Record Document := mkDocument { file : File; isUntitled : bool }.

(** An editor as [_activeEditorChange] uses it: [getContainer()] is a DOM
    element, identified by a number, and [getFile()]. *)
Record Editor := mkEditor { getContainer : nat; getFile : File }.

#[global] Instance File_eq_dec : EqDecision File.
Proof. solve_decision. Defined.

(** ** JavaScript object literals used as maps

    [_paneViews] and [_paneTitles] are object literals: their own properties
    are kept in creation order (the order [Object.keys] and [_.forEach]
    visit them), and a bracket read [o[k]] that finds no own property falls
    through to [Object.prototype]. *)
Module JsObject.

Definition t (A : Type) := list (string * A).

(** The property names every object literal inherits. *)
Definition Object_prototype : list string :=
  [ "constructor"; "hasOwnProperty"; "isPrototypeOf"; "propertyIsEnumerable";
    "toLocaleString"; "toString"; "valueOf"; "__proto__";
    "__defineGetter__"; "__defineSetter__"; "__lookupGetter__";
    "__lookupSetter__" ].

(** What a bracket read yields: an own property, an inherited member of
    [Object.prototype] (a truthy value that is none of ours), or
    [undefined]. *)
Inductive Slot (A : Type) :=
| Own (a : A)
| Inherited
| Missing.
Arguments Own {A} a.
Arguments Inherited {A}.
Arguments Missing {A}.

Fixpoint getOwn {A} (o : t A) (k : string) : option A :=
  match o with
  | [] => None
  | (k', a) :: o' => if decide (k' = k) then Some a else getOwn o' k
  end.

Definition get {A} (o : t A) (k : string) : Slot A :=
  match getOwn o k with
  | Some a => Own a
  | None => if bool_decide (k ∈ Object_prototype) then Inherited else Missing
  end.

Definition hasOwnProperty {A} (o : t A) (k : string) : bool :=
  match getOwn o k with Some _ => true | None => false end.

Definition keys {A} (o : t A) : list string := o.*1.

Definition values {A} (o : t A) : list A := o.*2.

(** [o[k] = a]: overwrite in place, or append a new own property. *)
Fixpoint set {A} (o : t A) (k : string) (a : A) : t A :=
  match o with
  | [] => [(k, a)]
  | (k', a') :: o' =>
      if decide (k' = k) then (k', a) :: o' else (k', a') :: set o' k a
  end.

(** [delete o[k]]. *)
Definition delete {A} (o : t A) (k : string) : t A :=
  filter (λ kv, kv.1 ≠ k) o.

End JsObject.

Import JsObject (Own, Inherited, Missing).

(** A JavaScript string is falsy exactly when it is empty. *)
Definition truthy (s : string) : bool := negb (bool_decide (s = "")).

(** ** Lists of files *)

(** Position of the first file with the given path. *)
Fixpoint indexOfPath (l : list File) (path : string) : option nat :=
  match l with
  | [] => None
  | f :: l' =>
      if decide (fullPath f = path) then Some 0%nat
      else S <$> indexOfPath l' path
  end.

(** The number a JavaScript search returns: the index, or [-1]. *)
Definition jsIndex (o : option nat) : Z :=
  match o with Some i => Z.of_nat i | None => (-1)%Z end.

Definition hasPath (l : list File) (path : string) : bool :=
  match indexOfPath l path with Some _ => true | None => false end.

Definition removePath (path : string) (l : list File) : list File :=
  filter (λ f, fullPath f ≠ path) l.

(** [array.splice(i, 0, f)] for [0 <= i <= length], else [array.push(f)];
    the second component is the position the file ended up at. *)
Definition insertAt (index : option Z) (f : File) (l : list File)
  : list File * Z :=
  match index with
  | Some i =>
      if ((0 <=? i) && (i <=? Z.of_nat (length l)))%Z
      then (take (Z.to_nat i) l ++ f :: drop (Z.to_nat i) l, i)
      else (l ++ [f], Z.of_nat (length l))
  | None => (l ++ [f], Z.of_nat (length l))
  end.
Arguments insertAt : simpl never.

(** [Array.prototype.sort(compareFn)] as a stable insertion sort: [x] goes
    before [y] when [compareFn(x, y) <= 0]. *)
Fixpoint insertBy (compareFn : File → File → Z) (x : File) (l : list File)
  : list File :=
  match l with
  | [] => [x]
  | y :: l' =>
      if (compareFn x y <=? 0)%Z then x :: y :: l'
      else y :: insertBy compareFn x l'
  end.

Definition sortBy (compareFn : File → File → Z) (l : list File) : list File :=
  foldr (insertBy compareFn) [] l.

(** Exchange of two positions; nothing happens unless both exist. *)
Definition swapIndexes (i j : nat) (l : list File) : list File :=
  match l !! i, l !! j with
  | Some a, Some b => <[j:=a]> (<[i:=b]> l)
  | _, _ => l
  end.

(** [_.union(a, b)]: the values of both, each once, first occurrence first. *)
Fixpoint dedup (seen : list File) (l : list File) : list File :=
  match l with
  | [] => []
  | f :: l' =>
      if bool_decide (f ∈ seen) then dedup seen l'
      else f :: dedup (f :: seen) l'
  end.

Definition union (a b : list File) : list File := dedup [] (a ++ b).

(** ** The pane

    [view/Pane] is not among the sources: each method the manager calls is
    modelled from the specification (its data model of a pane, section 3, and
    its description of the view-list operations, section 4.2). *)
Module Pane.

(** Modelled from the spec: the [Pane] object of [view/Pane], which is
    missing.  A pane has an identity, a DOM element ([$el], identified by a
    number), one collection of files kept in three orders (the view list in
    manual order, the added order and the most-recently-used order) and at
    most one currently viewed file. *)
Record t := mk {
  id : string;
  el : nat;
  _viewList : list File;
  _viewListAddedOrder : list File;
  _viewListMRUOrder : list File;
  _currentView : option File
}.

(** Modelled from the spec: the three results of [reorderItem], missing with
    [view/Pane]; the manager tells "needs sort" and "not found" apart. *)
Inductive ReorderResult :=
| ITEM_NOT_FOUND
| ITEM_FOUND_NO_SORT
| ITEM_FOUND_NEEDS_SORT.

(** Modelled from the spec: [new Pane(paneId, $container)], missing with
    [view/Pane]; a new pane holds no file and shows none. *)
Definition new (paneId : string) (element : nat) : t :=
  mk paneId element [] [] [] None.

(** Modelled from the spec: a helper of the methods below, missing with
    [view/Pane]; the pane with its three orders replaced. *)
Definition setLists (vl added mru : list File) (p : t) : t :=
  mk (id p) (el p) vl added mru (_currentView p).

(** Modelled from the spec: a helper, missing with [view/Pane]; the pane
    with its currently viewed file replaced. *)
Definition setCurrentView (c : option File) (p : t) : t :=
  mk (id p) (el p) (_viewList p) (_viewListAddedOrder p) (_viewListMRUOrder p) c.

(** Modelled from the spec: [getViewList], missing with [view/Pane]; the
    pane's ordered sequence of file references, as a value of its own. *)
Definition getViewList (p : t) : list File := _viewList p.

(** Modelled from the spec: [getViewListSize], missing with [view/Pane]. *)
Definition getViewListSize (p : t) : Z := Z.of_nat (length (_viewList p)).

(** Modelled from the spec: [getCurrentlyViewedFile], missing with
    [view/Pane]; the currently viewed file, or null. *)
Definition getCurrentlyViewedFile (p : t) : option File := _currentView p.

(** Modelled from the spec: [findInViewList], missing with [view/Pane]:
    "locate a file's position under insertion order, manual order, or MRU
    order; returns -1" when the path is not there.  This one searches the
    manual order. *)
Definition findInViewList (p : t) (path : string) : Z :=
  jsIndex (indexOfPath (_viewList p) path).

(** Modelled from the spec: [findInViewListAddedOrder], missing with
    [view/Pane]; the same search in the added order. *)
Definition findInViewListAddedOrder (p : t) (path : string) : Z :=
  jsIndex (indexOfPath (_viewListAddedOrder p) path).

(** Modelled from the spec: [findInViewListMRUOrder], missing with
    [view/Pane]; the same search in the MRU order. *)
Definition findInViewListMRUOrder (p : t) (path : string) : Z :=
  jsIndex (indexOfPath (_viewListMRUOrder p) path).

(** Modelled from the spec: [addToViewList(file, index)], missing with
    [view/Pane]: "insert a file reference at a given position (default:
    append)"; it answers the position.  A file just added was never
    activated, so it is last in MRU order. *)
Definition addToViewList (f : File) (index : option Z) (p : t) : t * Z :=
  let '(vl, i) := insertAt index f (_viewList p) in
  (setLists vl (_viewListAddedOrder p ++ [f]) (_viewListMRUOrder p ++ [f]) p, i).

(** Modelled from the spec: [reorderItem(file, index, force)], missing with
    [view/Pane]: a file that is in the view list is moved to the requested
    position when it is not there yet ("the item existed and only needed
    reordering"); [force] asks for the notification in any case. *)
Definition reorderItem (f : File) (index : option Z) (force : bool) (p : t)
  : t * ReorderResult :=
  match indexOfPath (_viewList p) (fullPath f) with
  | None => (p, ITEM_NOT_FOUND)
  | Some cur =>
      match index with
      | Some i =>
          if ((0 <=? i) && negb (i =? Z.of_nat cur))%Z then
            let rest := removePath (fullPath f) (_viewList p) in
            (setLists (insertAt index f rest).1
               (_viewListAddedOrder p) (_viewListMRUOrder p) p,
             ITEM_FOUND_NEEDS_SORT)
          else (p, if force then ITEM_FOUND_NEEDS_SORT else ITEM_FOUND_NO_SORT)
      | None => (p, if force then ITEM_FOUND_NEEDS_SORT else ITEM_FOUND_NO_SORT)
      end
  end.

(** Modelled from the spec: [addListToViewList(fileList)], missing with
    [view/Pane]: "same semantics as Add but for many files, deduplicated
    against all panes".  A file is admitted when it needs no custom viewer
    ([canOpen]) and is open in no pane: not in another pane of the registry
    ([openElsewhere], the manager's exported [getPaneIdForPath] at the time
    of the call) and not in this pane, files admitted earlier in the same
    batch included.  It answers the files it admitted. *)
Fixpoint addListToViewList (canOpen openElsewhere : string → bool)
    (fileList : list File) (p : t) : t * list File :=
  match fileList with
  | [] => (p, [])
  | f :: rest =>
      if canOpen (fullPath f) && negb (openElsewhere (fullPath f))
         && negb (hasPath (_viewList p) (fullPath f))
      then
        let '(p', added) :=
          addListToViewList canOpen openElsewhere rest (addToViewList f None p).1 in
        (p', f :: added)
      else addListToViewList canOpen openElsewhere rest p
  end.

(** Modelled from the spec: [removeFromViewList(file)], missing with
    [view/Pane]: "detach file reference(s) from a pane's view list without
    affecting currently viewed state"; it answers whether the file was
    there. *)
Definition removeFromViewList (f : File) (p : t) : t * bool :=
  (setLists (removePath (fullPath f) (_viewList p))
     (removePath (fullPath f) (_viewListAddedOrder p))
     (removePath (fullPath f) (_viewListMRUOrder p)) p,
   hasPath (_viewList p) (fullPath f)).

(** Modelled from the spec: a helper of the list removals below, missing
    with [view/Pane]; [from] without the files of [l]. *)
Definition removePaths (l : list File) (from : list File) : list File :=
  filter (λ f, hasPath l (fullPath f) = false) from.

(** Modelled from the spec: a helper of the list removals below, missing
    with [view/Pane]; the files of [l] that are in [from]. *)
Definition removedFiles (l : list File) (from : list File) : list File :=
  filter (λ f, hasPath from (fullPath f) = true) l.

(** Modelled from the spec: [removeListFromViewList(list)], missing with
    [view/Pane]: it detaches the files of the list and answers those it
    removed; the manager tests the answer with [!fileList] and the spec has
    notifications "only when something was actually removed", so the answer
    is falsy ([None]) when no file was removed. *)
Definition removeListFromViewList (l : list File) (p : t)
  : t * option (list File) :=
  (setLists (removePaths l (_viewList p))
     (removePaths l (_viewListAddedOrder p))
     (removePaths l (_viewListMRUOrder p)) p,
   match removedFiles l (_viewList p) with
   | [] => None
   | removed => Some removed
   end).

(** Modelled from the spec: [removeAllFromViewList()], missing with
    [view/Pane]: it empties the view list and answers the files it held,
    falsy ([None]) when there was none (see [removeListFromViewList]). *)
Definition removeAllFromViewList (p : t) : t * option (list File) :=
  (setLists [] [] [] p,
   match _viewList p with
   | [] => None
   | removed => Some removed
   end).

(** Modelled from the spec: [makeViewMostRecent(file)], missing with
    [view/Pane]: "move a file to the head of MRU order without affecting
    insertion/manual order". *)
Definition makeViewMostRecent (f : File) (p : t) : t :=
  if hasPath (_viewListMRUOrder p) (fullPath f)
  then setLists (_viewList p) (_viewListAddedOrder p)
         (f :: removePath (fullPath f) (_viewListMRUOrder p)) p
  else p.

(** Modelled from the spec: [sortViewList(compareFn)], missing with
    [view/Pane]: "re-sort manual order via a caller-supplied three-way
    comparison function over two file references". *)
Definition sortViewList (compareFn : File → File → Z) (p : t) : t :=
  setLists (sortBy compareFn (_viewList p))
    (_viewListAddedOrder p) (_viewListMRUOrder p) p.

(** Modelled from the spec: [swapViewListIndexes(index1, index2)], missing
    with [view/Pane]: "exchange two manual-order positions". *)
Definition swapViewListIndexes (index1 index2 : nat) (p : t) : t :=
  setLists (swapIndexes index1 index2 (_viewList p))
    (_viewListAddedOrder p) (_viewListMRUOrder p) p.

(** Modelled from the spec: [traverseViewListByMRU(direction)], missing with
    [view/Pane]: "return the file adjacent to the current one in MRU order,
    wrapping; with exactly one file, returns that same file; with zero
    files, returns nothing".  The manager's comment adds that there is no
    next file when no document is open; a current file that is not in the
    list is followed by the most recent one. *)
Definition traverseViewListByMRU (direction : Z) (p : t) : option File :=
  match _currentView p with
  | None => None
  | Some c =>
      let mru := _viewListMRUOrder p in
      match indexOfPath mru (fullPath c) with
      | None => head mru
      | Some i =>
          mru !! Z.to_nat ((Z.of_nat i + direction) `mod` Z.of_nat (length mru))
      end
  end.

(** Modelled from the spec: [doRemoveView(file)], missing with [view/Pane]:
    "detach file(s) from whichever pane(s) hold them"; the view is closed,
    so a closed file is no longer the currently viewed one. *)
Definition doRemoveView (f : File) (p : t) : t :=
  mk (id p) (el p)
    (removePath (fullPath f) (_viewList p))
    (removePath (fullPath f) (_viewListAddedOrder p))
    (removePath (fullPath f) (_viewListMRUOrder p))
    (match _currentView p with
     | Some c => if decide (fullPath c = fullPath f) then None else Some c
     | None => None
     end).

(** Modelled from the spec: [doRemoveAllViews()], missing with
    [view/Pane]; every file is detached and every view closed. *)
Definition doRemoveAllViews (p : t) : t := mk (id p) (el p) [] [] [] None.

(** Modelled from the spec: [doRemoveViews(fileList)], missing with
    [view/Pane]; it answers the files it closed. *)
Definition doRemoveViews (l : list File) (p : t) : t * list File :=
  (mk (id p) (el p)
     (removePaths l (_viewList p))
     (removePaths l (_viewListAddedOrder p))
     (removePaths l (_viewListMRUOrder p))
     (match _currentView p with
      | Some c => if hasPath l (fullPath c) then None else Some c
      | None => None
      end),
   removedFiles l (_viewList p)).

(** Modelled from the spec: [mergeWith(other)], missing with [view/Pane]:
    "merge second pane's ordered file list onto the end of first pane's",
    "contents appended, not deduplicated". *)
Definition mergeWith (other : t) (p : t) : t :=
  setLists (_viewList p ++ _viewList other)
    (_viewListAddedOrder p ++ _viewListAddedOrder other)
    (_viewListMRUOrder p ++ _viewListMRUOrder other) p.

End Pane.

(** ** The manager's state *)

Inductive Orientation := VERTICAL | HORIZONTAL.

#[global] Instance Orientation_eq_dec : EqDecision Orientation.
Proof. solve_decision. Defined.

Definition ALL_PANES : string := "ALL_PANES".
Definition FOCUSED_PANE : string := "FOCUSED_PANE".
Definition FIRST_PANE : string := "first-pane".
Definition SECOND_PANE : string := "second-pane".

(** The property name a value of [_orientation] is converted to when it is
    used as a key. *)
Definition orientationKey (o : option Orientation) : string :=
  match o with
  | None => "null"
  | Some VERTICAL => "VERTICAL"
  | Some HORIZONTAL => "HORIZONTAL"
  end.

(** [Strings.LEFT], [Strings.TOP], [Strings.RIGHT], [Strings.BOTTOM]: the
    localised strings module is a collaborator; the four titles are kept
    symbolic. *)
Inductive Title := LEFT | TOP | RIGHT | BOTTOM.

(** [_paneTitles], as the initialisation at the end of the module leaves
    it. *)
Definition _paneTitles : JsObject.t (JsObject.t Title) :=
  [ (FIRST_PANE, [ ("VERTICAL", LEFT); ("HORIZONTAL", TOP) ]);
    (SECOND_PANE, [ ("VERTICAL", RIGHT); ("HORIZONTAL", BOTTOM) ]) ].

(** The notifications triggered on [exports], with their payloads. *)
Inductive Event :=
| activePaneChange (newPaneId oldPaneId : string)
| currentFileChanged (f : option File) (paneId : string)
| paneViewListAdd (f : File) (index : Z) (paneId : string)
| paneViewListAddList (files : list File) (paneId : string)
| paneViewListRemove (f : File) (suppressRedraw : bool) (paneId : string)
| paneViewListRemoveList (files : list File) (paneId : string)
| paneViewListSort (paneId : string)
| paneViewListDisableAutoSorting (paneId : string)
| paneCreated (paneId : string)
| paneDestroyed (paneId : string)
| paneLayoutChange (o : option Orientation).

Record State := mkState {
  _paneViews : JsObject.t Pane.t;
  _activePaneId : string;
  _orientation : option Orientation;
  (** number of DOM elements created for panes so far *)
  nextElement : nat;
  (** notifications sent so far, oldest first *)
  events : list Event
}.

Definition setPaneViews (o : JsObject.t Pane.t) (s : State) : State :=
  mkState o (_activePaneId s) (_orientation s) (nextElement s) (events s).

Definition setActive (paneId : string) (s : State) : State :=
  mkState (_paneViews s) paneId (_orientation s) (nextElement s) (events s).

Definition setOrientation (o : option Orientation) (s : State) : State :=
  mkState (_paneViews s) (_activePaneId s) o (nextElement s) (events s).

Definition setNextElement (n : nat) (s : State) : State :=
  mkState (_paneViews s) (_activePaneId s) (_orientation s) n (events s).

Definition addEvent (e : Event) (s : State) : State :=
  mkState (_paneViews s) (_activePaneId s) (_orientation s) (nextElement s)
    (events s ++ [e]).

(** ** Computations that may throw *)

Inductive Outcome (A : Type) :=
| Ok (a : A)
| TypeError.
Arguments Ok {A} a.
Arguments TypeError {A}.

(** A call of a manager function: it answers or throws, and leaves a state
    in both cases. *)
Definition M (A : Type) : Type := State → Outcome A * State.

Definition ret {A} (a : A) : M A := λ s, (Ok a, s).

Definition throw {A} : M A := λ s, (TypeError, s).

Definition bind {A B} (m : M A) (k : A → M B) : M B :=
  λ s, match m s with
       | (Ok a, s') => k a s'
       | (TypeError, s') => (TypeError, s')
       end.

Definition gets {A} (f : State → A) : M A := λ s, (Ok (f s), s).

Definition modify (f : State → State) : M unit := λ s, (Ok tt, f s).

Notation "'let*' x := m 'in' k" := (bind m (λ x, k))
  (at level 10, x binder, m at level 100, k at level 200).

(** [$(exports).triggerHandler(...)]; no listener is modelled. *)
Definition triggerHandler (e : Event) : M unit := modify (addEvent e).

(** What [_getPaneFromPaneId] answers: a pane (the registry slot that holds
    the object, and the object as it is now), a member of
    [Object.prototype] that the bracket read found instead, or null. *)
Inductive PaneRef :=
| IsPane (key : string) (p : Pane.t)
| NotAPane
| Null.

(** [pane.method(...)]: the object in the slot is changed in place; a
    method call on null, or on something that is not a pane, throws. *)
Definition callMethod {A} (pane : PaneRef) (method : Pane.t → Pane.t * A)
  : M A :=
  match pane with
  | IsPane key _ =>
      λ s, match JsObject.getOwn (_paneViews s) key with
           | Some p =>
               let '(p', a) := method p in
               (Ok a, setPaneViews (JsObject.set (_paneViews s) key p') s)
           | None => (TypeError, s)
           end
  | _ => throw
  end.

(** A method that only reads. *)
Definition readMethod {A} (pane : PaneRef) (method : Pane.t → A) : M A :=
  callMethod pane (λ p, (p, method p)).

(** A method that answers nothing. *)
Definition voidMethod (pane : PaneRef) (method : Pane.t → Pane.t) : M unit :=
  callMethod pane (λ p, (method p, tt)).

(** [if (pane)]: null is falsy, every object is truthy. *)
Definition isNull (pane : PaneRef) : bool :=
  match pane with Null => true | _ => false end.

(** [pane.id], which the source reads only once a method call on [pane]
    has succeeded, that is, on a pane. *)
Definition idOf (pane : PaneRef) : string :=
  match pane with
  | IsPane _ p => Pane.id p
  | _ => "undefined"
  end.

(** ** The manager *)

(** What the promise returned by [doOpen] has become when the call is over:
    rejections carry either one of the manager's own diagnostic strings or
    the error of the document loader. *)
Inductive Rejection :=
| Diagnostic (message : string)
| FileError (error : string).

Inductive Promise :=
| Resolved (doc : Document)
| Rejected (reason : Rejection)
| Pending.

(** The answer of [DocumentManager.getDocumentForPath], a collaborator: the
    document, a load failure, or nothing yet when [doOpen] returns. *)
Inductive LoadResult :=
| LoadDone (doc : Document)
| LoadFailed (error : string)
| LoadPending.

(** The three search methods [_doFindInViewList] is called with. *)
Inductive FindMethod :=
| findInViewList
| findInViewListAddedOrder
| findInViewListMRUOrder.

(** [pane[method].call(pane, fullPath)] *)
Definition findBy (method : FindMethod) (p : Pane.t) (path : string) : Z :=
  match method with
  | findInViewList => Pane.findInViewList p path
  | findInViewListAddedOrder => Pane.findInViewListAddedOrder p path
  | findInViewListMRUOrder => Pane.findInViewListMRUOrder p path
  end.

(** What [_doFindInViewList] answers: a number, a [{paneId, index}] pair, or
    [undefined] when it falls off its end. *)
Inductive FindResult :=
| FindIndex (index : Z)
| FindInfo (paneId : string) (index : Z)
| FindUndefined.

Definition getActivePaneId : M string := gets _activePaneId.

Definition getSplitOrientation : M (option Orientation) := gets _orientation.

Definition _getPaneFromPaneId (paneId : string) : M PaneRef :=
  let* paneId :=
    (if negb (truthy paneId) || bool_decide (paneId = FOCUSED_PANE)
     then getActivePaneId else ret paneId) in
  let* slot := gets (λ s, JsObject.get (_paneViews s) paneId) in
  match slot with
  | Own p => ret (IsPane paneId p)
  | Inherited => ret NotAPane
  | Missing => ret Null
  end.

Definition _getActivePane : M PaneRef :=
  let* active := gets _activePaneId in _getPaneFromPaneId active.

(** [pane.focus()] moves the keyboard focus, which is not part of the
    state. *)
Definition forceFocusToActivePaneView : M unit :=
  let* pane := _getActivePane in
  voidMethod pane (λ p, p).

Definition setActivePaneId (newPaneId : string) : M unit :=
  let* known := gets (λ s, JsObject.hasOwnProperty (_paneViews s) newPaneId) in
  let* oldPaneId := gets _activePaneId in
  let* _ :=
    (if known && negb (bool_decide (newPaneId = oldPaneId)) then
       let* _ := modify (setActive newPaneId) in
       let* _ := triggerHandler (activePaneChange newPaneId oldPaneId) in
       let* pane := _getActivePane in
       let* current := readMethod pane Pane.getCurrentlyViewedFile in
       triggerHandler (currentFileChanged current newPaneId)
     else ret tt) in
  forceFocusToActivePaneView.

(** [_.forEach(_paneViews, callback)] for a callback that changes panes:
    the keys are taken once, each value is read when its turn comes. *)
Fixpoint forEachKey (ks : list string) (callback : PaneRef → M unit)
  : M unit :=
  match ks with
  | [] => ret tt
  | k :: ks' =>
      let* slot := gets (λ s, JsObject.getOwn (_paneViews s) k) in
      let* _ := callback (match slot with
                          | Some p => IsPane k p
                          | None => Null
                          end) in
      forEachKey ks' callback
  end.

Definition forEachPane (callback : PaneRef → M unit) : M unit :=
  let* ks := gets (λ s, JsObject.keys (_paneViews s)) in
  forEachKey ks callback.

Definition getPaneViewList (paneId : string) : M (option (list File)) :=
  if decide (paneId = ALL_PANES) then
    let* panes := gets (λ s, JsObject.values (_paneViews s)) in
    ret (Some (foldl (λ result pane, union result (Pane.getViewList pane))
                 [] panes))
  else
    let* pane := _getPaneFromPaneId paneId in
    if isNull pane then ret None
    else
      let* viewList := readMethod pane Pane.getViewList in
      ret (Some viewList).

Definition getPaneIdList : M (list string) :=
  gets (λ s, JsObject.keys (_paneViews s)).

Definition getPaneViewListSize (paneId : string) : M Z :=
  if decide (paneId = ALL_PANES) then
    let* panes := gets (λ s, JsObject.values (_paneViews s)) in
    ret (foldl (λ result pane, result + Pane.getViewListSize pane)%Z 0%Z panes)
  else
    let* pane := _getPaneFromPaneId paneId in
    if isNull pane then ret 0%Z
    else
      let* size := readMethod pane Pane.getViewListSize in
      ret (0 + size)%Z.

(** [_paneTitles[paneId][_orientation]]: reading a property of [undefined]
    throws; a member of [Object.prototype] has no property named after an
    orientation, so reading one answers [undefined] ([Missing]). *)
Definition getPaneTitle (paneId : string) : M (JsObject.Slot Title) :=
  let* orientation := gets _orientation in
  match JsObject.get _paneTitles paneId with
  | Own titles => ret (JsObject.get titles (orientationKey orientation))
  | Inherited => ret Missing
  | Missing => throw
  end.

Definition getPaneCount : M nat :=
  gets (λ s, length (JsObject.keys (_paneViews s))).

(** The [_.forEach] of [_doFindInViewList], left at the first pane that has
    the path. *)
Fixpoint findInAllPanes (method : FindMethod) (panes : list Pane.t)
    (path : string) : FindResult :=
  match panes with
  | [] => FindIndex (-1)
  | pane :: rest =>
      let index := findBy method pane path in
      if (0 <=? index)%Z then FindInfo (Pane.id pane) index
      else findInAllPanes method rest path
  end.

Definition _doFindInViewList (paneId path : string) (method : FindMethod)
  : M FindResult :=
  if decide (paneId = ALL_PANES) then
    let* panes := gets (λ s, JsObject.values (_paneViews s)) in
    ret (findInAllPanes method panes path)
  else
    let* pane := _getPaneFromPaneId paneId in
    if isNull pane then ret FindUndefined
    else
      let* index := readMethod pane (λ p, findBy method p path) in
      ret (FindIndex index).

Definition getCurrentlyViewedFileForPane (paneId : string)
  : M (option File) :=
  let* pane := _getPaneFromPaneId paneId in
  if isNull pane then ret None
  else readMethod pane Pane.getCurrentlyViewedFile.

Definition getCurrentlyViewedPathForPane (paneId : string)
  : M (option string) :=
  let* f := getCurrentlyViewedFileForPane paneId in
  ret (fullPath <$> f).

Definition getCurrentlyViewedFile : M (option File) :=
  let* pane := _getActivePane in
  readMethod pane Pane.getCurrentlyViewedFile.

Definition getCurrentlyViewedPath : M (option string) :=
  let* f := getCurrentlyViewedFile in
  ret (fullPath <$> f).

Definition findInPaneViewList (paneId path : string) : M FindResult :=
  _doFindInViewList paneId path findInViewList.

Definition findInPaneViewListAddedOrder (paneId path : string)
  : M FindResult :=
  _doFindInViewList paneId path findInViewListAddedOrder.

Definition findInPaneViewListMRUOrder (paneId path : string) : M FindResult :=
  _doFindInViewList paneId path findInViewListMRUOrder.

(** [info.paneId] when [info !== -1], else null. *)
Definition getPaneIdForPath (path : string) : M (option string) :=
  let* info := findInPaneViewList ALL_PANES path in
  match info with
  | FindInfo paneId _ => ret (Some paneId)
  | _ => ret None
  end.

(** Truthiness of what [getPaneIdForPath] answers. *)
Definition isOpenAt (paneId : option string) : bool :=
  match paneId with Some i => truthy i | None => false end.

(** The pane a path is open in, as a function of the state. *)
Definition paneIdForPath (s : State) (path : string) : option string :=
  match findInAllPanes findInViewList (JsObject.values (_paneViews s)) path with
  | FindInfo paneId _ => Some paneId
  | _ => None
  end.

Section Manager.

(** [EditorManager.canOpenFile]: false for a file that needs a custom
    viewer. *)
Variable canOpenFile : string → bool.

(** [ProjectManager.isWithinProject] *)
Variable isWithinProject : string → bool.

Definition addToPaneViewList (paneId : string) (f : File) (index : option Z)
    (force : bool) : M unit :=
  let* pane := _getPaneFromPaneId paneId in
  let* currentPaneId := getPaneIdForPath (fullPath f) in
  if isNull pane || negb (canOpenFile (fullPath f)) || isOpenAt currentPaneId
  then ret tt
  else
    let* result := callMethod pane (Pane.reorderItem f index force) in
    match result with
    | Pane.ITEM_FOUND_NEEDS_SORT => triggerHandler (paneViewListSort (idOf pane))
    | Pane.ITEM_NOT_FOUND =>
        let* index := callMethod pane (Pane.addToViewList f index) in
        triggerHandler (paneViewListAdd f index (idOf pane))
    | Pane.ITEM_FOUND_NO_SORT => ret tt
    end.

(** [pane.addListToViewList(fileList)] is a method of [view/Pane]; the
    modelled method looks other panes up through the manager's exported
    [getPaneIdForPath], which reads the registry as it is when the method
    is called: that lookup is [openElsewhere]. *)
Definition addListToPaneViewList (paneId : string) (fileList : list File)
  : M unit :=
  let* pane := _getPaneFromPaneId paneId in
  if isNull pane then ret tt
  else
    let* openElsewhere := gets (λ s path, isOpenAt (paneIdForPath s path)) in
    let* uniqueFileList :=
      callMethod pane (Pane.addListToViewList canOpenFile openElsewhere fileList) in
    triggerHandler (paneViewListAddList uniqueFileList (idOf pane)).

Definition _removeFromPaneViewList (paneId : string) (f : File)
    (suppressRedraw : bool) : M unit :=
  let* pane := _getPaneFromPaneId paneId in
  if isNull pane then ret tt
  else
    let* removed := callMethod pane (Pane.removeFromViewList f) in
    if removed
    then triggerHandler (paneViewListRemove f suppressRedraw (idOf pane))
    else ret tt.

Definition removeFromPaneViewList (paneId : string) (f : File)
    (suppressRedraw : bool) : M unit :=
  if decide (paneId = ALL_PANES) then
    forEachPane (λ pane, _removeFromPaneViewList (idOf pane) f suppressRedraw)
  else _removeFromPaneViewList paneId f suppressRedraw.

Definition _removeListFromPaneViewList (paneId : string) (l : list File)
  : M unit :=
  let* pane := _getPaneFromPaneId paneId in
  if isNull pane then ret tt
  else
    let* fileList := callMethod pane (Pane.removeListFromViewList l) in
    match fileList with
    | None => ret tt
    | Some fileList =>
        triggerHandler (paneViewListRemoveList fileList (idOf pane))
    end.

Definition removeListFromPaneViewList (paneId : string) (l : list File)
  : M unit :=
  if decide (paneId = ALL_PANES) then
    forEachPane (λ pane, _removeListFromPaneViewList (idOf pane) l)
  else _removeListFromPaneViewList paneId l.

Definition _removeAllFromPaneViewList (paneId : string) : M unit :=
  let* pane := _getPaneFromPaneId paneId in
  if isNull pane then ret tt
  else
    let* fileList := callMethod pane Pane.removeAllFromViewList in
    match fileList with
    | None => ret tt
    | Some fileList =>
        triggerHandler (paneViewListRemoveList fileList (idOf pane))
    end.

Definition removeAllFromPaneViewList (paneId : string) : M unit :=
  if decide (paneId = ALL_PANES) then
    forEachPane (λ pane, _removeAllFromPaneViewList (idOf pane))
  else _removeAllFromPaneViewList paneId.

Definition makePaneViewMostRecent (paneId : string) (f : File) : M unit :=
  let* pane := _getPaneFromPaneId paneId in
  if isNull pane then ret tt
  else voidMethod pane (Pane.makeViewMostRecent f).

Definition sortPaneViewList (paneId : string) (compareFn : File → File → Z)
  : M unit :=
  let* pane := _getPaneFromPaneId paneId in
  if isNull pane then ret tt
  else
    let* _ := voidMethod pane (Pane.sortViewList compareFn) in
    triggerHandler (paneViewListSort (idOf pane)).

Definition swapPaneViewListIndexes (paneId : string) (index1 index2 : nat)
  : M unit :=
  let* pane := _getPaneFromPaneId paneId in
  if isNull pane then ret tt
  else
    let* _ := voidMethod pane (Pane.swapViewListIndexes index1 index2) in
    let* _ := triggerHandler (paneViewListSort (idOf pane)) in
    triggerHandler (paneViewListDisableAutoSorting (idOf pane)).

Definition traversePaneViewListByMRU (paneId : string) (direction : Z)
  : M (option File) :=
  let* pane := _getPaneFromPaneId paneId in
  if isNull pane then ret None
  else readMethod pane (Pane.traverseViewListByMRU direction).

(** [_updateLayout] sizes the DOM elements of the panes and
    [_updateCommandState] sets the check marks of the two commands; neither
    touches the state kept here. *)
Definition _updateLayout : M unit := ret tt.

Definition _updateCommandState : M unit := ret tt.

(** Modelled from the spec: [EditorManager.doOpenDocument(doc, pane)], a
    collaborator that is not among the sources: it "attaches an editing
    surface to that pane's container", after which the document's file is
    the one the pane shows. *)
Definition doOpenDocument (doc : Document) (pane : PaneRef) : M unit :=
  voidMethod pane (Pane.setCurrentView (Some (file doc))).

Definition doEdit (paneId : string) (doc : Document) : M unit :=
  let* currentPaneId := getPaneIdForPath (fullPath (file doc)) in
  let* paneId :=
    (match currentPaneId with
     | Some current =>
         if truthy current
         then let* _ := setActivePaneId current in ret current
         else ret paneId
     | None => ret paneId
     end) in
  let* pane := _getPaneFromPaneId paneId in
  if isNull pane then ret tt
  else
    let* _ :=
      (if isUntitled doc || negb (isWithinProject (fullPath (file doc)))
       then addToPaneViewList paneId (file doc) None false
       else ret tt) in
    let* _ := doOpenDocument doc pane in
    let* active := gets _activePaneId in
    let* _ :=
      (if bool_decide (idOf pane = active)
       then triggerHandler (currentFileChanged (Some (file doc)) (idOf pane))
       else ret tt) in
    makePaneViewMostRecent paneId (file doc).

(** [doOpen(paneId, file)].  [openDoc] is what
    [DocumentManager.getOpenDocumentForPath(file.fullPath)] answers and
    [load] what [DocumentManager.getDocumentForPath(file.fullPath)] has
    answered by the time the call is over. *)
Definition doOpen (paneId : string) (f : option File)
    (openDoc : option Document) (load : LoadResult) : M Promise :=
  match f with
  | None => ret (Rejected (Diagnostic "bad argument"))
  | Some f =>
      let* currentPaneId := getPaneIdForPath (fullPath f) in
      let* paneId :=
        (match currentPaneId with
         | Some current =>
             if truthy current
             then let* _ := setActivePaneId current in ret current
             else ret paneId
         | None => ret paneId
         end) in
      match openDoc with
      | Some doc =>
          let* _ := doEdit paneId doc in
          ret (Resolved doc)
      | None =>
          if canOpenFile (fullPath f) then
            match load with
            | LoadDone doc =>
                let* _ := doEdit paneId doc in
                ret (Resolved doc)
            | LoadFailed fileError => ret (Rejected (FileError fileError))
            | LoadPending => ret Pending
            end
          else
            ret (Rejected (Diagnostic
              "custom viewers not yet implemented with split view. check back later."))
      end
  end.

Definition doClose (paneId : string) (f : File) : M unit :=
  let* target :=
    (if decide (paneId = ALL_PANES) then
       let* info := findInPaneViewList ALL_PANES (fullPath f) in
       match info with
       | FindInfo found _ => ret (Some found)
       | _ => ret None
       end
     else ret (Some paneId)) in
  match target with
  | None => ret tt
  | Some paneId =>
      let* pane := _getPaneFromPaneId paneId in
      let* index := readMethod pane (λ p, Pane.findInViewList p (fullPath f)) in
      let dispatchEvent := negb (index =? -1)%Z in
      let* _ := voidMethod pane (Pane.doRemoveView f) in
      if dispatchEvent
      then triggerHandler (paneViewListRemove f false (idOf pane))
      else ret tt
  end.

Definition doCloseAll (paneId : string) : M unit :=
  let closeAll (pane : PaneRef) : M unit :=
    let* fileList := readMethod pane Pane.getViewList in
    let* _ := voidMethod pane Pane.doRemoveAllViews in
    triggerHandler (paneViewListRemoveList fileList (idOf pane)) in
  if decide (paneId = ALL_PANES) then forEachPane closeAll
  else
    let* pane := _getPaneFromPaneId paneId in
    closeAll pane.

Definition doCloseList (paneId : string) (fileList : list File) : M unit :=
  let closeList (pane : PaneRef) : M unit :=
    let* closedList := callMethod pane (Pane.doRemoveViews fileList) in
    triggerHandler (paneViewListRemoveList closedList (idOf pane)) in
  if decide (paneId = ALL_PANES) then forEachPane closeList
  else
    let* pane := _getPaneFromPaneId paneId in
    closeList pane.

(** The id of the first pane whose element is the container, or
    [undefined]. *)
Definition _getPaneIdFromContainer (container : nat) : M (option string) :=
  gets (λ s, Pane.id <$>
               head (filter (λ p, Pane.el p = container)
                       (JsObject.values (_paneViews s)))).

(** An [undefined] pane id used as a property name or compared with a
    string. *)
Definition toKey (paneId : option string) : string :=
  default "undefined" paneId.

Definition _activeEditorChange (current : option Editor) : M unit :=
  match current with
  | None => ret tt
  | Some current =>
      let* newPaneId := _getPaneIdFromContainer (getContainer current) in
      let* active := gets _activePaneId in
      if bool_decide (newPaneId = Some active) then
        let* _ := triggerHandler
                    (currentFileChanged (Some (getFile current)) active) in
        forceFocusToActivePaneView
      else setActivePaneId (toKey newPaneId)
  end.

(** [pane.destroyViewIfNotNeeded] disposes of an editor; the files of the
    pane stay. *)
Definition destroyEditorIfNotNeeded (_masterEditor : option Editor) : M unit :=
  match _masterEditor with
  | None => ret tt
  | Some editor =>
      let* paneId := _getPaneIdFromContainer (getContainer editor) in
      let* slot := gets (λ s, JsObject.get (_paneViews s) (toKey paneId)) in
      match slot with
      | Own p => voidMethod (IsPane (toKey paneId) p) (λ p, p)
      | Inherited => throw
      | Missing => ret tt
      end
  end.

Definition _createPaneIfNecessary (paneId : string) : M unit :=
  let* known := gets (λ s, JsObject.hasOwnProperty (_paneViews s) paneId) in
  if known then ret tt
  else
    let* element := gets nextElement in
    let pane := Pane.new paneId element in
    let* _ := modify (setNextElement (S element)) in
    let* _ := modify (λ s, setPaneViews (JsObject.set (_paneViews s) paneId pane) s) in
    triggerHandler (paneCreated (Pane.id pane)).

(** The callback given to [AppInit.htmlReady]. *)
Definition htmlReady : M unit :=
  let* _ := _createPaneIfNecessary FIRST_PANE in
  _updateLayout.

(** [_paneViews[key]], read without a test. *)
Definition paneAt (key : string) : M PaneRef :=
  let* slot := gets (λ s, JsObject.get (_paneViews s) key) in
  match slot with
  | Own p => ret (IsPane key p)
  | Inherited => ret NotAPane
  | Missing => ret Null
  end.

Definition _doUnsplit : M unit :=
  let* split := gets (λ s, JsObject.hasOwnProperty (_paneViews s) SECOND_PANE) in
  if split then
    let* firstPane := paneAt FIRST_PANE in
    let* secondPane := paneAt SECOND_PANE in
    let* fileList := readMethod secondPane Pane.getViewList in
    let* other := readMethod secondPane (λ p, p) in
    let* _ := voidMethod firstPane (Pane.mergeWith other) in
    let* _ := triggerHandler (paneViewListRemoveList fileList (idOf secondPane)) in
    let* _ := setActivePaneId (idOf firstPane) in
    (* secondPane.destroy() releases its DOM element *)
    let* _ := modify (λ s, setPaneViews (JsObject.delete (_paneViews s) SECOND_PANE) s) in
    let* _ := triggerHandler (paneDestroyed (idOf secondPane)) in
    let* _ := triggerHandler (paneViewListAddList fileList (idOf firstPane)) in
    let* _ := modify (setOrientation None) in
    let* _ := _updateLayout in
    let* _ := _updateCommandState in
    triggerHandler (paneLayoutChange None)
  else ret tt.

Definition _doSplit (orientation : Orientation) : M unit :=
  let* _ := _createPaneIfNecessary SECOND_PANE in
  let* _ := modify (setOrientation (Some orientation)) in
  let* _ := _updateLayout in
  let* _ := _updateCommandState in
  triggerHandler (paneLayoutChange (Some orientation)).

Definition _handleSplitVertically : M unit :=
  let* orientation := gets _orientation in
  if decide (orientation = Some VERTICAL) then _doUnsplit
  else _doSplit VERTICAL.

Definition _handleSplitHorizontially : M unit :=
  let* orientation := gets _orientation in
  if decide (orientation = Some HORIZONTAL) then _doUnsplit
  else _doSplit HORIZONTAL.

End Manager.

(** ** Runs of the manager *)

(** The module as loading leaves it: no pane yet; and the state once the
    [htmlReady] callback has created the first pane. *)
Definition moduleState : State := mkState [] FIRST_PANE None 0 [].

Definition initialState : State := (htmlReady moduleState).2.

(** The calls that change the state: the exported functions, the two split
    commands and the [activeEditorChange] handler. *)
Inductive Op :=
| OpAddToPaneViewList (paneId : string) (f : File) (index : option Z) (force : bool)
| OpAddListToPaneViewList (paneId : string) (fileList : list File)
| OpRemoveFromPaneViewList (paneId : string) (f : File) (suppressRedraw : bool)
| OpRemoveListFromPaneViewList (paneId : string) (l : list File)
| OpRemoveAllFromPaneViewList (paneId : string)
| OpMakePaneViewMostRecent (paneId : string) (f : File)
| OpSortPaneViewList (paneId : string) (compareFn : File → File → Z)
| OpSwapPaneViewListIndexes (paneId : string) (index1 index2 : nat)
| OpForceFocusToActivePaneView
| OpSetActivePaneId (newPaneId : string)
| OpDestroyEditorIfNotNeeded (_masterEditor : option Editor)
| OpDoEdit (paneId : string) (doc : Document)
| OpDoOpen (paneId : string) (f : option File) (openDoc : option Document)
    (load : LoadResult)
| OpDoClose (paneId : string) (f : File)
| OpDoCloseAll (paneId : string)
| OpDoCloseList (paneId : string) (fileList : list File)
| OpHandleSplitVertically
| OpHandleSplitHorizontially
| OpActiveEditorChange (current : option Editor).

Section Runs.

Variable canOpenFile : string → bool.
Variable isWithinProject : string → bool.

(** The state a call leaves, whether it answers or throws. *)
Definition step (op : Op) (s : State) : State :=
  match op with
  | OpAddToPaneViewList paneId f index force =>
      (addToPaneViewList canOpenFile paneId f index force s).2
  | OpAddListToPaneViewList paneId fileList =>
      (addListToPaneViewList canOpenFile paneId fileList s).2
  | OpRemoveFromPaneViewList paneId f suppressRedraw =>
      (removeFromPaneViewList paneId f suppressRedraw s).2
  | OpRemoveListFromPaneViewList paneId l =>
      (removeListFromPaneViewList paneId l s).2
  | OpRemoveAllFromPaneViewList paneId => (removeAllFromPaneViewList paneId s).2
  | OpMakePaneViewMostRecent paneId f => (makePaneViewMostRecent paneId f s).2
  | OpSortPaneViewList paneId compareFn => (sortPaneViewList paneId compareFn s).2
  | OpSwapPaneViewListIndexes paneId index1 index2 =>
      (swapPaneViewListIndexes paneId index1 index2 s).2
  | OpForceFocusToActivePaneView => (forceFocusToActivePaneView s).2
  | OpSetActivePaneId newPaneId => (setActivePaneId newPaneId s).2
  | OpDestroyEditorIfNotNeeded editor => (destroyEditorIfNotNeeded editor s).2
  | OpDoEdit paneId doc =>
      (doEdit canOpenFile isWithinProject paneId doc s).2
  | OpDoOpen paneId f openDoc load =>
      (doOpen canOpenFile isWithinProject paneId f openDoc load s).2
  | OpDoClose paneId f => (doClose paneId f s).2
  | OpDoCloseAll paneId => (doCloseAll paneId s).2
  | OpDoCloseList paneId fileList => (doCloseList paneId fileList s).2
  | OpHandleSplitVertically => (_handleSplitVertically s).2
  | OpHandleSplitHorizontially => (_handleSplitHorizontially s).2
  | OpActiveEditorChange current => (_activeEditorChange current s).2
  end.

Definition run (ops : list Op) (s : State) : State :=
  foldl (λ s op, step op s) s ops.

Inductive reachable : State → Prop :=
| reachable_init : reachable initialState
| reachable_step op s : reachable s → reachable (step op s).

End Runs.

(** ** What a state of the manager satisfies *)

(** The files of a pane: no file twice in any of the three orders, and the
    three orders hold the same files. *)
Record PaneOk (p : Pane.t) : Prop := mkPaneOk {
  ok_viewList : NoDup (Pane._viewList p);
  ok_mru : NoDup (Pane._viewListMRUOrder p);
  ok_added : NoDup (Pane._viewListAddedOrder p);
  ok_mru_same : ∀ f, f ∈ Pane._viewListMRUOrder p ↔ f ∈ Pane._viewList p;
  ok_added_same : ∀ f, f ∈ Pane._viewListAddedOrder p ↔ f ∈ Pane._viewList p
}.

(** The registry holds the first pane, or the first and the second, each
    under its own id. *)
Definition Shape (o : JsObject.t Pane.t) : Prop :=
  ∃ p1, Pane.id p1 = FIRST_PANE ∧
    (o = [(FIRST_PANE, p1)] ∨
     ∃ p2, Pane.id p2 = SECOND_PANE ∧ o = [(FIRST_PANE, p1); (SECOND_PANE, p2)]).

Record Inv (s : State) : Prop := mkInv {
  inv_shape : Shape (_paneViews s);
  inv_active : JsObject.hasOwnProperty (_paneViews s) (_activePaneId s) = true;
  inv_panes : ∀ k p, JsObject.getOwn (_paneViews s) k = Some p → PaneOk p;
  inv_disjoint : ∀ k1 p1 k2 p2 f,
    JsObject.getOwn (_paneViews s) k1 = Some p1 →
    JsObject.getOwn (_paneViews s) k2 = Some p2 →
    f ∈ Pane._viewList p1 → f ∈ Pane._viewList p2 → k1 = k2
}.

(** [p'] is [p] after a method call: the same pane, in order if [p] was,
    and holding no file that [p] did not hold, the [fresh] ones apart. *)
Record Evolves (fresh : File → Prop) (p p' : Pane.t) : Prop := mkEvolves {
  ev_id : Pane.id p' = Pane.id p;
  ev_ok : PaneOk p → PaneOk p';
  ev_files : ∀ f, f ∈ Pane._viewList p' → f ∈ Pane._viewList p ∨ fresh f
}.

Definition nothing : File → Prop := λ _, False.

(** The file is in the view list of no pane. *)
Definition NotOpen (s : State) (f : File) : Prop :=
  ∀ k q, JsObject.getOwn (_paneViews s) k = Some q → f ∉ Pane._viewList q.

(** A pane reference that is the pane now held in its slot. *)
Definition RefOk (s : State) (pane : PaneRef) : Prop :=
  match pane with
  | IsPane key p => JsObject.getOwn (_paneViews s) key = Some p
  | _ => True
  end.

(** The view list held under a key of the registry. *)
Definition viewListAt (s : State) (key : string) : option (list File) :=
  Pane._viewList <$> JsObject.getOwn (_paneViews s) key.

(** The pane id [_getPaneFromPaneId] looks up, and what it finds there. *)
Definition resolvePaneId (s : State) (paneId : string) : string :=
  if negb (truthy paneId) || bool_decide (paneId = FOCUSED_PANE)
  then _activePaneId s else paneId.

Definition refAt (s : State) (key : string) : PaneRef :=
  match JsObject.get (_paneViews s) key with
  | Own p => IsPane key p
  | Inherited => NotAPane
  | Missing => Null
  end.

(** The panes whose view list holds a file with the given path. *)
Definition panesHolding (s : State) (path : string) : list Pane.t :=
  filter (λ p, hasPath (Pane._viewList p) path = true)
    (JsObject.values (_paneViews s)).

(** The state in which the pane under [key] shows the file [f], as
    [EditorManager.doOpenDocument] leaves it. *)
Definition showing (key : string) (f : File) (s : State) : State :=
  match JsObject.getOwn (_paneViews s) key with
  | Some p =>
      setPaneViews
        (JsObject.set (_paneViews s) key (Pane.setCurrentView (Some f) p)) s
  | None => s
  end.

(** A run that ends split: a file is added to the first pane, the editor is
    split vertically, and another file is added to the second pane. *)
Definition splitExample : State :=
  run (λ _, true) (λ _, true)
    [ OpAddToPaneViewList FIRST_PANE (mkFile "/a.js") None false;
      OpHandleSplitVertically;
      OpAddToPaneViewList SECOND_PANE (mkFile "/d.js") None false ]
    initialState.

(** The second pane at the end of that run. *)
Definition splitExampleSecond : Pane.t :=
  Pane.mk SECOND_PANE 1 [mkFile "/d.js"] [mkFile "/d.js"] [mkFile "/d.js"] None.

(** [s'] has the active pane and the view lists of [s]. *)
Definition frames (s s' : State) : Prop :=
  _activePaneId s' = _activePaneId s ∧
  ∀ k, viewListAt s' k = viewListAt s k.

(** A call that changes neither the active pane nor any view list. *)
Definition framed {A} (m : M A) : Prop := ∀ s, frames s (m s).2.

(** The test [addToPaneViewList] makes before it adds a file: the file
    needs no custom viewer and [getPaneIdForPath] finds it in no pane. *)
Definition admissible (canOpenFile : string → bool) (s : State) (g : File)
  : bool :=
  canOpenFile (fullPath g) && negb (isOpenAt (paneIdForPath s (fullPath g))).

(** A run in which two untitled documents are edited in the first pane:
    both files are in its view list and the second is the current one. *)
Definition editExample : State :=
  run (λ _, true) (λ _, true)
    [ OpDoEdit FIRST_PANE (mkDocument (mkFile "/a.js") true);
      OpDoEdit FIRST_PANE (mkDocument (mkFile "/b.js") true) ]
    initialState.




(** ** Further notions: frames, split commands, calls that answer *)

(** The file is in the view list of some pane. *)
Definition Open (s : State) (g : File) : Prop :=
  ∃ k q, JsObject.getOwn (_paneViews s) k = Some q ∧ g ∈ Pane._viewList q.

(** The second pane is registered exactly when an orientation is set. *)
Definition SplitConsistent (s : State) : Prop :=
  _orientation s = None ↔
  JsObject.hasOwnProperty (_paneViews s) SECOND_PANE = false.

(** [p'] is [p] after a method call: the same pane, holding no file that
    [p] did not hold, the [fresh] ones apart. *)
Record Within (fresh : File → Prop) (p p' : Pane.t) : Prop := mkWithin {
  within_id : Pane.id p' = Pane.id p;
  within_files : ∀ g, g ∈ Pane._viewList p' → g ∈ Pane._viewList p ∨ fresh g
}.

(** What the calls other than the split commands do to a state, one change
    after the other: a notification is sent, a method changes the pane held
    under a key, or, where [activates] allows it, a registered pane becomes
    the active one. *)
Inductive Changes (activates : bool) (fresh : File → Prop)
  : State → State → Prop :=
| changes_none s : Changes activates fresh s s
| changes_then s s' s'' :
    Changes activates fresh s s' → Changes activates fresh s' s'' →
    Changes activates fresh s s''
| changes_event e s : Changes activates fresh s (addEvent e s)
| changes_pane s key p p' :
    JsObject.getOwn (_paneViews s) key = Some p → Within fresh p p' →
    Changes activates fresh s
      (setPaneViews (JsObject.set (_paneViews s) key p') s)
| changes_active s newPaneId :
    activates = true →
    JsObject.hasOwnProperty (_paneViews s) newPaneId = true →
    Changes activates fresh s (setActive newPaneId s).

(** A call that makes only such changes, whether it answers or throws. *)
Definition changes (activates : bool) (fresh : File → Prop) {A} (m : M A)
  : Prop :=
  ∀ s, Changes activates fresh s (m s).2.

(** The two split commands. *)
Definition isSplitCommand (op : Op) : bool :=
  match op with
  | OpHandleSplitVertically | OpHandleSplitHorizontially => true
  | _ => false
  end.

(** The calls that may make another pane the active one. *)
Definition mayActivate (op : Op) : bool :=
  match op with
  | OpSetActivePaneId _ | OpDoEdit _ _ | OpDoOpen _ _ _ _
  | OpActiveEditorChange _
  | OpHandleSplitVertically | OpHandleSplitHorizontially => true
  | _ => false
  end.

(** The files a call is given. *)
Definition filesOf (op : Op) : list File :=
  match op with
  | OpAddToPaneViewList _ f _ _ => [f]
  | OpAddListToPaneViewList _ fileList => fileList
  | OpDoEdit _ doc => [file doc]
  | OpDoOpen _ _ (Some doc) _ => [file doc]
  | OpDoOpen _ _ None (LoadDone doc) => [file doc]
  | _ => []
  end.

(** The command registered for an orientation. *)
Definition splitCommand (orientation : Orientation) : M unit :=
  match orientation with
  | VERTICAL => _handleSplitVertically
  | HORIZONTAL => _handleSplitHorizontially
  end.

(** The state [setActivePaneId] leaves when the active pane is registered. *)
Definition activated (newPaneId : string) (s : State) : State :=
  match JsObject.getOwn (_paneViews s) newPaneId with
  | Some p =>
      if decide (newPaneId = _activePaneId s) then s
      else addEvent
             (currentFileChanged (Pane.getCurrentlyViewedFile p) newPaneId)
             (addEvent (activePaneChange newPaneId (_activePaneId s))
                (setActive newPaneId s))
  | None => s
  end.

(** The state [_doSplit] leaves. *)
Definition splitInto (orientation : Orientation) (s : State) : State :=
  addEvent (paneLayoutChange (Some orientation))
    (setOrientation (Some orientation)
       (if JsObject.hasOwnProperty (_paneViews s) SECOND_PANE then s
        else addEvent (paneCreated SECOND_PANE)
               (setPaneViews
                  (JsObject.set (_paneViews s) SECOND_PANE
                     (Pane.new SECOND_PANE (nextElement s)))
                  (setNextElement (S (nextElement s)) s)))).

(** The state [_doUnsplit] leaves when both panes are registered. *)
Definition unsplit (s : State) : State :=
  match JsObject.getOwn (_paneViews s) FIRST_PANE,
        JsObject.getOwn (_paneViews s) SECOND_PANE with
  | Some p1, Some p2 =>
      let fileList := Pane.getViewList p2 in
      let merged :=
        addEvent (paneViewListRemoveList fileList (Pane.id p2))
          (setPaneViews
             (JsObject.set (_paneViews s) FIRST_PANE (Pane.mergeWith p2 p1)) s) in
      let focused := activated (Pane.id p1) merged in
      addEvent (paneLayoutChange None)
        (setOrientation None
           (addEvent (paneViewListAddList fileList (Pane.id p1))
              (addEvent (paneDestroyed (Pane.id p2))
                 (setPaneViews
                    (JsObject.delete (_paneViews focused) SECOND_PANE)
                    focused))))
  | _, _ => s
  end.

(** The call an [Op] stands for, with its answer dropped. *)
Definition call (canOpenFile isWithinProject : string → bool) (op : Op)
  : M unit :=
  match op with
  | OpAddToPaneViewList paneId f index force =>
      addToPaneViewList canOpenFile paneId f index force
  | OpAddListToPaneViewList paneId fileList =>
      addListToPaneViewList canOpenFile paneId fileList
  | OpRemoveFromPaneViewList paneId f suppressRedraw =>
      removeFromPaneViewList paneId f suppressRedraw
  | OpRemoveListFromPaneViewList paneId l => removeListFromPaneViewList paneId l
  | OpRemoveAllFromPaneViewList paneId => removeAllFromPaneViewList paneId
  | OpMakePaneViewMostRecent paneId f => makePaneViewMostRecent paneId f
  | OpSortPaneViewList paneId compareFn => sortPaneViewList paneId compareFn
  | OpSwapPaneViewListIndexes paneId index1 index2 =>
      swapPaneViewListIndexes paneId index1 index2
  | OpForceFocusToActivePaneView => forceFocusToActivePaneView
  | OpSetActivePaneId newPaneId => setActivePaneId newPaneId
  | OpDestroyEditorIfNotNeeded editor => destroyEditorIfNotNeeded editor
  | OpDoEdit paneId doc => doEdit canOpenFile isWithinProject paneId doc
  | OpDoOpen paneId f openDoc load =>
      let* _ := doOpen canOpenFile isWithinProject paneId f openDoc load in
      ret tt
  | OpDoClose paneId f => doClose paneId f
  | OpDoCloseAll paneId => doCloseAll paneId
  | OpDoCloseList paneId fileList => doCloseList paneId fileList
  | OpHandleSplitVertically => _handleSplitVertically
  | OpHandleSplitHorizontially => _handleSplitHorizontially
  | OpActiveEditorChange current => _activeEditorChange current
  end.

(** The pane id a call is given, and the three calls that use the pane they
    look up without testing it. *)
Definition paneIdOf (op : Op) : option string :=
  match op with
  | OpAddToPaneViewList paneId _ _ _ | OpAddListToPaneViewList paneId _
  | OpRemoveFromPaneViewList paneId _ _ | OpRemoveListFromPaneViewList paneId _
  | OpRemoveAllFromPaneViewList paneId | OpMakePaneViewMostRecent paneId _
  | OpSortPaneViewList paneId _ | OpSwapPaneViewListIndexes paneId _ _
  | OpDoEdit paneId _ | OpDoOpen paneId _ _ _
  | OpDoClose paneId _ | OpDoCloseAll paneId | OpDoCloseList paneId _ =>
      Some paneId
  | _ => None
  end.

Definition unguarded (op : Op) : bool :=
  match op with
  | OpDoClose _ _ | OpDoCloseAll _ | OpDoCloseList _ _ => true
  | _ => false
  end.

(** A pane id a call can be given: [ALL_PANES]; an id that stands for a
    registered pane (its own id, or [FOCUSED_PANE] or the empty string when
    the active pane is registered); and, for the calls that test the pane
    they look up, any id that is not the name of a member of
    [Object.prototype]. *)
Definition usable (s : State) (op : Op) : Prop :=
  match paneIdOf op with
  | None => True
  | Some paneId =>
      paneId = ALL_PANES ∨
      JsObject.hasOwnProperty (_paneViews s) (resolvePaneId s paneId) = true ∨
      (unguarded op = false ∧
       resolvePaneId s paneId ∉ JsObject.Object_prototype)
  end.

(** A call that answers, in a state that satisfies the invariant and has
    the pane [key]. *)
Definition safe (key : string) {A} (m : M A) : Prop :=
  ∀ s, Inv s → JsObject.hasOwnProperty (_paneViews s) key = true →
       ∃ a, (m s).1 = Ok a.

(** A call that answers in every state. *)
Definition total {A} (m : M A) : Prop := ∀ s, ∃ a, (m s).1 = Ok a.

(** A pane id that [_getPaneFromPaneId] resolves to a registered pane or
    to null, and not to a member of [Object.prototype]. *)
Definition lookupOk (s : State) (paneId : string) : Prop :=
  JsObject.hasOwnProperty (_paneViews s) (resolvePaneId s paneId) = true ∨
  resolvePaneId s paneId ∉ JsObject.Object_prototype.

(** The body of [_doUnsplit], cut in two between [setActivePaneId(firstPane.id)]
    and [secondPane.destroy()].  The first half reads the files of the
    second pane, merges it into the first, sends [paneViewListRemoveList]
    and ends with [setActivePaneId(firstPane.id)]; it answers the files
    read. *)
Definition _doUnsplit_activate (firstPane secondPane : PaneRef)
  : M (list File) :=
  let* fileList := readMethod secondPane Pane.getViewList in
  let* other := readMethod secondPane (λ p, p) in
  let* _ := voidMethod firstPane (Pane.mergeWith other) in
  let* _ := triggerHandler (paneViewListRemoveList fileList (idOf secondPane)) in
  let* _ := setActivePaneId (idOf firstPane) in
  ret fileList.

(** The second half begins with [delete _paneViews[SECOND_PANE]] and runs to
    the end of [_doUnsplit]. *)
Definition _doUnsplit_destroy (firstPane secondPane : PaneRef)
    (fileList : list File) : M unit :=
  let* _ := modify (λ s, setPaneViews (JsObject.delete (_paneViews s) SECOND_PANE) s) in
  let* _ := triggerHandler (paneDestroyed (idOf secondPane)) in
  let* _ := triggerHandler (paneViewListAddList fileList (idOf firstPane)) in
  let* _ := modify (setOrientation None) in
  let* _ := _updateLayout in
  let* _ := _updateCommandState in
  triggerHandler (paneLayoutChange None).

(** ** Reasoning about calls *)

(** A call that keeps the invariant, whether it answers or throws. *)
Definition keeps {A} (m : M A) : Prop := ∀ s, Inv s → Inv (m s).2.

(** [post m Q s]: running [m] from [s] ends in an outcome and a state that
    satisfy [Q]. *)
Definition post {A} (m : M A) (Q : Outcome A → State → Prop) (s : State)
  : Prop :=
  Q (m s).1 (m s).2.

Lemma post_ret {A} (a : A) Q s : Q (Ok a) s → post (ret a) Q s.
Proof. done. Qed.

Lemma post_throw {A} (Q : Outcome A → State → Prop) s :
  Q TypeError s → post throw Q s.
Proof. done. Qed.

Lemma post_gets {A} (f : State → A) Q s : Q (Ok (f s)) s → post (gets f) Q s.
Proof. done. Qed.

Lemma post_modify f Q s : Q (Ok tt) (f s) → post (modify f) Q s.
Proof. done. Qed.

Lemma post_trigger e Q s : Q (Ok tt) (addEvent e s) → post (triggerHandler e) Q s.
Proof. done. Qed.

Lemma post_bind {A B} (m : M A) (k : A → M B) Q s :
  post m (λ o s', match o with
                  | Ok a => post (k a) Q s'
                  | TypeError => Q TypeError s'
                  end) s →
  post (bind m k) Q s.
Proof.
  unfold post, bind. destruct (m s) as [[a|] s']; simpl; done.
Qed.

Lemma post_mono {A} (m : M A) (Q Q' : Outcome A → State → Prop) s :
  post m Q s → (∀ o s', Q o s' → Q' o s') → post m Q' s.
Proof. unfold post. auto. Qed.

Lemma post_callMethod {A} key p0 (method : Pane.t → Pane.t * A) Q s :
  match JsObject.getOwn (_paneViews s) key with
  | Some p =>
      Q (Ok (method p).2)
        (setPaneViews (JsObject.set (_paneViews s) key (method p).1) s)
  | None => Q TypeError s
  end →
  post (callMethod (IsPane key p0) method) Q s.
Proof.
  unfold post, callMethod.
  destruct (JsObject.getOwn (_paneViews s) key) as [p|]; [|done].
  destruct (method p); done.
Qed.

(** ** Lists of files: facts *)

Lemma fullPath_inj (f g : File) : fullPath f = fullPath g → f = g.
Proof. destruct f, g; simpl; congruence. Qed.

Lemma indexOfPath_None l path :
  indexOfPath l path = None ↔ ∀ f, f ∈ l → fullPath f ≠ path.
Proof.
  induction l as [|g l IH]; simpl.
  - split; [intros _ f Hf; by apply elem_of_nil in Hf | done].
  - destruct (decide (fullPath g = path)) as [Heq|Hne].
    + split; [done|]. intros H. destruct (H g); [left | done].
    + destruct (indexOfPath l path) as [i|] eqn:Hi; simpl.
      * split; [done|]. intros H. exfalso.
        assert (Some i = None) as Habs; [|done].
        apply IH. intros f Hf. apply H. by right.
      * split; [|done]. intros _ f Hf.
        apply elem_of_cons in Hf as [->|Hf]; [done|].
        by apply IH.
Qed.

Lemma indexOfPath_Some l path i :
  indexOfPath l path = Some i → l !! i = Some (mkFile path).
Proof.
  revert i. induction l as [|g l IH]; intros i; simpl; [done|].
  destruct (decide (fullPath g = path)) as [Heq|Hne].
  - intros [= <-]. simpl. f_equal. by apply fullPath_inj.
  - destruct (indexOfPath l path) as [j|]; simpl; [|done].
    intros [= <-]. simpl. by apply IH.
Qed.

Lemma hasPath_elem l f : hasPath l (fullPath f) = true ↔ f ∈ l.
Proof.
  unfold hasPath. destruct (indexOfPath l (fullPath f)) as [i|] eqn:Hi.
  - split; [|done]. intros _. apply indexOfPath_Some in Hi.
    destruct f. by eapply list_elem_of_lookup_2.
  - split; [done|]. intros Hf.
    pose proof (proj1 (indexOfPath_None _ _) Hi f Hf). done.
Qed.

Lemma hasPath_false l f : hasPath l (fullPath f) = false ↔ f ∉ l.
Proof.
  rewrite <- hasPath_elem. destruct (hasPath l (fullPath f)); naive_solver.
Qed.


Lemma jsIndex_found o : (0 <=? jsIndex o)%Z = bool_decide (is_Some o).
Proof.
  destruct o as [i|]; unfold jsIndex.
  - transitivity true; [apply Z.leb_le; lia|].
    symmetry. apply bool_decide_eq_true_2. by eexists.
  - symmetry. apply bool_decide_eq_false_2. by intros [? ?].
Qed.

Lemma elem_of_removePath path l g :
  g ∈ removePath path l ↔ g ∈ l ∧ fullPath g ≠ path.
Proof. unfold removePath. rewrite list_elem_of_filter. naive_solver. Qed.

Lemma NoDup_removePath path l : NoDup l → NoDup (removePath path l).
Proof. apply NoDup_filter. Qed.

Lemma elem_of_removePaths l from g :
  g ∈ Pane.removePaths l from ↔ g ∈ from ∧ g ∉ l.
Proof.
  unfold Pane.removePaths. rewrite list_elem_of_filter, hasPath_false.
  naive_solver.
Qed.

Lemma elem_of_insertAt index f l g :
  g ∈ (insertAt index f l).1 ↔ g = f ∨ g ∈ l.
Proof.
  unfold insertAt. destruct index as [i|]; [destruct (_ && _)|]; simpl.
  - rewrite elem_of_app, elem_of_cons.
    rewrite <- (take_drop (Z.to_nat i) l) at 3. rewrite elem_of_app.
    naive_solver.
  - rewrite elem_of_app, list_elem_of_singleton. naive_solver.
  - rewrite elem_of_app, list_elem_of_singleton. naive_solver.
Qed.

Lemma NoDup_insertAt index f l :
  NoDup l → f ∉ l → NoDup (insertAt index f l).1.
Proof.
  intros Hnd Hf.
  assert (NoDup (l ++ [f])) as Hend.
  { apply NoDup_app. split_and!; [done| |apply NoDup_singleton].
    intros x Hx ->%list_elem_of_singleton. done. }
  unfold insertAt. destruct index as [i|]; [destruct (_ && _)|]; simpl; try done.
  rewrite <- (take_drop (Z.to_nat i) l) in Hnd, Hf.
  apply NoDup_app in Hnd as (H1 & H2 & H3).
  rewrite elem_of_app in Hf.
  apply NoDup_app. split_and!; [done| |].
  - intros x Hx [->|Hx']%elem_of_cons; [naive_solver|]. by eapply H2.
  - apply NoDup_cons. naive_solver.
Qed.

Lemma insertBy_Permutation compareFn x l : insertBy compareFn x l ≡ₚ x :: l.
Proof.
  induction l as [|y l IH]; simpl; [done|].
  destruct (compareFn x y <=? 0)%Z; [done|].
  rewrite IH. apply Permutation_swap.
Qed.

Lemma sortBy_Permutation compareFn l : sortBy compareFn l ≡ₚ l.
Proof.
  induction l as [|x l IH]; simpl; [done|].
  rewrite insertBy_Permutation. by rewrite IH.
Qed.

Lemma elem_of_swapIndexes (i j : nat) (l : list File) (f : File) : f ∈ swapIndexes i j l ↔ f ∈ l.
Proof.
  unfold swapIndexes.
  destruct (l !! i) as [a|] eqn:Ha; [|done].
  destruct (l !! j) as [b|] eqn:Hb; [|done].
  pose proof (lookup_lt_Some _ _ _ Ha) as Hi.
  pose proof (lookup_lt_Some _ _ _ Hb) as Hj.
  rewrite !list_elem_of_lookup. split.
  - intros [n Hn].
    apply list_lookup_insert_Some in Hn as [(? & ? & _)|[Hne Hn]];
      [subst; by eexists|].
    apply list_lookup_insert_Some in Hn as [(? & ? & _)|[Hne' Hn]];
      subst; by eexists.
  - intros [n Hn].
    destruct (decide (n = i)) as [->|Hni].
    + exists j. rewrite list_lookup_insert_eq; [congruence|].
      by rewrite length_insert.
    + destruct (decide (n = j)) as [->|Hnj].
      * exists i. rewrite list_lookup_insert_ne by done.
        rewrite list_lookup_insert_eq by done. congruence.
      * exists n. rewrite !list_lookup_insert_ne by done. done.
Qed.

Lemma lookup_swapIndexes (i j : nat) (l : list File) (a b : File) (n : nat) :
  l !! i = Some a → l !! j = Some b →
  <[j:=a]> (<[i:=b]> l) !! n =
    if decide (n = j) then Some a
    else if decide (n = i) then Some b else l !! n.
Proof.
  intros Ha Hb.
  pose proof (lookup_lt_Some _ _ _ Ha) as Hi.
  pose proof (lookup_lt_Some _ _ _ Hb) as Hj.
  destruct (decide (n = j)) as [->|Hnj].
  - rewrite list_lookup_insert_eq; [done|]. by rewrite length_insert.
  - rewrite list_lookup_insert_ne by done.
    destruct (decide (n = i)) as [->|Hni].
    + by rewrite list_lookup_insert_eq.
    + by rewrite list_lookup_insert_ne.
Qed.

Lemma NoDup_swapIndexes i j l : NoDup l → NoDup (swapIndexes i j l).
Proof.
  intros Hnd. unfold swapIndexes.
  destruct (l !! i) as [a|] eqn:Ha; [|done].
  destruct (l !! j) as [b|] eqn:Hb; [|done].
  apply NoDup_alt. intros n m x.
  rewrite !(lookup_swapIndexes i j l a b) by done.
  repeat case_decide; subst; intros Hn Hm; simplify_eq; try done;
    try (exfalso;
         match goal with
         | H : ?u ≠ ?v |- _ =>
             apply H; eapply (NoDup_lookup l); eassumption
         end).
  by eapply NoDup_lookup.
Qed.

(** ** The registry object: facts *)

Lemma getOwn_set {A} (o : JsObject.t A) k a k' :
  JsObject.getOwn (JsObject.set o k a) k' =
    if decide (k = k') then Some a else JsObject.getOwn o k'.
Proof.
  induction o as [|[k0 a0] o IH]; simpl.
  - by repeat case_decide.
  - repeat (case_decide; simpl; subst); try done; try congruence;
      rewrite IH; by case_decide.
Qed.

Lemma hasOwnProperty_set {A} (o : JsObject.t A) k a k' :
  JsObject.hasOwnProperty o k = true →
  JsObject.hasOwnProperty (JsObject.set o k a) k' = JsObject.hasOwnProperty o k'.
Proof.
  unfold JsObject.hasOwnProperty. rewrite getOwn_set.
  case_decide; subst; [|done].
  by destruct (JsObject.getOwn o k').
Qed.

Lemma getOwn_elem {A} (o : JsObject.t A) k a :
  JsObject.getOwn o k = Some a → (k, a) ∈ o.
Proof.
  induction o as [|[k0 a0] o IH]; simpl; [done|].
  case_decide; subst.
  - intros [= ->]. left.
  - intros Hget. right. auto.
Qed.

Lemma get_Own {A} (o : JsObject.t A) k a :
  JsObject.get o k = Own a ↔ JsObject.getOwn o k = Some a.
Proof.
  unfold JsObject.get. destruct (JsObject.getOwn o k); [naive_solver|].
  case_bool_decide; naive_solver.
Qed.

(** ** Panes: what each method keeps *)

Lemma Evolves_refl fresh p : Evolves fresh p p.
Proof. split; auto. Qed.

Lemma Evolves_trans fresh p p' p'' :
  Evolves fresh p p' → Evolves fresh p' p'' → Evolves fresh p p''.
Proof.
  intros [H1 H2 H3] [H1' H2' H3']. split; [congruence|auto|].
  intros f Hf. destruct (H3' f Hf) as [Hf'|Hf']; auto.
Qed.

Lemma Evolves_weaken (fresh fresh' : File → Prop) p p' :
  (∀ f, fresh f → fresh' f) → Evolves fresh p p' → Evolves fresh' p p'.
Proof. intros H [H1 H2 H3]. split; [done|done|]. naive_solver. Qed.

Lemma PaneOk_new paneId element : PaneOk (Pane.new paneId element).
Proof. split; simpl; try apply NoDup_nil; done. Qed.

Lemma Evolves_setCurrentView c p : Evolves nothing p (Pane.setCurrentView c p).
Proof. split; simpl; [done| |auto]. intros [? ? ? ? ?]. by split. Qed.

Lemma Evolves_removeFromViewList f p :
  Evolves nothing p (Pane.removeFromViewList f p).1.
Proof.
  split; simpl; [done| |].
  - intros [H1 H2 H3 H4 H5]. split; simpl; try by apply NoDup_removePath.
    + intros g. rewrite !elem_of_removePath, H4. done.
    + intros g. rewrite !elem_of_removePath, H5. done.
  - intros g [Hg _]%elem_of_removePath. by left.
Qed.

Lemma removePaths_ok l p :
  PaneOk p →
  PaneOk (Pane.mk (Pane.id p) (Pane.el p)
            (Pane.removePaths l (Pane._viewList p))
            (Pane.removePaths l (Pane._viewListAddedOrder p))
            (Pane.removePaths l (Pane._viewListMRUOrder p))
            (Pane._currentView p)).
Proof.
  intros [H1 H2 H3 H4 H5]. split; simpl; try by apply NoDup_filter.
  - intros g. rewrite !elem_of_removePaths, H4. done.
  - intros g. rewrite !elem_of_removePaths, H5. done.
Qed.

Lemma Evolves_removeListFromViewList l p :
  Evolves nothing p (Pane.removeListFromViewList l p).1.
Proof.
  split; simpl; [done|apply removePaths_ok|].
  intros g [Hg _]%elem_of_removePaths. by left.
Qed.

Lemma Evolves_removeAllFromViewList p :
  Evolves nothing p (Pane.removeAllFromViewList p).1.
Proof.
  split; simpl; [done| |].
  - intros _. split; simpl; try apply NoDup_nil; done.
  - intros g Hg. by apply elem_of_nil in Hg.
Qed.

Lemma Evolves_doRemoveView f p : Evolves nothing p (Pane.doRemoveView f p).
Proof.
  split; simpl; [done| |].
  - intros Hok.
    pose proof (ev_ok _ _ _ (Evolves_removeFromViewList f p) Hok) as H.
    destruct H as [H1 H2 H3 H4 H5]. by split.
  - intros g [Hg _]%elem_of_removePath. by left.
Qed.

Lemma Evolves_doRemoveAllViews p : Evolves nothing p (Pane.doRemoveAllViews p).
Proof.
  split; simpl; [done| |].
  - intros _. split; simpl; try apply NoDup_nil; done.
  - intros g Hg. by apply elem_of_nil in Hg.
Qed.

Lemma Evolves_doRemoveViews l p : Evolves nothing p (Pane.doRemoveViews l p).1.
Proof.
  split; simpl; [done| |].
  - intros Hok. pose proof (removePaths_ok l p Hok) as [H1 H2 H3 H4 H5].
    by split.
  - intros g [Hg _]%elem_of_removePaths. by left.
Qed.

Lemma Evolves_makeViewMostRecent f p :
  Evolves nothing p (Pane.makeViewMostRecent f p).
Proof.
  unfold Pane.makeViewMostRecent.
  destruct (hasPath _ _) eqn:Hhas; [|apply Evolves_refl].
  apply hasPath_elem in Hhas.
  split; simpl; [done| |auto].
  intros [H1 H2 H3 H4 H5]. split; simpl; try done.
  - apply NoDup_cons. split; [|by apply NoDup_removePath].
    rewrite elem_of_removePath. naive_solver.
  - intros g. rewrite elem_of_cons, elem_of_removePath, <- H4.
    destruct (decide (g = f)) as [->|Hne]; [naive_solver|].
    split; [naive_solver|]. intros Hg. right. split; [done|].
    intros Heq. by apply fullPath_inj in Heq.
Qed.

Lemma Evolves_sortViewList compareFn p :
  Evolves nothing p (Pane.sortViewList compareFn p).
Proof.
  split; simpl; [done| |].
  - intros [H1 H2 H3 H4 H5]. split; simpl; try done.
    + by rewrite sortBy_Permutation.
    + intros g. by rewrite sortBy_Permutation.
    + intros g. by rewrite sortBy_Permutation.
  - intros g. rewrite sortBy_Permutation. by left.
Qed.

Lemma Evolves_swapViewListIndexes i j p :
  Evolves nothing p (Pane.swapViewListIndexes i j p).
Proof.
  split; simpl; [done| |].
  - intros [H1 H2 H3 H4 H5]. split; simpl; try done.
    + by apply NoDup_swapIndexes.
    + intros g. by rewrite elem_of_swapIndexes.
    + intros g. by rewrite elem_of_swapIndexes.
  - intros g. rewrite elem_of_swapIndexes. by left.
Qed.

Lemma Evolves_addToViewList f index p :
  f ∉ Pane._viewList p →
  Evolves (λ g, g = f) p (Pane.addToViewList f index p).1.
Proof.
  intros Hf. unfold Pane.addToViewList.
  pose proof (elem_of_insertAt index f (Pane._viewList p)) as Hin.
  pose proof (NoDup_insertAt index f (Pane._viewList p)) as Hnd.
  destruct (insertAt index f (Pane._viewList p)) as [vl i]; simpl in *.
  split; simpl; [done| |].
  - intros [H1 H2 H3 H4 H5]. split; simpl.
    + auto.
    + apply NoDup_app. split_and!; [done| |apply NoDup_singleton].
      intros g Hg ->%list_elem_of_singleton. by apply H4 in Hg.
    + apply NoDup_app. split_and!; [done| |apply NoDup_singleton].
      intros g Hg ->%list_elem_of_singleton. by apply H5 in Hg.
    + intros g. rewrite Hin, elem_of_app, list_elem_of_singleton, H4.
      naive_solver.
    + intros g. rewrite Hin, elem_of_app, list_elem_of_singleton, H5.
      naive_solver.
  - intros g Hg. apply Hin in Hg. naive_solver.
Qed.

Lemma reorderItem_not_found f index force p :
  f ∉ Pane._viewList p →
  Pane.reorderItem f index force p = (p, Pane.ITEM_NOT_FOUND).
Proof.
  intros Hf%hasPath_false. unfold Pane.reorderItem, hasPath in *.
  by destruct (indexOfPath _ _).
Qed.

Lemma Evolves_reorderItem f index force p :
  Evolves nothing p (Pane.reorderItem f index force p).1.
Proof.
  unfold Pane.reorderItem.
  destruct (indexOfPath _ _) as [cur|] eqn:Hcur; [|apply Evolves_refl].
  assert (f ∈ Pane._viewList p) as Hf.
  { apply hasPath_elem. unfold hasPath. by rewrite Hcur. }
  destruct index as [i|]; [|apply Evolves_refl].
  destruct (_ && _); [|apply Evolves_refl].
  assert (∀ g, g ∈ (insertAt (Some i) f
                      (removePath (fullPath f) (Pane._viewList p))).1
               ↔ g ∈ Pane._viewList p) as Hsame.
  { intros g. rewrite elem_of_insertAt, elem_of_removePath.
    destruct (decide (g = f)) as [->|Hne]; [naive_solver|].
    split; [naive_solver|]. intros Hg. right. split; [done|].
    intros Heq. by apply fullPath_inj in Heq. }
  split; simpl; [done| |].
  - intros [H1 H2 H3 H4 H5]. split; simpl; try done.
    + apply NoDup_insertAt; [by apply NoDup_removePath|].
      rewrite elem_of_removePath. naive_solver.
    + intros g. by rewrite Hsame.
    + intros g. by rewrite Hsame.
  - intros g Hg. left. by apply Hsame.
Qed.

Lemma Evolves_addListToViewList canOpen openElsewhere fileList p :
  Evolves (λ g, openElsewhere (fullPath g) = false) p
    (Pane.addListToViewList canOpen openElsewhere fileList p).1.
Proof.
  revert p. induction fileList as [|f rest IH]; intros p; simpl.
  - apply Evolves_refl.
  - destruct (_ && _) eqn:Hadmit; [|apply IH].
    apply andb_true_iff in Hadmit as [[_ Helse]%andb_true_iff Hown].
    apply negb_true_iff in Helse, Hown. apply hasPath_false in Hown.
    pose proof (Evolves_addToViewList f None p Hown) as Hadd.
    specialize (IH (Pane.addToViewList f None p).1).
    destruct (Pane.addListToViewList _ _ rest _) as [p' added].
    eapply Evolves_trans; [|exact IH].
    eapply Evolves_weaken; [|exact Hadd].
    by intros g ->.
Qed.

Lemma addListToViewList_admits canOpen openElsewhere fileList p g :
  g ∈ (Pane.addListToViewList canOpen openElsewhere fileList p).2 →
  g ∈ fileList ∧ canOpen (fullPath g) = true ∧
  openElsewhere (fullPath g) = false ∧ g ∉ Pane._viewList p.
Proof.
  revert p. induction fileList as [|f rest IH]; intros p; simpl.
  - intros H. by apply elem_of_nil in H.
  - destruct (_ && _) eqn:Hadmit.
    + apply andb_true_iff in Hadmit as [[Hcan Helse]%andb_true_iff Hown].
      apply negb_true_iff in Helse, Hown. apply hasPath_false in Hown.
      pose proof (Evolves_addToViewList f None p Hown) as Hadd.
      specialize (IH (Pane.addToViewList f None p).1).
      destruct (Pane.addListToViewList _ _ rest _) as [p' added].
      intros [->|Hg]%elem_of_cons.
      * split_and!; [left|done|done|done].
      * destruct (IH Hg) as (H1 & H2 & H3 & H4). split_and!; try done;
          [by right|].
        intros Hin. apply H4.
        unfold Pane.addToViewList, insertAt. simpl.
        rewrite elem_of_app. by left.
    + intros Hg. destruct (IH p Hg) as (H1 & H2 & H3 & H4).
      split_and!; try done. by right.
Qed.

(** ** States: what each change keeps *)

Lemma set_same {A} (o : JsObject.t A) k a :
  JsObject.getOwn o k = Some a → JsObject.set o k a = o.
Proof.
  induction o as [|[k0 a0] o IH]; simpl; [done|].
  case_decide; subst.
  - by intros [= ->].
  - intros Hget. by rewrite IH.
Qed.

Lemma setPaneViews_same s : setPaneViews (_paneViews s) s = s.
Proof. by destruct s. Qed.

Lemma Shape_key o k p :
  Shape o → JsObject.getOwn o k = Some p →
  Pane.id p = k ∧ (k = FIRST_PANE ∨ k = SECOND_PANE).
Proof.
  intros (p1 & Hid1 & [->|(p2 & Hid2 & ->)]); simpl;
    repeat case_decide; intros [= <-]; subst; auto.
Qed.


Lemma Shape_set o k p p' :
  Shape o → JsObject.getOwn o k = Some p → Pane.id p' = Pane.id p →
  Shape (JsObject.set o k p').
Proof.
  intros (p1 & Hid1 & [->|(p2 & Hid2 & ->)]); simpl;
    repeat case_decide; intros [= <-] Hid; subst.
  - exists p'. split; [congruence|by left].
  - exists p'. split; [congruence|]. right. by exists p2.
  - exists p1. split; [done|]. right. exists p'. split; [congruence|done].
Qed.

Lemma truthy_key o k p : Shape o → JsObject.getOwn o k = Some p → truthy k = true.
Proof.
  intros Hs Hget. destruct (Shape_key _ _ _ Hs Hget) as [_ [->| ->]]; done.
Qed.

Lemma Inv_same s s' :
  _paneViews s' = _paneViews s → _activePaneId s' = _activePaneId s →
  Inv s → Inv s'.
Proof. intros Hp Ha [H1 H2 H3 H4]. split; rewrite ?Hp, ?Ha; done. Qed.

Lemma Inv_addEvent e s : Inv s → Inv (addEvent e s).
Proof. by apply Inv_same. Qed.

Lemma Inv_setOrientation o s : Inv s → Inv (setOrientation o s).
Proof. by apply Inv_same. Qed.

Lemma Inv_call (fresh : File → Prop) s key p p' :
  Inv s → JsObject.getOwn (_paneViews s) key = Some p →
  Evolves fresh p p' → (∀ f, fresh f → NotOpen s f) →
  Inv (setPaneViews (JsObject.set (_paneViews s) key p') s).
Proof.
  intros [H1 H2 H3 H4] Hget [E1 E2 E3] Hfresh.
  assert (JsObject.hasOwnProperty (_paneViews s) key = true) as Hkey.
  { unfold JsObject.hasOwnProperty. by rewrite Hget. }
  split; simpl.
  - by eapply Shape_set.
  - by rewrite hasOwnProperty_set.
  - intros k q. rewrite getOwn_set. case_decide; subst.
    + intros [= <-]. eauto.
    + eauto.
  - intros k1 q1 k2 q2 f. rewrite !getOwn_set.
    repeat case_decide; subst; try done.
    + intros [= <-] Hq2 Hf1 Hf2.
      destruct (E3 f Hf1) as [Hf|Hf]; [by eapply H4|].
      by destruct (Hfresh f Hf k2 q2).
    + intros Hq1 [= <-] Hf1 Hf2.
      destruct (E3 f Hf2) as [Hf|Hf]; [by eapply H4|].
      by destruct (Hfresh f Hf k1 q1).
    + eauto.
Qed.

Lemma Inv_call_nothing s key p p' :
  Inv s → JsObject.getOwn (_paneViews s) key = Some p →
  Evolves nothing p p' →
  Inv (setPaneViews (JsObject.set (_paneViews s) key p') s).
Proof. intros. by eapply (Inv_call nothing). Qed.

Lemma Inv_initialState : Inv initialState.
Proof.
  split.
  - exists (Pane.new FIRST_PANE 0). split; [done|by left].
  - done.
  - intros k p. cbn. case_decide; [|done]. intros [= <-]. apply PaneOk_new.
  - intros k1 p1 k2 p2 f. cbn. repeat case_decide; try done. congruence.
Qed.

(** ** Calls: what they answer and leave *)

Lemma getPaneFromPaneId_eq paneId s :
  _getPaneFromPaneId paneId s = (Ok (refAt s (resolvePaneId s paneId)), s).
Proof.
  unfold _getPaneFromPaneId, bind, gets, ret, getActivePaneId, refAt,
    resolvePaneId.
  destruct (_ || _); simpl; by destruct (JsObject.get _ _).
Qed.

Lemma resolvePaneId_active s : resolvePaneId s (_activePaneId s) = _activePaneId s.
Proof. unfold resolvePaneId. by destruct (_ || _). Qed.

Lemma getActivePane_eq s :
  _getActivePane s = (Ok (refAt s (_activePaneId s)), s).
Proof.
  unfold _getActivePane, bind, gets. simpl.
  by rewrite getPaneFromPaneId_eq, resolvePaneId_active.
Qed.

Lemma RefOk_refAt s key : RefOk s (refAt s key).
Proof.
  unfold refAt. destruct (JsObject.get _ _) eqn:Hget; simpl; [|done|done].
  by apply get_Own.
Qed.

Lemma refAt_known s key :
  JsObject.hasOwnProperty (_paneViews s) key = true →
  ∃ p, refAt s key = IsPane key p ∧ JsObject.getOwn (_paneViews s) key = Some p.
Proof.
  unfold JsObject.hasOwnProperty, refAt, JsObject.get.
  destruct (JsObject.getOwn _ _) as [p|]; [|done]. eauto.
Qed.

Lemma getPaneFromPaneId_run paneId s :
  ∃ pane, _getPaneFromPaneId paneId s = (Ok pane, s) ∧ RefOk s pane.
Proof.
  rewrite getPaneFromPaneId_eq. eexists. split; [done|]. apply RefOk_refAt.
Qed.

Lemma post_getPane paneId Q s :
  (∀ pane, RefOk s pane → Q (Ok pane) s) →
  post (_getPaneFromPaneId paneId) Q s.
Proof.
  intros H. unfold post.
  destruct (getPaneFromPaneId_run paneId s) as (pane & -> & Hok). by apply H.
Qed.

Lemma getPaneIdForPath_run path s :
  getPaneIdForPath path s = (Ok (paneIdForPath s path), s).
Proof.
  unfold getPaneIdForPath, findInPaneViewList, _doFindInViewList, paneIdForPath.
  rewrite decide_True by done.
  unfold bind, gets, ret.
  by destruct (findInAllPanes _ _ _).
Qed.

Lemma post_getPaneIdForPath path Q s :
  Q (Ok (paneIdForPath s path)) s → post (getPaneIdForPath path) Q s.
Proof. unfold post. by rewrite getPaneIdForPath_run. Qed.

Lemma post_readMethod {A} key p0 (method : Pane.t → A) Q s :
  match JsObject.getOwn (_paneViews s) key with
  | Some p => Q (Ok (method p)) s
  | None => Q TypeError s
  end →
  post (readMethod (IsPane key p0) method) Q s.
Proof.
  intros H. apply post_callMethod.
  destruct (JsObject.getOwn _ _) as [p|] eqn:Hget; [|done]. simpl.
  by rewrite set_same, setPaneViews_same.
Qed.

Ltac post_step :=
  lazymatch goal with
  | |- post (bind _ _) _ _ => apply post_bind
  | |- post (ret _) _ _ => apply post_ret
  | |- post throw _ _ => apply post_throw
  | |- post (gets _) _ _ => apply post_gets
  | |- post (modify _) _ _ => apply post_modify
  | |- post (triggerHandler _) _ _ => apply post_trigger
  | |- post (_getPaneFromPaneId _) _ _ => apply post_getPane; intros ? ?
  | |- post (getPaneIdForPath _) _ _ => apply post_getPaneIdForPath
  end; cbv beta iota.

Ltac post_steps := repeat post_step.

Lemma post_getActivePane Q s :
  Q (Ok (refAt s (_activePaneId s))) s → post _getActivePane Q s.
Proof. unfold post. by rewrite getActivePane_eq. Qed.

Lemma post_forceFocus Q s :
  (∀ o, (JsObject.hasOwnProperty (_paneViews s) (_activePaneId s) = true →
         o = Ok tt) → Q o s) →
  post forceFocusToActivePaneView Q s.
Proof.
  intros H. unfold forceFocusToActivePaneView. post_step.
  apply post_getActivePane.
  destruct (JsObject.hasOwnProperty (_paneViews s) (_activePaneId s)) eqn:Hk.
  - destruct (refAt_known _ _ Hk) as (p & -> & Hget).
    apply post_callMethod. rewrite Hget. simpl.
    rewrite set_same, setPaneViews_same by done. by apply H.
  - unfold post. destruct (voidMethod _ _ s) as [o s'] eqn:Hrun. simpl.
    assert (s' = s) as ->.
    { unfold voidMethod, callMethod, refAt, JsObject.get, throw,
        JsObject.hasOwnProperty in *.
      destruct (JsObject.getOwn _ _); [done|].
      case_bool_decide; by injection Hrun. }
    by apply H.
Qed.

Lemma post_setActivePaneId newPaneId Q s :
  (∀ o s',
     _paneViews s' = _paneViews s → _orientation s' = _orientation s →
     nextElement s' = nextElement s →
     _activePaneId s' =
       (if JsObject.hasOwnProperty (_paneViews s) newPaneId
        then newPaneId else _activePaneId s) →
     (JsObject.hasOwnProperty (_paneViews s) (_activePaneId s') = true →
      o = Ok tt) →
     Q o s') →
  post (setActivePaneId newPaneId) Q s.
Proof.
  intros H. unfold setActivePaneId. post_steps.
  destruct (JsObject.hasOwnProperty _ newPaneId) eqn:Hknown; simpl.
  - case_bool_decide as Hsame; simpl.
    + post_steps. apply post_forceFocus. intros o Ho. by apply H.
    + post_steps. apply post_getActivePane.
      destruct (refAt_known
                  (addEvent (activePaneChange newPaneId (_activePaneId s))
                     (setActive newPaneId s)) newPaneId Hknown)
        as (p & Href & Hget).
      cbn [_activePaneId addEvent setActive]. rewrite Href.
      post_steps. apply post_readMethod. rewrite Hget.
      post_steps. apply post_forceFocus. intros o Ho. by apply H.
  - simpl. post_steps. apply post_forceFocus. intros o Ho. by apply H.
Qed.

Lemma forceFocus_Inv s :
  Inv s → post forceFocusToActivePaneView (λ _ s', Inv s') s.
Proof. intros HI. apply post_forceFocus. auto. Qed.

Lemma setActivePaneId_Inv newPaneId s :
  Inv s → post (setActivePaneId newPaneId) (λ _ s', Inv s') s.
Proof.
  intros [H1 H2 H3 H4]. apply post_setActivePaneId.
  intros o s' Hp _ _ Ha _. split; rewrite ?Hp, ?Ha; try done.
  by destruct (JsObject.hasOwnProperty _ newPaneId) eqn:Hk.
Qed.

(** ** Calls that keep the invariant *)

Lemma keeps_ret {A} (a : A) : keeps (ret a).
Proof. by intros s. Qed.

Lemma keeps_throw {A} : keeps (@throw A).
Proof. by intros s. Qed.

Lemma keeps_gets {A} (f : State → A) : keeps (gets f).
Proof. by intros s. Qed.

Lemma keeps_trigger e : keeps (triggerHandler e).
Proof. intros s. apply Inv_addEvent. Qed.

Lemma keeps_bind {A B} (m : M A) (k : A → M B) :
  keeps m → (∀ a, keeps (k a)) → keeps (bind m k).
Proof.
  intros Hm Hk s HI. specialize (Hm s HI). unfold bind.
  destruct (m s) as [[a|] s']; simpl in *; [by apply Hk|done].
Qed.

Lemma keeps_getPane paneId : keeps (_getPaneFromPaneId paneId).
Proof. intros s HI. by rewrite getPaneFromPaneId_eq. Qed.

Lemma keeps_getPaneIdForPath path : keeps (getPaneIdForPath path).
Proof. intros s HI. by rewrite getPaneIdForPath_run. Qed.

Lemma keeps_callMethod {A} pane (method : Pane.t → Pane.t * A) :
  (∀ p, Evolves nothing p (method p).1) → keeps (callMethod pane method).
Proof.
  intros Hev s HI. destruct pane as [key p0| |]; [|done|done].
  apply (post_callMethod key p0 method (λ _ s', Inv s')).
  destruct (JsObject.getOwn _ _) as [p|] eqn:Hget; [|done].
  by eapply Inv_call_nothing.
Qed.

Lemma keeps_readMethod {A} pane (method : Pane.t → A) :
  keeps (readMethod pane method).
Proof. apply keeps_callMethod. intros p. apply Evolves_refl. Qed.

Lemma keeps_voidMethod pane (method : Pane.t → Pane.t) :
  (∀ p, Evolves nothing p (method p)) → keeps (voidMethod pane method).
Proof. intros H. by apply keeps_callMethod. Qed.

Lemma keeps_forceFocus : keeps forceFocusToActivePaneView.
Proof. intros s HI. by apply forceFocus_Inv. Qed.

Lemma keeps_setActivePaneId newPaneId : keeps (setActivePaneId newPaneId).
Proof. intros s HI. by apply setActivePaneId_Inv. Qed.

Lemma keeps_forEachKey ks callback :
  (∀ pane, keeps (callback pane)) → keeps (forEachKey ks callback).
Proof.
  intros H. induction ks as [|k ks IH]; simpl; [apply keeps_ret|].
  apply keeps_bind; [apply keeps_gets|]. intros slot.
  apply keeps_bind; [apply H|]. by intros _.
Qed.

Lemma keeps_forEachPane callback :
  (∀ pane, keeps (callback pane)) → keeps (forEachPane callback).
Proof.
  intros H. apply keeps_bind; [apply keeps_gets|]. intros ks.
  by apply keeps_forEachKey.
Qed.

Ltac keeps_step :=
  lazymatch goal with
  | |- keeps (bind _ _) => apply keeps_bind; [|intros ?]
  | |- keeps (ret _) => apply keeps_ret
  | |- keeps throw => apply keeps_throw
  | |- keeps (gets _) => apply keeps_gets
  | |- keeps (triggerHandler _) => apply keeps_trigger
  | |- keeps (_getPaneFromPaneId _) => apply keeps_getPane
  | |- keeps (getPaneIdForPath _) => apply keeps_getPaneIdForPath
  | |- keeps (readMethod _ _) => apply keeps_readMethod
  | |- keeps (voidMethod _ _) => apply keeps_voidMethod; intros ?
  | |- keeps (callMethod _ _) => apply keeps_callMethod; intros ?
  | |- keeps (setActivePaneId _) => apply keeps_setActivePaneId
  | |- keeps forceFocusToActivePaneView => apply keeps_forceFocus
  | |- keeps (forEachPane _) => apply keeps_forEachPane; intros ?
  | |- keeps (if ?b then _ else _) => destruct b
  | |- keeps (match ?x with _ => _ end) => destruct x
  end.

Ltac keeps_auto :=
  repeat keeps_step;
  eauto using Evolves_refl, Evolves_removeFromViewList,
    Evolves_removeListFromViewList, Evolves_removeAllFromViewList,
    Evolves_doRemoveView, Evolves_doRemoveAllViews, Evolves_doRemoveViews,
    Evolves_makeViewMostRecent, Evolves_sortViewList,
    Evolves_swapViewListIndexes, Evolves_setCurrentView, Evolves_reorderItem.

Lemma keeps__removeFromPaneViewList paneId f suppressRedraw :
  keeps (_removeFromPaneViewList paneId f suppressRedraw).
Proof. unfold _removeFromPaneViewList. keeps_auto. Qed.

Lemma keeps_removeFromPaneViewList paneId f suppressRedraw :
  keeps (removeFromPaneViewList paneId f suppressRedraw).
Proof.
  unfold removeFromPaneViewList. keeps_auto;
    apply keeps__removeFromPaneViewList.
Qed.

Lemma keeps__removeListFromPaneViewList paneId l :
  keeps (_removeListFromPaneViewList paneId l).
Proof. unfold _removeListFromPaneViewList. keeps_auto. Qed.

Lemma keeps_removeListFromPaneViewList paneId l :
  keeps (removeListFromPaneViewList paneId l).
Proof.
  unfold removeListFromPaneViewList. keeps_auto;
    apply keeps__removeListFromPaneViewList.
Qed.

Lemma keeps__removeAllFromPaneViewList paneId :
  keeps (_removeAllFromPaneViewList paneId).
Proof. unfold _removeAllFromPaneViewList. keeps_auto. Qed.

Lemma keeps_removeAllFromPaneViewList paneId :
  keeps (removeAllFromPaneViewList paneId).
Proof.
  unfold removeAllFromPaneViewList. keeps_auto;
    apply keeps__removeAllFromPaneViewList.
Qed.

Lemma keeps_makePaneViewMostRecent paneId f :
  keeps (makePaneViewMostRecent paneId f).
Proof. unfold makePaneViewMostRecent. keeps_auto. Qed.

Lemma keeps_sortPaneViewList paneId compareFn :
  keeps (sortPaneViewList paneId compareFn).
Proof. unfold sortPaneViewList. keeps_auto. Qed.

Lemma keeps_swapPaneViewListIndexes paneId index1 index2 :
  keeps (swapPaneViewListIndexes paneId index1 index2).
Proof. unfold swapPaneViewListIndexes. keeps_auto. Qed.

Lemma keeps_doClose paneId f : keeps (doClose paneId f).
Proof. unfold doClose, findInPaneViewList, _doFindInViewList. keeps_auto. Qed.

Lemma keeps_doCloseAll paneId : keeps (doCloseAll paneId).
Proof. unfold doCloseAll. keeps_auto. Qed.

Lemma keeps_doCloseList paneId fileList : keeps (doCloseList paneId fileList).
Proof. unfold doCloseList. keeps_auto. Qed.

Lemma keeps_destroyEditorIfNotNeeded editor :
  keeps (destroyEditorIfNotNeeded editor).
Proof. unfold destroyEditorIfNotNeeded, _getPaneIdFromContainer. keeps_auto. Qed.

Lemma keeps__activeEditorChange current : keeps (_activeEditorChange current).
Proof. unfold _activeEditorChange, _getPaneIdFromContainer. keeps_auto. Qed.

(** ** Looking a path up in all panes *)

Lemma findInAllPanes_spec panes path :
  match findInAllPanes findInViewList panes path with
  | FindInfo k i =>
      ∃ p, p ∈ panes ∧ Pane.id p = k ∧
           hasPath (Pane._viewList p) path = true ∧
           i = Pane.findInViewList p path
  | FindIndex i =>
      i = (-1)%Z ∧ ∀ p, p ∈ panes → hasPath (Pane._viewList p) path = false
  | FindUndefined => False
  end.
Proof.
  induction panes as [|p panes IH]; simpl.
  - split; [done|]. intros p Hp. by apply elem_of_nil in Hp.
  - unfold Pane.findInViewList at 1. rewrite jsIndex_found.
    case_bool_decide as Hfound.
    + exists p. split_and!; [left|done| |done].
      unfold hasPath. by destruct Hfound as [i ->].
    + destruct (findInAllPanes _ panes path) as [i|k i|]; [|  |done].
      * destruct IH as [-> IH]. split; [done|].
        intros q [->|Hq]%elem_of_cons; [|by apply IH].
        unfold hasPath. destruct (indexOfPath _ _); [|done].
        destruct Hfound. by eexists.
      * destruct IH as (q & Hq & IH). exists q. split; [by right|done].
Qed.

Lemma getOwn_values {A} (o : JsObject.t A) k a :
  JsObject.getOwn o k = Some a → a ∈ JsObject.values o.
Proof.
  intros H%getOwn_elem. unfold JsObject.values.
  apply list_elem_of_fmap. by exists (k, a).
Qed.

Lemma Shape_values o p :
  Shape o → p ∈ JsObject.values o → JsObject.getOwn o (Pane.id p) = Some p.
Proof.
  intros (p1 & Hid1 & [->|(p2 & Hid2 & ->)]); cbn.
  - intros Hp%list_elem_of_singleton. subst p.
    rewrite Hid1. by rewrite decide_True.
  - intros [Hp|Hp%list_elem_of_singleton]%elem_of_cons; subst p.
    + rewrite Hid1. by rewrite decide_True.
    + rewrite Hid2. by rewrite decide_False, decide_True.
Qed.

Lemma not_open s f :
  Shape (_paneViews s) →
  isOpenAt (paneIdForPath s (fullPath f)) = false → NotOpen s f.
Proof.
  intros Hshape. unfold paneIdForPath.
  pose proof (findInAllPanes_spec (JsObject.values (_paneViews s)) (fullPath f))
    as Hspec.
  destruct (findInAllPanes _ _ _) as [i|k i|]; [| |done]; simpl.
  - intros _ k q Hq. destruct Hspec as [_ Hspec].
    apply hasPath_false, Hspec. by eapply getOwn_values.
  - destruct Hspec as (p & Hp & <- & _).
    apply (Shape_values _ _ Hshape) in Hp.
    by rewrite (truthy_key _ _ _ Hshape Hp).
Qed.

Lemma is_open s f k :
  Shape (_paneViews s) →
  paneIdForPath s (fullPath f) = Some k →
  truthy k = true ∧
  ∃ p, JsObject.getOwn (_paneViews s) k = Some p ∧ f ∈ Pane._viewList p.
Proof.
  intros Hshape. unfold paneIdForPath.
  pose proof (findInAllPanes_spec (JsObject.values (_paneViews s)) (fullPath f))
    as Hspec.
  destruct (findInAllPanes _ _ _) as [i|k' i|]; [done| |done].
  intros [= ->]. destruct Hspec as (p & Hp & <- & Hhas & _).
  apply (Shape_values _ _ Hshape) in Hp.
  split; [by eapply truthy_key|].
  exists p. split; [done|]. by apply hasPath_elem.
Qed.

Lemma open_at s f k p :
  Inv s → JsObject.getOwn (_paneViews s) k = Some p → f ∈ Pane._viewList p →
  paneIdForPath s (fullPath f) = Some k.
Proof.
  intros HI Hget Hf.
  destruct (paneIdForPath s (fullPath f)) as [k'|] eqn:Hfound.
  - destruct (is_open s f k' (inv_shape _ HI) Hfound) as (_ & q & Hq & Hfq).
    f_equal. by eapply (inv_disjoint _ HI).
  - assert (NotOpen s f) as Hno.
    { apply not_open; [apply HI|]. by rewrite Hfound. }
    by destruct (Hno k p Hget).
Qed.

(** ** Adding files keeps the invariant *)

Lemma addToPaneViewList_Inv canOpenFile paneId f index force :
  keeps (addToPaneViewList canOpenFile paneId f index force).
Proof.
  intros s HI.
  change (post (addToPaneViewList canOpenFile paneId f index force)
            (λ _ s', Inv s') s).
  unfold addToPaneViewList. post_steps.
  destruct (_ || _) eqn:Hguard; [by post_step|].
  apply orb_false_iff in Hguard as [[Hnull Hcan]%orb_false_iff Hopen].
  apply not_open in Hopen; [|apply HI].
  destruct pane as [key p| |]; [|post_step; by apply post_throw|done].
  simpl in H. post_step. apply post_callMethod. rewrite H.
  rewrite reorderItem_not_found by by eapply Hopen.
  cbn [fst snd]. rewrite set_same, setPaneViews_same by done.
  post_step. apply post_callMethod. rewrite H.
  post_step. apply Inv_addEvent.
  eapply Inv_call; [done|done| |].
  - apply Evolves_addToViewList. by eapply Hopen.
  - by intros g ->.
Qed.

Lemma addListToPaneViewList_Inv canOpenFile paneId fileList :
  keeps (addListToPaneViewList canOpenFile paneId fileList).
Proof.
  intros s HI.
  change (post (addListToPaneViewList canOpenFile paneId fileList)
            (λ _ s', Inv s') s).
  unfold addListToPaneViewList. post_steps.
  destruct pane as [key p| |]; cbn [isNull];
    [|post_steps; by apply post_throw|by post_steps].
  post_steps. apply post_callMethod. simpl in H. rewrite H.
  post_step. apply Inv_addEvent.
  eapply Inv_call; [done|done|apply Evolves_addListToViewList|].
  intros g Hg. apply not_open; [apply HI|done].
Qed.

Lemma keeps_doOpenDocument doc pane : keeps (doOpenDocument doc pane).
Proof. unfold doOpenDocument. keeps_auto. Qed.

Lemma keeps_doEdit canOpenFile isWithinProject paneId doc :
  keeps (doEdit canOpenFile isWithinProject paneId doc).
Proof.
  unfold doEdit. keeps_auto;
    try apply addToPaneViewList_Inv; try apply keeps_doOpenDocument;
    apply keeps_makePaneViewMostRecent.
Qed.

Lemma keeps_doOpen canOpenFile isWithinProject paneId f openDoc load :
  keeps (doOpen canOpenFile isWithinProject paneId f openDoc load).
Proof. unfold doOpen. keeps_auto; apply keeps_doEdit. Qed.

(** ** Splitting and unsplitting *)

Lemma PaneOk_mergeWith p1 p2 :
  PaneOk p1 → PaneOk p2 →
  (∀ f, f ∈ Pane._viewList p1 → f ∉ Pane._viewList p2) →
  PaneOk (Pane.mergeWith p2 p1).
Proof.
  intros [A1 A2 A3 A4 A5] [B1 B2 B3 B4 B5] Hdis. split; simpl.
  - apply NoDup_app. auto.
  - apply NoDup_app. split_and!; [done| |done].
    intros f Hf. rewrite B4. apply Hdis. by apply A4.
  - apply NoDup_app. split_and!; [done| |done].
    intros f Hf. rewrite B5. apply Hdis. by apply A5.
  - intros f. rewrite !elem_of_app, A4, B4. done.
  - intros f. rewrite !elem_of_app, A5, B5. done.
Qed.

Lemma post_createPaneIfNecessary_known paneId Q s :
  JsObject.hasOwnProperty (_paneViews s) paneId = true →
  Q (Ok tt) s → post (_createPaneIfNecessary paneId) Q s.
Proof.
  intros Hk HQ. unfold _createPaneIfNecessary. post_steps. rewrite Hk.
  by post_step.
Qed.

Lemma post_createPaneIfNecessary_new paneId Q s :
  JsObject.hasOwnProperty (_paneViews s) paneId = false →
  Q (Ok tt)
    (addEvent (paneCreated paneId)
       (setPaneViews
          (JsObject.set (_paneViews s) paneId (Pane.new paneId (nextElement s)))
          (setNextElement (S (nextElement s)) s))) →
  post (_createPaneIfNecessary paneId) Q s.
Proof.
  intros Hk HQ. unfold _createPaneIfNecessary. post_steps. rewrite Hk.
  by post_steps.
Qed.

Lemma keeps_createSecondPane : keeps (_createPaneIfNecessary SECOND_PANE).
Proof.
  intros s HI.
  change (post (_createPaneIfNecessary SECOND_PANE) (λ _ s', Inv s') s).
  destruct (JsObject.hasOwnProperty (_paneViews s) SECOND_PANE) eqn:Hk.
  - by apply post_createPaneIfNecessary_known.
  - apply post_createPaneIfNecessary_new; [done|].
    destruct HI as [H1 H2 H3 H4].
    destruct H1 as (p1 & Hid1 & [Hreg|(p2 & Hid2 & Hreg)]);
      [|by rewrite Hreg in Hk].
    apply Inv_addEvent. split; cbn [_paneViews setPaneViews setNextElement
                                      _activePaneId].
    + rewrite Hreg. exists p1. split; [done|]. right.
      by exists (Pane.new SECOND_PANE (nextElement s)).
    + unfold JsObject.hasOwnProperty in *. rewrite getOwn_set.
      case_decide; [done|]. done.
    + intros k p. rewrite getOwn_set. case_decide; [|by apply H3].
      intros [= <-]. apply PaneOk_new.
    + intros k1 q1 k2 q2 f. rewrite !getOwn_set.
      repeat case_decide; subst; try done.
      * intros [= <-] _ Hf. by apply elem_of_nil in Hf.
      * intros _ [= <-] _ Hf. by apply elem_of_nil in Hf.
      * apply H4.
Qed.

Lemma keeps__doSplit orientation : keeps (_doSplit orientation).
Proof.
  unfold _doSplit, _updateLayout, _updateCommandState.
  apply keeps_bind; [apply keeps_createSecondPane|]. intros _.
  apply keeps_bind; [intros s; apply Inv_setOrientation|]. intros _.
  keeps_auto.
Qed.

Lemma doUnsplit_unsplit s :
  JsObject.hasOwnProperty (_paneViews s) SECOND_PANE = false →
  _doUnsplit s = (Ok tt, s).
Proof. intros Hk. unfold _doUnsplit, bind, gets. by rewrite Hk. Qed.

Lemma delete_second (a b : Pane.t) :
  JsObject.delete [(FIRST_PANE, a); (SECOND_PANE, b)] SECOND_PANE
  = [(FIRST_PANE, a)].
Proof. reflexivity. Qed.

(** Unsplitting a split registry: the call passes through a state [mid] in
    which the first pane holds the merged lists and is active while the
    second pane is still there, and ends in that state without the second
    pane. *)
Lemma post_doUnsplit_split s p1 p2 Q :
  _paneViews s = [(FIRST_PANE, p1); (SECOND_PANE, p2)] →
  Pane.id p1 = FIRST_PANE → Pane.id p2 = SECOND_PANE →
  (∀ mid s',
     _paneViews mid = [(FIRST_PANE, Pane.mergeWith p2 p1); (SECOND_PANE, p2)] →
     _activePaneId mid = FIRST_PANE →
     _paneViews s' = JsObject.delete (_paneViews mid) SECOND_PANE →
     _activePaneId s' = _activePaneId mid → _orientation s' = None →
     Q (Ok tt) s') →
  post _doUnsplit Q s.
Proof.
  intros Hreg Hid1 Hid2 HQ. unfold _doUnsplit, paneAt. post_steps.
  rewrite Hreg.
  change (JsObject.hasOwnProperty _ SECOND_PANE) with true. cbv iota.
  post_steps. rewrite Hreg.
  change (JsObject.get _ FIRST_PANE) with (Own p1). cbv iota.
  post_steps. rewrite Hreg.
  change (JsObject.get _ SECOND_PANE) with (Own p2). cbv iota.
  post_steps. apply post_readMethod. rewrite Hreg.
  change (JsObject.getOwn _ SECOND_PANE) with (Some p2). cbv iota.
  post_steps. apply post_readMethod. rewrite Hreg.
  change (JsObject.getOwn _ SECOND_PANE) with (Some p2). cbv iota.
  post_steps. apply post_callMethod. rewrite Hreg.
  change (JsObject.getOwn _ FIRST_PANE) with (Some p1). cbv iota.
  cbn [fst snd]. post_steps.
  apply post_setActivePaneId. intros o mid Hp Ho Hn Ha Hok.
  cbn [_paneViews addEvent setPaneViews idOf] in Hp, Ha, Hok.
  rewrite Hid1 in Ha.
  change (JsObject.hasOwnProperty _ FIRST_PANE) with true in Ha.
  cbv iota in Ha. rewrite Ha in Hok. rewrite (Hok eq_refl).
  post_steps. unfold _updateLayout, _updateCommandState. post_steps.
  by apply (HQ mid).
Qed.

Lemma keeps__doUnsplit : keeps _doUnsplit.
Proof.
  intros s HI.
  destruct (JsObject.hasOwnProperty (_paneViews s) SECOND_PANE) eqn:Hk;
    [|by rewrite doUnsplit_unsplit].
  destruct HI as [H1 H2 H3 H4].
  destruct H1 as (p1 & Hid1 & [Hreg|(p2 & Hid2 & Hreg)]);
    [by rewrite Hreg in Hk|].
  apply (post_doUnsplit_split s p1 p2 (λ _ s', Inv s')); try done.
  intros mid s' Hm Hma Hp Ha _.
  rewrite Hm, delete_second in Hp. rewrite Hma in Ha.
  assert (JsObject.getOwn (_paneViews s) FIRST_PANE = Some p1) as Hg1.
  { by rewrite Hreg. }
  assert (JsObject.getOwn (_paneViews s) SECOND_PANE = Some p2) as Hg2.
  { by rewrite Hreg. }
  assert (PaneOk (Pane.mergeWith p2 p1)) as Hok.
  { apply PaneOk_mergeWith; [by eapply H3|by eapply H3|].
    intros f Hf1 Hf2. by pose proof (H4 _ _ _ _ f Hg1 Hg2 Hf1 Hf2). }
  split; rewrite ?Hp, ?Ha.
  - exists (Pane.mergeWith p2 p1). split; [done|by left].
  - done.
  - intros k p. cbn. case_decide; [|done]. by intros [= <-].
  - intros k1 q1 k2 q2 f. cbn. repeat case_decide; try done. congruence.
Qed.

Lemma keeps__handleSplitVertically : keeps _handleSplitVertically.
Proof.
  unfold _handleSplitVertically. keeps_auto;
    [apply keeps__doUnsplit|apply keeps__doSplit].
Qed.

Lemma keeps__handleSplitHorizontially : keeps _handleSplitHorizontially.
Proof.
  unfold _handleSplitHorizontially. keeps_auto;
    [apply keeps__doUnsplit|apply keeps__doSplit].
Qed.

(** ** Every reachable state satisfies the invariant *)

Lemma step_Inv canOpenFile isWithinProject op s :
  Inv s → Inv (step canOpenFile isWithinProject op s).
Proof.
  destruct op; simpl.
  - apply addToPaneViewList_Inv.
  - apply addListToPaneViewList_Inv.
  - apply keeps_removeFromPaneViewList.
  - apply keeps_removeListFromPaneViewList.
  - apply keeps_removeAllFromPaneViewList.
  - apply keeps_makePaneViewMostRecent.
  - apply keeps_sortPaneViewList.
  - apply keeps_swapPaneViewListIndexes.
  - apply keeps_forceFocus.
  - apply keeps_setActivePaneId.
  - apply keeps_destroyEditorIfNotNeeded.
  - apply keeps_doEdit.
  - apply keeps_doOpen.
  - apply keeps_doClose.
  - apply keeps_doCloseAll.
  - apply keeps_doCloseList.
  - apply keeps__handleSplitVertically.
  - apply keeps__handleSplitHorizontially.
  - apply keeps__activeEditorChange.
Qed.

Lemma reachable_Inv canOpenFile isWithinProject s :
  reachable canOpenFile isWithinProject s → Inv s.
Proof.
  induction 1; [apply Inv_initialState|by apply step_Inv].
Qed.

Lemma run_reachable canOpenFile isWithinProject ops s :
  reachable canOpenFile isWithinProject s →
  reachable canOpenFile isWithinProject (run canOpenFile isWithinProject ops s).
Proof.
  revert s. induction ops as [|op ops IH]; intros s Hs; simpl; [done|].
  apply IH. by constructor.
Qed.

(** ** The two worked examples of the specification

    They are run on the embedding, as a check of the modelled pane. *)

(** View list [A, B, C] in the first pane; making [B] the most recent gives
    the MRU order [B, A, C], and going +1 from [B] answers [A]. *)
Example spec_example_most_recent :
  let A := mkFile "/A" in
  let B := mkFile "/B" in
  let C := mkFile "/C" in
  let s :=
    run (λ _, true) (λ _, true)
      [ OpAddListToPaneViewList FIRST_PANE [A; B; C];
        OpMakePaneViewMostRecent FIRST_PANE B ] initialState in
  viewListAt s FIRST_PANE = Some [A; B; C] ∧
  (Pane._viewListMRUOrder <$> JsObject.getOwn (_paneViews s) FIRST_PANE)
    = Some [B; A; C] ∧
  (traversePaneViewListByMRU FIRST_PANE 1 (showing FIRST_PANE B s)).1
    = Ok (Some A).
Proof. repeat split; vm_compute; reflexivity. Qed.

(** Splitting vertically creates the second pane; with [D] in it,
    unsplitting leaves the first pane with [A, B, C, D] and no second
    pane. *)
Example spec_example_unsplit :
  let A := mkFile "/A" in
  let B := mkFile "/B" in
  let C := mkFile "/C" in
  let D := mkFile "/D" in
  let s :=
    run (λ _, true) (λ _, true)
      [ OpAddListToPaneViewList FIRST_PANE [A; B; C];
        OpHandleSplitVertically;
        OpAddToPaneViewList SECOND_PANE D None false;
        OpHandleSplitVertically ] initialState in
  viewListAt s FIRST_PANE = Some [A; B; C; D] ∧
  JsObject.keys (_paneViews s) = [FIRST_PANE] ∧
  _orientation s = None.
Proof. repeat split; vm_compute; reflexivity. Qed.

(** * The claims *)

(** C1. Whatever calls are made from the initial state (the add and open
    calls [addToPaneViewList], [addListToPaneViewList], [doOpen] and
    [doEdit] among them, and the split commands that create the second
    pane), and for every path, at most one pane of the registry holds a file
    with that path in its view list. *)
Theorem C1_file_in_at_most_one_pane canOpenFile isWithinProject
    (ops : list Op) (path : string) :
  (length (panesHolding (run canOpenFile isWithinProject ops initialState)
             path) ≤ 1)%nat.
Proof.
  assert (reachable canOpenFile isWithinProject
            (run canOpenFile isWithinProject ops initialState)) as Hreach.
  { apply run_reachable. constructor. }
  apply reachable_Inv in Hreach.
  set (s := run canOpenFile isWithinProject ops initialState) in *.
  destruct Hreach as [Hshape _ _ Hdis]. unfold panesHolding.
  destruct Hshape as (p1 & Hid1 & [Hreg|(p2 & Hid2 & Hreg)]); rewrite Hreg in *.
  - cbn [JsObject.values fmap list_fmap snd].
    rewrite filter_cons, filter_nil. case_decide; simpl; lia.
  - cbn [JsObject.values fmap list_fmap snd].
    rewrite !filter_cons, filter_nil. repeat case_decide; simpl; try lia.
    exfalso.
    assert (FIRST_PANE = SECOND_PANE) as Habs; [|done].
    apply (Hdis FIRST_PANE p1 SECOND_PANE p2 (mkFile path)); try done.
    + by apply (hasPath_elem _ (mkFile path)).
    + by apply (hasPath_elem _ (mkFile path)).
Qed.

Lemma splitExample_reachable :
  reachable (λ _, true) (λ _, true) splitExample.
Proof. unfold splitExample. apply run_reachable. constructor. Qed.

Lemma editExample_reachable :
  reachable (λ _, true) (λ _, true) editExample.
Proof. unfold editExample. apply run_reachable. constructor. Qed.

(** C2. From every reachable state in which the second pane exists,
    [_doUnsplit] answers without throwing and leaves the first pane with
    its own view list followed by the second pane's, in order, with no file
    twice; the first pane is active and the second pane is no longer in the
    registry. *)
Theorem C2_unsplit_merges_second_into_first canOpenFile isWithinProject s p2 :
  reachable canOpenFile isWithinProject s →
  JsObject.getOwn (_paneViews s) SECOND_PANE = Some p2 →
  ∃ p1 s',
    JsObject.getOwn (_paneViews s) FIRST_PANE = Some p1 ∧
    _doUnsplit s = (Ok tt, s') ∧
    viewListAt s' FIRST_PANE = Some (Pane._viewList p1 ++ Pane._viewList p2) ∧
    NoDup (Pane._viewList p1 ++ Pane._viewList p2) ∧
    _activePaneId s' = FIRST_PANE ∧
    JsObject.keys (_paneViews s') = [FIRST_PANE].
Proof.
  intros Hreach Hsecond. apply reachable_Inv in Hreach.
  destruct Hreach as [H1 H2 H3 H4].
  destruct H1 as (p1 & Hid1 & [Hreg|(q2 & Hid2 & Hreg)]);
    [by rewrite Hreg in Hsecond|].
  assert (q2 = p2) as ->.
  { rewrite Hreg in Hsecond. change (Some q2 = Some p2) in Hsecond.
    congruence. }
  assert (JsObject.getOwn (_paneViews s) FIRST_PANE = Some p1) as Hg1.
  { by rewrite Hreg. }
  exists p1, (_doUnsplit s).2. split; [done|].
  apply (post_doUnsplit_split s p1 p2
           (λ o s', _doUnsplit s = (o, (_doUnsplit s).2) ∧
                    (_doUnsplit s).2 = s' → _ )); try done.
  - intros mid s' Hm Hma Hp Ha _ [Hrun <-].
    rewrite Hm, delete_second in Hp. rewrite Hma in Ha.
    split_and!; try done.
    + unfold viewListAt. by rewrite Hp.
    + apply NoDup_app. split_and!; [by eapply H3| |by eapply H3].
      intros f Hf1 Hf2.
      by pose proof (H4 _ _ _ _ f Hg1 Hsecond Hf1 Hf2).
    + by rewrite Hp.
  - split; [|done]. by destruct (_doUnsplit s).
Qed.

Lemma C2_unsplit_witness :
  ∃ p1 s',
    JsObject.getOwn (_paneViews splitExample) FIRST_PANE = Some p1 ∧
    _doUnsplit splitExample = (Ok tt, s') ∧
    viewListAt s' FIRST_PANE
      = Some (Pane._viewList p1 ++ Pane._viewList splitExampleSecond) ∧
    NoDup (Pane._viewList p1 ++ Pane._viewList splitExampleSecond) ∧
    _activePaneId s' = FIRST_PANE ∧
    JsObject.keys (_paneViews s') = [FIRST_PANE].
Proof.
  apply (C2_unsplit_merges_second_into_first (λ _, true) (λ _, true)
           splitExample splitExampleSecond).
  - exact splitExample_reachable.
  - reflexivity.
Defined.

(** C5. A pane id that is not in the registry, here ["second-pane"] while
    no split is active: the guarded lookups answer their sentinel (null, 0,
    undefined), but [doCloseAll], [doClose] and [doCloseList] call a method
    on the null that [_getPaneFromPaneId] answers, and throw.  And since
    [_getPaneFromPaneId] tests [_paneViews[paneId]] for truthiness, a name
    inherited from [Object.prototype] is taken for a pane, and even a
    guarded lookup throws. *)
Theorem C5_close_calls_throw_on_unknown_pane :
  JsObject.hasOwnProperty (_paneViews initialState) SECOND_PANE = false ∧
  getPaneViewList SECOND_PANE initialState = (Ok None, initialState) ∧
  getPaneViewListSize SECOND_PANE initialState = (Ok 0%Z, initialState) ∧
  findInPaneViewList SECOND_PANE "/a.js" initialState
    = (Ok FindUndefined, initialState) ∧
  getCurrentlyViewedFileForPane SECOND_PANE initialState
    = (Ok None, initialState) ∧
  traversePaneViewListByMRU SECOND_PANE 1 initialState
    = (Ok None, initialState) ∧
  doCloseAll SECOND_PANE initialState = (TypeError, initialState) ∧
  doClose SECOND_PANE (mkFile "/a.js") initialState
    = (TypeError, initialState) ∧
  doCloseList SECOND_PANE [mkFile "/a.js"] initialState
    = (TypeError, initialState) ∧
  JsObject.hasOwnProperty (_paneViews initialState) "toString" = false ∧
  getPaneViewList "toString" initialState = (TypeError, initialState).
Proof. repeat split; vm_compute; reflexivity. Qed.

(** C7. With nothing to remove, here the empty first pane of the initial
    state: [doClose] and the [remove...] calls send nothing, but
    [doCloseAll] and [doCloseList] send [paneViewListRemoveList] with an
    empty list. *)
Theorem C7_close_all_notifies_without_removal :
  viewListAt initialState FIRST_PANE = Some [] ∧
  doClose FIRST_PANE (mkFile "/a.js") initialState = (Ok tt, initialState) ∧
  removeFromPaneViewList FIRST_PANE (mkFile "/a.js") false initialState
    = (Ok tt, initialState) ∧
  removeListFromPaneViewList FIRST_PANE [mkFile "/a.js"] initialState
    = (Ok tt, initialState) ∧
  removeAllFromPaneViewList FIRST_PANE initialState = (Ok tt, initialState) ∧
  doCloseAll FIRST_PANE initialState
    = (Ok tt, addEvent (paneViewListRemoveList [] FIRST_PANE) initialState) ∧
  doCloseList FIRST_PANE [mkFile "/a.js"] initialState
    = (Ok tt, addEvent (paneViewListRemoveList [] FIRST_PANE) initialState).
Proof. repeat split; vm_compute; reflexivity. Qed.

Lemma getOwn_cons {A} (k' : string) (a : A) o k :
  JsObject.getOwn ((k', a) :: o) k
  = if decide (k' = k) then Some a else JsObject.getOwn o k.
Proof. reflexivity. Qed.

Lemma getPaneTitle_eq paneId s :
  getPaneTitle paneId s =
    (if decide (FIRST_PANE = paneId) then
       Ok (JsObject.get [("VERTICAL", LEFT); ("HORIZONTAL", TOP)]
             (orientationKey (_orientation s)))
     else if decide (SECOND_PANE = paneId) then
       Ok (JsObject.get [("VERTICAL", RIGHT); ("HORIZONTAL", BOTTOM)]
             (orientationKey (_orientation s)))
     else if bool_decide (paneId ∈ JsObject.Object_prototype) then Ok Missing
     else TypeError,
     s).
Proof.
  unfold getPaneTitle, bind, gets, ret, throw, JsObject.get at 1, _paneTitles.
  rewrite !getOwn_cons. cbn [JsObject.getOwn].
  repeat case_decide; try done; by case_bool_decide.
Qed.

(** C10, the claim as stated fails: ["toString"] is neither of the two pane
    ids, yet [getPaneTitle] does not raise for it, since
    [_paneTitles["toString"]] is the function every object inherits. *)
Lemma C10_inherited_name_counterexample :
  "toString" ≠ FIRST_PANE ∧ "toString" ≠ SECOND_PANE ∧
  getPaneTitle "toString" initialState = (Ok Missing, initialState).
Proof. repeat split; done. Qed.

(** C10, amended.  [getPaneTitle paneId] raises exactly when [paneId] is
    neither ["first-pane"], nor ["second-pane"], nor a name inherited from
    [Object.prototype]; it raises for [ALL_PANES] and [FOCUSED_PANE]; for an
    inherited name it answers [undefined]; for the two pane ids it answers
    the title of the current orientation, and [undefined] when no split is
    active.  It never changes the state. *)
Theorem C10_getPaneTitle_defined paneId s :
  ((getPaneTitle paneId s).1 = TypeError ↔
     paneId ≠ FIRST_PANE ∧ paneId ≠ SECOND_PANE ∧
     paneId ∉ JsObject.Object_prototype) ∧
  (getPaneTitle ALL_PANES s).1 = TypeError ∧
  (getPaneTitle FOCUSED_PANE s).1 = TypeError ∧
  (paneId ∈ JsObject.Object_prototype → (getPaneTitle paneId s).1 = Ok Missing) ∧
  (_orientation s = None →
     (getPaneTitle FIRST_PANE s).1 = Ok Missing ∧
     (getPaneTitle SECOND_PANE s).1 = Ok Missing) ∧
  (_orientation s = Some VERTICAL →
     (getPaneTitle FIRST_PANE s).1 = Ok (Own LEFT) ∧
     (getPaneTitle SECOND_PANE s).1 = Ok (Own RIGHT)) ∧
  (_orientation s = Some HORIZONTAL →
     (getPaneTitle FIRST_PANE s).1 = Ok (Own TOP) ∧
     (getPaneTitle SECOND_PANE s).1 = Ok (Own BOTTOM)) ∧
  (getPaneTitle paneId s).2 = s.
Proof.
  rewrite !getPaneTitle_eq. cbn [fst snd]. split_and!.
  - destruct (decide (FIRST_PANE = paneId)) as [<-|H1].
    { split; [done|]. by intros (? & _). }
    destruct (decide (SECOND_PANE = paneId)) as [<-|H2].
    { split; [done|]. by intros (_ & ? & _). }
    case_bool_decide as H3.
    { split; [done|]. by intros (_ & _ & ?). }
    split; [|done]. intros _. split_and!; [congruence|congruence|done].
  - done.
  - done.
  - intros Hin.
    destruct (decide (FIRST_PANE = paneId)) as [<-|H1].
    { assert (bool_decide (FIRST_PANE ∈ JsObject.Object_prototype) = false)
        as Hb by (vm_compute; reflexivity).
      by apply bool_decide_eq_false_1 in Hb. }
    destruct (decide (SECOND_PANE = paneId)) as [<-|H2].
    { assert (bool_decide (SECOND_PANE ∈ JsObject.Object_prototype) = false)
        as Hb by (vm_compute; reflexivity).
      by apply bool_decide_eq_false_1 in Hb. }
    by rewrite bool_decide_eq_true_2.
  - by intros ->.
  - by intros ->.
  - by intros ->.
  - done.
Qed.

(** ** Opening a file *)

Lemma post_setActivePaneId_Inv newPaneId Q s :
  Inv s →
  (∀ s',
     _paneViews s' = _paneViews s → _orientation s' = _orientation s →
     _activePaneId s' =
       (if JsObject.hasOwnProperty (_paneViews s) newPaneId
        then newPaneId else _activePaneId s) →
     Inv s' → Q (Ok tt) s') →
  post (setActivePaneId newPaneId) Q s.
Proof.
  intros HI HQ. apply post_setActivePaneId. intros o s' Hp Ho _ Ha Hok.
  assert (JsObject.hasOwnProperty (_paneViews s) (_activePaneId s') = true)
    as Hactive.
  { rewrite Ha. destruct (JsObject.hasOwnProperty _ newPaneId) eqn:Hk;
      [done|apply HI]. }
  rewrite (Hok Hactive). apply HQ; try done.
  destruct HI as [H1 H2 H3 H4]. split; rewrite ?Hp; done.
Qed.

(** The part of [doOpen] and [doEdit] that redirects the call to the pane
    in which the file is open already. *)
Lemma post_redirect (paneId : string) path Q s :
  Inv s →
  (∀ s' target,
     _paneViews s' = _paneViews s → _orientation s' = _orientation s →
     Inv s' →
     match paneIdForPath s path with
     | Some current => target = current ∧ _activePaneId s' = current
     | None => target = paneId ∧ s' = s
     end →
     Q (Ok target) s') →
  post (match paneIdForPath s path with
        | Some current =>
            if truthy current
            then let* _ := setActivePaneId current in ret current
            else ret paneId
        | None => ret paneId
        end) Q s.
Proof.
  intros HI HQ.
  destruct (paneIdForPath s path) as [current|] eqn:Hfound.
  - destruct (is_open s (mkFile path) current (inv_shape _ HI) Hfound)
      as (Htruthy & p & Hget & _).
    rewrite Htruthy. post_step.
    apply post_setActivePaneId_Inv; [done|].
    intros s' Hp Ho Ha HI'. post_step. apply HQ; try done.
    split; [done|]. rewrite Ha. unfold JsObject.hasOwnProperty.
    by rewrite Hget.
  - post_step. by apply HQ.
Qed.

Lemma bind_ret_result {A B} (m : M A) (b b' : B) s :
  ((let* _ := m in ret b) s).1 = Ok b' → b' = b.
Proof.
  unfold bind, ret. destruct (m s) as [[a|] s']; simpl; congruence.
Qed.

(** C6, the claim as stated fails: no split is active in the initial state
    (no orientation, no second pane), and [doOpen] rejects a file that
    needs a custom viewer with the not-yet-implemented diagnostic all the
    same. *)
Lemma C6_rejected_without_split_counterexample :
  _orientation initialState = None ∧
  JsObject.hasOwnProperty (_paneViews initialState) SECOND_PANE = false ∧
  (doOpen (λ _, false) (λ _, true) FIRST_PANE (Some (mkFile "/logo.png")) None
     LoadPending initialState).1
  = Ok (Rejected (Diagnostic
      "custom viewers not yet implemented with split view. check back later.")).
Proof. repeat split; vm_compute; reflexivity. Qed.

(** C6, amended.  In every reachable state, [doOpen] rejects with
    ["bad argument"] exactly when it is given no file, and rejects with the
    not-yet-implemented diagnostic exactly when the file has no open
    document and needs a custom viewer, whether a split is active or not. *)
Theorem C6_doOpen_rejections canOpenFile isWithinProject paneId f openDoc
    load s :
  reachable canOpenFile isWithinProject s →
  ((doOpen canOpenFile isWithinProject paneId f openDoc load s).1
     = Ok (Rejected (Diagnostic "bad argument")) ↔ f = None) ∧
  ((doOpen canOpenFile isWithinProject paneId f openDoc load s).1
     = Ok (Rejected (Diagnostic
         "custom viewers not yet implemented with split view. check back later."))
   ↔ ∃ file, f = Some file ∧ openDoc = None ∧
             canOpenFile (fullPath file) = false).
Proof.
  intros Hreach. apply reachable_Inv in Hreach.
  destruct f as [file|]; simpl.
  2: { split; [done|]. split; [done|]. by intros (file & ? & _). }
  apply (post_bind (getPaneIdForPath (fullPath file)) _
           (λ o _,
              (o = Ok (Rejected (Diagnostic "bad argument")) ↔ Some file = None) ∧
              (o = Ok (Rejected (Diagnostic
                   "custom viewers not yet implemented with split view. check back later."))
               ↔ ∃ file', Some file = Some file' ∧ openDoc = None ∧
                          canOpenFile (fullPath file') = false))).
  post_steps. apply post_redirect; [done|].
  intros s' target Hp Ho HI' _.
  destruct openDoc as [doc|].
  - unfold post.
    split; (split; [intros Hres|]).
    + by apply bind_ret_result in Hres.
    + done.
    + by apply bind_ret_result in Hres.
    + by intros (file' & _ & ? & _).
  - destruct (canOpenFile (fullPath file)) eqn:Hcan.
    + destruct load as [doc|err|]; unfold post.
      * split; (split; [intros Hres|]).
        -- by apply bind_ret_result in Hres.
        -- done.
        -- by apply bind_ret_result in Hres.
        -- intros (file' & [= <-] & _ & Hno). congruence.
      * split; (split; [done|]); [done|].
        intros (file' & [= <-] & _ & Hno). congruence.
      * split; (split; [done|]); [done|].
        intros (file' & [= <-] & _ & Hno). congruence.
    + post_step. split.
      * split; intros Habs; discriminate Habs.
      * split; [intros _; by exists file|done].
Qed.

Lemma C6_doOpen_rejections_witness :
  ((doOpen (λ _, false) (λ _, true) SECOND_PANE (Some (mkFile "/logo.png"))
      None LoadPending
      (run (λ _, false) (λ _, true) [OpHandleSplitVertically] initialState)).1
     = Ok (Rejected (Diagnostic "bad argument"))
   ↔ Some (mkFile "/logo.png") = None) ∧
  ((doOpen (λ _, false) (λ _, true) SECOND_PANE (Some (mkFile "/logo.png"))
      None LoadPending
      (run (λ _, false) (λ _, true) [OpHandleSplitVertically] initialState)).1
     = Ok (Rejected (Diagnostic
         "custom viewers not yet implemented with split view. check back later."))
   ↔ ∃ file, Some (mkFile "/logo.png") = Some file ∧
             @None Document = None ∧
             (λ _ : string, false) (fullPath file) = false).
Proof.
  apply (C6_doOpen_rejections (λ _, false) (λ _, true) SECOND_PANE
           (Some (mkFile "/logo.png")) None LoadPending
           (run (λ _, false) (λ _, true) [OpHandleSplitVertically]
              initialState)).
  apply run_reachable. apply reachable_init.
Defined.

(** ** Calls that leave the view lists and the active pane alone *)

Lemma frames_refl s : frames s s.
Proof. by split. Qed.

Lemma frames_trans s s' s'' : frames s s' → frames s' s'' → frames s s''.
Proof.
  intros [H1 H2] [H1' H2']. split; [congruence|].
  intros k. by rewrite H2', H2.
Qed.

Lemma frames_same s s' :
  _paneViews s' = _paneViews s → _activePaneId s' = _activePaneId s →
  frames s s'.
Proof. intros Hp Ha. split; [done|]. intros k. unfold viewListAt. by rewrite Hp. Qed.

Lemma framed_ret {A} (a : A) : framed (ret a).
Proof. intros s. apply frames_refl. Qed.

Lemma framed_gets {A} (f : State → A) : framed (gets f).
Proof. intros s. apply frames_refl. Qed.

Lemma framed_trigger e : framed (triggerHandler e).
Proof. intros s. by apply frames_same. Qed.

Lemma framed_bind {A B} (m : M A) (k : A → M B) :
  framed m → (∀ a, framed (k a)) → framed (bind m k).
Proof.
  intros Hm Hk s. specialize (Hm s). unfold bind.
  destruct (m s) as [[a|] s']; simpl in *; [|done].
  eapply frames_trans; [done|apply Hk].
Qed.

Lemma framed_getPane paneId : framed (_getPaneFromPaneId paneId).
Proof. intros s. rewrite getPaneFromPaneId_eq. apply frames_refl. Qed.

Lemma framed_callMethod {A} pane (method : Pane.t → Pane.t * A) :
  (∀ p, Pane._viewList (method p).1 = Pane._viewList p) →
  framed (callMethod pane method).
Proof.
  intros Hvl s. destruct pane as [key p0| |]; [|apply frames_refl..].
  apply (post_callMethod key p0 method (λ _ s', frames s s')).
  destruct (JsObject.getOwn _ _) as [p|] eqn:Hget; [|apply frames_refl].
  split; [done|]. intros k. unfold viewListAt. simpl. rewrite getOwn_set.
  case_decide; subst; [|done]. rewrite Hget. simpl. by rewrite Hvl.
Qed.

Lemma framed_voidMethod pane (method : Pane.t → Pane.t) :
  (∀ p, Pane._viewList (method p) = Pane._viewList p) →
  framed (voidMethod pane method).
Proof. intros H. by apply framed_callMethod. Qed.

Lemma makeViewMostRecent_viewList f p :
  Pane._viewList (Pane.makeViewMostRecent f p) = Pane._viewList p.
Proof. unfold Pane.makeViewMostRecent. by destruct (hasPath _ _). Qed.

Lemma framed_makePaneViewMostRecent paneId f :
  framed (makePaneViewMostRecent paneId f).
Proof.
  unfold makePaneViewMostRecent.
  apply framed_bind; [apply framed_getPane|]. intros pane.
  destruct (isNull pane); [apply framed_ret|].
  apply framed_voidMethod. intros p. apply makeViewMostRecent_viewList.
Qed.

Lemma framed_doOpenDocument doc pane : framed (doOpenDocument doc pane).
Proof. unfold doOpenDocument. by apply framed_voidMethod. Qed.

Lemma addToPaneViewList_open canOpenFile paneId f index force s :
  isOpenAt (paneIdForPath s (fullPath f)) = true →
  addToPaneViewList canOpenFile paneId f index force s = (Ok tt, s).
Proof.
  intros Hopen. unfold addToPaneViewList, bind at 1.
  rewrite getPaneFromPaneId_eq. unfold bind at 1.
  rewrite getPaneIdForPath_run, Hopen.
  by rewrite !orb_true_r.
Qed.

Lemma resolvePaneId_key s k p :
  Shape (_paneViews s) → JsObject.getOwn (_paneViews s) k = Some p →
  resolvePaneId s k = k.
Proof.
  intros Hs Hget. unfold resolvePaneId.
  destruct (Shape_key _ _ _ Hs Hget) as [_ [->| ->]]; done.
Qed.

(** [doEdit] for a document whose file is in the view list of pane [B]. *)
Lemma doEdit_open canOpenFile isWithinProject paneId doc s B pB :
  Inv s → JsObject.getOwn (_paneViews s) B = Some pB →
  file doc ∈ Pane._viewList pB →
  _activePaneId (doEdit canOpenFile isWithinProject paneId doc s).2 = B ∧
  ∀ k, viewListAt (doEdit canOpenFile isWithinProject paneId doc s).2 k
       = viewListAt s k.
Proof.
  intros HI Hget Hf.
  pose proof (open_at s (file doc) B pB HI Hget Hf) as Hfound.
  apply (post_bind (getPaneIdForPath (fullPath (file doc))) _
           (λ _ s', _activePaneId s' = B ∧
                    ∀ k, viewListAt s' k = viewListAt s k)).
  apply post_getPaneIdForPath.
  apply post_bind. apply post_redirect; [done|]. rewrite Hfound.
  intros s1 target Hp Ho HI1 [-> Ha].
  assert (JsObject.getOwn (_paneViews s1) B = Some pB) as Hget1.
  { by rewrite Hp. }
  apply post_bind. unfold post at 1. rewrite getPaneFromPaneId_eq.
  rewrite (resolvePaneId_key s1 B pB) by (done || apply HI1).
  cbn [fst snd]. unfold refAt, JsObject.get. rewrite Hget1. cbn [isNull].
  apply post_bind.
  assert (isOpenAt (paneIdForPath s1 (fullPath (file doc))) = true) as Hopen.
  { unfold paneIdForPath. rewrite Hp. fold (paneIdForPath s (fullPath (file doc))).
    rewrite Hfound. simpl. by eapply truthy_key; [apply HI|]. }
  assert (post (if isUntitled doc || negb (isWithinProject (fullPath (file doc)))
                then addToPaneViewList canOpenFile B (file doc) None false
                else ret tt)
            (λ o s', o = Ok tt ∧ s' = s1) s1) as Hadd.
  { destruct (_ || _); [|done]. unfold post.
    by rewrite addToPaneViewList_open. }
  eapply post_mono; [exact Hadd|]. intros o s' [-> ->].
  match goal with
  | |- post ?m _ _ =>
      assert (framed m) as Hframed
  end.
  { apply framed_bind; [apply framed_doOpenDocument|]. intros _.
    apply framed_bind; [apply framed_gets|]. intros active.
    apply framed_bind;
      [destruct (bool_decide _); [apply framed_trigger|apply framed_ret]|].
    intros _. apply framed_makePaneViewMostRecent. }
  destruct (Hframed s1) as [Hactive Hviews]. unfold post.
  split; [congruence|].
  intros k. rewrite Hviews. unfold viewListAt. by rewrite Hp.
Qed.

Lemma bind_ret_state {A B} (m : M A) (b : B) s :
  ((let* _ := m in ret b) s).2 = (m s).2.
Proof. unfold bind, ret. by destruct (m s) as [[a|] s']. Qed.

(** C4. In a reachable state, for a file that is in the view list of pane
    [B], [doOpen] with any requested pane id [A] leaves [B] the active pane
    and leaves the view list of every pane as it was.  The documents that
    the document manager hands out for the file's path are documents of
    that file. *)
Theorem C4_doOpen_of_open_file_activates_its_pane canOpenFile isWithinProject
    s A B pB f openDoc load :
  reachable canOpenFile isWithinProject s →
  JsObject.getOwn (_paneViews s) B = Some pB →
  f ∈ Pane._viewList pB →
  (∀ doc, openDoc = Some doc → file doc = f) →
  (∀ doc, load = LoadDone doc → file doc = f) →
  _activePaneId
    (doOpen canOpenFile isWithinProject A (Some f) openDoc load s).2 = B ∧
  ∀ k,
    viewListAt (doOpen canOpenFile isWithinProject A (Some f) openDoc load s).2 k
    = viewListAt s k.
Proof.
  intros Hreach Hget Hf HopenDoc Hload. apply reachable_Inv in Hreach.
  pose proof (open_at s f B pB Hreach Hget Hf) as Hfound.
  apply (post_bind (getPaneIdForPath (fullPath f)) _
           (λ _ s', _activePaneId s' = B ∧
                    ∀ k, viewListAt s' k = viewListAt s k)).
  apply post_getPaneIdForPath.
  apply post_bind. apply post_redirect; [done|]. rewrite Hfound.
  intros s1 target Hp Ho HI1 [-> Ha].
  assert (JsObject.getOwn (_paneViews s1) B = Some pB) as Hget1.
  { by rewrite Hp. }
  assert (∀ k, viewListAt s1 k = viewListAt s k) as Hviews.
  { intros k. unfold viewListAt. by rewrite Hp. }
  assert (∀ doc, file doc = f →
            post (let* _ := doEdit canOpenFile isWithinProject B doc in
                  ret (Resolved doc))
              (λ _ s', _activePaneId s' = B ∧
                       ∀ k, viewListAt s' k = viewListAt s k) s1) as Hedit.
  { intros doc Hdoc. unfold post. rewrite bind_ret_state.
    destruct (doEdit_open canOpenFile isWithinProject B doc s1 B pB)
      as [Hactive Hsame]; [done|done|by rewrite Hdoc|].
    split; [done|]. intros k. by rewrite Hsame. }
  destruct openDoc as [doc|]; [by apply Hedit, HopenDoc|].
  destruct (canOpenFile (fullPath f)); [|done].
  destruct load as [doc|err|]; [by apply Hedit, Hload|done|done].
Qed.

Lemma C4_doOpen_witness :
  _activePaneId
    (doOpen (λ _, true) (λ _, true) FIRST_PANE (Some (mkFile "/d.js"))
       (Some (mkDocument (mkFile "/d.js") false)) LoadPending splitExample).2
  = SECOND_PANE ∧
  ∀ k,
    viewListAt
      (doOpen (λ _, true) (λ _, true) FIRST_PANE (Some (mkFile "/d.js"))
         (Some (mkDocument (mkFile "/d.js") false)) LoadPending splitExample).2
      k
    = viewListAt splitExample k.
Proof.
  apply (C4_doOpen_of_open_file_activates_its_pane (λ _, true) (λ _, true)
           splitExample FIRST_PANE SECOND_PANE splitExampleSecond
           (mkFile "/d.js") (Some (mkDocument (mkFile "/d.js") false))
           LoadPending).
  - exact splitExample_reachable.
  - reflexivity.
  - simpl. left.
  - intros doc [= <-]. reflexivity.
  - intros doc Hdoc. discriminate Hdoc.
Defined.

(** ** Adding a batch of files *)

Lemma addListToViewList_appends canOpen openElsewhere fileList p :
  (Pane.addListToViewList canOpen openElsewhere fileList p).1
  = Pane.setLists
      (Pane._viewList p
       ++ (Pane.addListToViewList canOpen openElsewhere fileList p).2)
      (Pane._viewListAddedOrder p
       ++ (Pane.addListToViewList canOpen openElsewhere fileList p).2)
      (Pane._viewListMRUOrder p
       ++ (Pane.addListToViewList canOpen openElsewhere fileList p).2)
      p.
Proof.
  revert p. induction fileList as [|f rest IH]; intros p; simpl.
  - rewrite !app_nil_r. by destruct p.
  - destruct (_ && _); [|apply IH].
    specialize (IH (Pane.addToViewList f None p).1).
    destruct (Pane.addListToViewList _ _ rest _) as [p' added].
    simpl in *. rewrite IH. unfold Pane.setLists. simpl.
    by rewrite <- !app_assoc.
Qed.

Lemma addListToViewList_complete canOpen openElsewhere fileList p g :
  g ∈ fileList → canOpen (fullPath g) = true →
  openElsewhere (fullPath g) = false →
  g ∈ Pane._viewList p ∨
  g ∈ (Pane.addListToViewList canOpen openElsewhere fileList p).2.
Proof.
  intros Hg Hcan Helse. revert p.
  induction fileList as [|f rest IH]; intros p; simpl.
  - by apply elem_of_nil in Hg.
  - apply elem_of_cons in Hg as [->|Hg].
    + rewrite Hcan, Helse. simpl.
      destruct (hasPath _ _) eqn:Hhas; simpl.
      * left. by apply hasPath_elem.
      * destruct (Pane.addListToViewList _ _ rest _) as [p' added].
        right. left.
    + destruct (_ && _).
      * specialize (IH Hg (Pane.addToViewList f None p).1).
        destruct (Pane.addListToViewList _ _ rest _) as [p' added].
        simpl in *. destruct IH as [Hin|Hin]; [|right; by right].
        apply elem_of_app in Hin as [Hin|Hin%list_elem_of_singleton];
          [by left|]. subst. right. left.
      * by apply IH.
Qed.

Lemma admissible_spec canOpenFile s g :
  Inv s →
  admissible canOpenFile s g = true ↔
  canOpenFile (fullPath g) = true ∧ NotOpen s g.
Proof.
  intros HI. unfold admissible. rewrite andb_true_iff, negb_true_iff.
  split; intros [Hcan Hopen]; (split; [done|]).
  - apply not_open; [apply HI|done].
  - destruct (paneIdForPath s (fullPath g)) as [k|] eqn:Hfound; [|done].
    destruct (is_open s g k (inv_shape _ HI) Hfound) as (_ & q & Hq & Hgq).
    by destruct (Hopen k q Hq).
Qed.

Lemma getPaneFromPaneId_IsPane paneId s key p :
  _getPaneFromPaneId paneId s = (Ok (IsPane key p), s) →
  JsObject.getOwn (_paneViews s) key = Some p.
Proof.
  rewrite getPaneFromPaneId_eq. intros [= Href].
  pose proof (RefOk_refAt s (resolvePaneId s paneId)) as Hok.
  by rewrite Href in Hok.
Qed.

(** C3, the claim as stated fails: for a pane id that is not in the
    registry, here ["second-pane"] while no split is active,
    [addListToPaneViewList] returns at its guard and sends no notification
    at all. *)
Lemma C3_unknown_pane_counterexample :
  JsObject.hasOwnProperty (_paneViews initialState) SECOND_PANE = false ∧
  addListToPaneViewList (λ _, true) SECOND_PANE [mkFile "/a.js"] initialState
    = (Ok tt, initialState) ∧
  events
    (addListToPaneViewList (λ _, true) SECOND_PANE [mkFile "/a.js"]
       initialState).2
    = [paneCreated FIRST_PANE].
Proof. repeat split; vm_compute; reflexivity. Qed.

Lemma addListToPaneViewList_known canOpenFile s paneId fileList key p :
  Inv s →
  _getPaneFromPaneId paneId s = (Ok (IsPane key p), s) →
  ∃ uniqueFileList s',
    addListToPaneViewList canOpenFile paneId fileList s = (Ok tt, s') ∧
    events s' = events s ++ [paneViewListAddList uniqueFileList (Pane.id p)] ∧
    viewListAt s' key = Some (Pane._viewList p ++ uniqueFileList) ∧
    (∀ k, k ≠ key → viewListAt s' k = viewListAt s k) ∧
    NoDup uniqueFileList ∧
    (∀ g, g ∈ uniqueFileList ↔
            g ∈ fileList ∧ admissible canOpenFile s g = true).
Proof.
  intros Hreach Hpane.
  pose proof (getPaneFromPaneId_IsPane _ _ _ _ Hpane) as Hget.
  set (openElsewhere := λ path, isOpenAt (paneIdForPath s path)).
  set (result := Pane.addListToViewList canOpenFile openElsewhere fileList p).
  exists result.2.
  exists (addEvent (paneViewListAddList result.2 (Pane.id p))
            (setPaneViews (JsObject.set (_paneViews s) key result.1) s)).
  split_and!.
  - unfold addListToPaneViewList, bind at 1. rewrite Hpane. cbn [isNull].
    unfold bind at 1, gets at 1. unfold bind, callMethod. rewrite Hget.
    fold openElsewhere. fold result. by destruct result.
  - done.
  - unfold viewListAt. simpl. rewrite getOwn_set, decide_True by done.
    simpl. unfold result. by rewrite addListToViewList_appends.
  - intros k Hk. unfold viewListAt. simpl. by rewrite getOwn_set, decide_False.
  - pose proof (Evolves_addListToViewList canOpenFile openElsewhere fileList p)
      as [_ Hok _].
    specialize (Hok (inv_panes _ Hreach _ _ Hget)).
    destruct Hok as [Hnd _ _ _ _]. fold result in Hnd.
    unfold result in Hnd. rewrite addListToViewList_appends in Hnd.
    simpl in Hnd. by apply NoDup_app in Hnd as (_ & _ & ?).
  - intros g. unfold admissible. fold (openElsewhere (fullPath g)). split.
    + intros Hg. apply addListToViewList_admits in Hg as (H1 & H2 & H3 & _).
      by rewrite H2, H3.
    + intros [Hg [Hcan Helse%negb_true_iff]%andb_true_iff].
      destruct (addListToViewList_complete canOpenFile openElsewhere
                  fileList p g Hg Hcan Helse) as [Hin|Hin]; [|done].
      apply not_open in Helse; [|apply Hreach].
      by destruct (Helse key p Hget).
Qed.

Lemma addToPaneViewList_known canOpenFile s paneId key p g :
  Inv s →
  _getPaneFromPaneId paneId s = (Ok (IsPane key p), s) →
  viewListAt (addToPaneViewList canOpenFile paneId g None false s).2 key
  = Some (if admissible canOpenFile s g
          then Pane._viewList p ++ [g] else Pane._viewList p).
Proof.
  intros Hreach Hpane.
  pose proof (getPaneFromPaneId_IsPane _ _ _ _ Hpane) as Hget.
  unfold admissible.
  destruct (canOpenFile (fullPath g)
            && negb (isOpenAt (paneIdForPath s (fullPath g)))) eqn:Hadm.
  - apply andb_true_iff in Hadm as [Hcan Hopen%negb_true_iff].
    pose proof (not_open s g (inv_shape _ Hreach) Hopen) as Hno.
    unfold addToPaneViewList, bind at 1. rewrite Hpane.
    unfold bind at 1. rewrite getPaneIdForPath_run, Hcan, Hopen.
    cbn [isNull negb orb]. unfold bind at 1, callMethod at 1. rewrite Hget.
    rewrite reorderItem_not_found by by eapply Hno.
    rewrite set_same, setPaneViews_same by done.
    unfold bind, callMethod, triggerHandler, modify. rewrite Hget.
    unfold Pane.addToViewList, insertAt. simpl.
    unfold viewListAt. simpl. by rewrite getOwn_set, decide_True.
  - assert (addToPaneViewList canOpenFile paneId g None false s = (Ok tt, s))
      as ->.
    { unfold addToPaneViewList, bind at 1. rewrite Hpane.
      unfold bind at 1. rewrite getPaneIdForPath_run. cbn [isNull orb].
      apply andb_false_iff in Hadm as [->| ->%negb_false_iff]; [done|].
      by rewrite orb_true_r. }
    unfold viewListAt. simpl. by rewrite Hget.
Qed.

Lemma addListToPaneViewList_unknown canOpenFile s paneId fileList :
  _getPaneFromPaneId paneId s = (Ok Null, s) →
  addListToPaneViewList canOpenFile paneId fileList s = (Ok tt, s).
Proof.
  intros Hpane. unfold addListToPaneViewList, bind. by rewrite Hpane.
Qed.

Lemma addListToPaneViewList_notAPane canOpenFile s paneId fileList :
  _getPaneFromPaneId paneId s = (Ok NotAPane, s) →
  addListToPaneViewList canOpenFile paneId fileList s = (TypeError, s).
Proof.
  intros Hpane. unfold addListToPaneViewList, bind. by rewrite Hpane.
Qed.

Lemma getPaneFromPaneId_state paneId s : (_getPaneFromPaneId paneId s).2 = s.
Proof. by rewrite getPaneFromPaneId_eq. Qed.

(** C3, amended.  In a reachable state, when the pane id resolves to a pane
    of the registry, [addListToPaneViewList] sends exactly one
    [paneViewListAddList] notification, for the whole batch; the files it
    appends to the pane are the files of the batch that pass the test of
    [addToPaneViewList], each once: the file needs no custom viewer and is
    open in no pane of the registry.  A single [addToPaneViewList] appends its
    file under the same test.  When the pane id resolves to no pane, the
    call returns at its guard: nothing is added and nothing is sent. *)
Theorem C3_batch_add_admits_like_single_add canOpenFile isWithinProject s
    paneId fileList :
  reachable canOpenFile isWithinProject s →
  (∀ g, admissible canOpenFile s g = true ↔
          canOpenFile (fullPath g) = true ∧ NotOpen s g) ∧
  match (_getPaneFromPaneId paneId s).1 with
  | Ok (IsPane key p) =>
      (∃ uniqueFileList s',
         addListToPaneViewList canOpenFile paneId fileList s = (Ok tt, s') ∧
         events s'
           = events s ++ [paneViewListAddList uniqueFileList (Pane.id p)] ∧
         viewListAt s' key = Some (Pane._viewList p ++ uniqueFileList) ∧
         (∀ k, k ≠ key → viewListAt s' k = viewListAt s k) ∧
         NoDup uniqueFileList ∧
         (∀ g, g ∈ uniqueFileList ↔
                 g ∈ fileList ∧ admissible canOpenFile s g = true)) ∧
      (∀ g, viewListAt
              (addToPaneViewList canOpenFile paneId g None false s).2 key
            = Some (if admissible canOpenFile s g
                    then Pane._viewList p ++ [g] else Pane._viewList p))
  | Ok Null =>
      addListToPaneViewList canOpenFile paneId fileList s = (Ok tt, s)
  | Ok NotAPane =>
      addListToPaneViewList canOpenFile paneId fileList s = (TypeError, s)
  | TypeError => False
  end.
Proof.
  intros Hreach. apply reachable_Inv in Hreach.
  split; [intros g; by apply admissible_spec|].
  pose proof (getPaneFromPaneId_state paneId s) as Hstate.
  destruct (_getPaneFromPaneId paneId s) as [[[key p| |]|] s0] eqn:Hpane;
    simpl in Hstate; subst s0; simpl.
  - split.
    + by apply addListToPaneViewList_known.
    + intros g. by apply addToPaneViewList_known.
  - by apply addListToPaneViewList_notAPane.
  - by apply addListToPaneViewList_unknown.
  - by rewrite getPaneFromPaneId_eq in Hpane.
Qed.

Lemma C3_batch_add_witness :
  (∀ g, admissible (λ _, true) splitExample g = true ↔
          (λ _ : string, true) (fullPath g) = true ∧ NotOpen splitExample g) ∧
  (∃ uniqueFileList s',
     addListToPaneViewList (λ _, true) SECOND_PANE
       [mkFile "/a.js"; mkFile "/d.js"; mkFile "/b.js"; mkFile "/b.js"]
       splitExample = (Ok tt, s') ∧
     events s'
       = events splitExample
         ++ [paneViewListAddList uniqueFileList (Pane.id splitExampleSecond)] ∧
     viewListAt s' SECOND_PANE
       = Some (Pane._viewList splitExampleSecond ++ uniqueFileList) ∧
     (∀ k, k ≠ SECOND_PANE → viewListAt s' k = viewListAt splitExample k) ∧
     NoDup uniqueFileList ∧
     (∀ g, g ∈ uniqueFileList ↔
             g ∈ [mkFile "/a.js"; mkFile "/d.js"; mkFile "/b.js";
                  mkFile "/b.js"] ∧
             admissible (λ _, true) splitExample g = true)) ∧
  (∀ g, viewListAt
          (addToPaneViewList (λ _, true) SECOND_PANE g None false
             splitExample).2 SECOND_PANE
        = Some (if admissible (λ _, true) splitExample g
                then Pane._viewList splitExampleSecond ++ [g]
                else Pane._viewList splitExampleSecond)).
Proof.
  apply (C3_batch_add_admits_like_single_add (λ _, true) (λ _, true)
           splitExample SECOND_PANE
           [mkFile "/a.js"; mkFile "/d.js"; mkFile "/b.js"; mkFile "/b.js"]).
  exact splitExample_reachable.
Defined.

(** ** Traversal in most-recently-used order *)








(** * Further properties of the manager *)

(** ** The active pane *)

Lemma hasOwnProperty_keys {A} (o : JsObject.t A) k :
  JsObject.hasOwnProperty o k = true ↔ k ∈ JsObject.keys o.
Proof.
  unfold JsObject.hasOwnProperty, JsObject.keys.
  induction o as [|[k0 a0] o IH]; simpl.
  - split; [done|]. intros H. by apply elem_of_nil in H.
  - case_decide; subst.
    + split; [intros _; left|done].
    + rewrite elem_of_cons, <- IH. naive_solver.
Qed.

Lemma hasOwnProperty_getOwn {A} (o : JsObject.t A) k :
  JsObject.hasOwnProperty o k = true ↔ ∃ a, JsObject.getOwn o k = Some a.
Proof.
  unfold JsObject.hasOwnProperty.
  destruct (JsObject.getOwn o k); [|split; [done|by intros [? ?]]].
  split; [by eexists|done].
Qed.

Lemma forceFocus_run s :
  JsObject.hasOwnProperty (_paneViews s) (_activePaneId s) = true →
  forceFocusToActivePaneView s = (Ok tt, s).
Proof.
  intros Hk. unfold forceFocusToActivePaneView, bind.
  rewrite getActivePane_eq.
  destruct (refAt_known _ _ Hk) as (p & -> & Hget).
  unfold voidMethod, callMethod. rewrite Hget.
  by rewrite set_same, setPaneViews_same.
Qed.

Lemma forceFocus_throws s :
  JsObject.hasOwnProperty (_paneViews s) (_activePaneId s) = false →
  forceFocusToActivePaneView s = (TypeError, s).
Proof.
  intros Hk. unfold forceFocusToActivePaneView, bind.
  rewrite getActivePane_eq.
  unfold refAt, JsObject.get, JsObject.hasOwnProperty in *.
  destruct (JsObject.getOwn _ _); [done|].
  by case_bool_decide.
Qed.

Lemma setActivePaneId_run newPaneId s :
  JsObject.hasOwnProperty (_paneViews s) (_activePaneId s) = true →
  setActivePaneId newPaneId s = (Ok tt, activated newPaneId s).
Proof.
  intros Hactive. unfold setActivePaneId, activated, JsObject.hasOwnProperty.
  unfold bind at 1, gets at 1. unfold bind at 1, gets at 1.
  destruct (JsObject.getOwn (_paneViews s) newPaneId) as [p|] eqn:Hget.
  - destruct (decide (newPaneId = _activePaneId s)) as [Heq|Hne].
    + rewrite bool_decide_eq_true_2 by done. simpl.
      unfold bind, ret. by rewrite forceFocus_run.
    + rewrite bool_decide_eq_false_2 by done. simpl.
      unfold bind at 1. unfold bind at 1, modify at 1.
      unfold bind at 1, triggerHandler at 1, modify at 1.
      unfold bind at 1. rewrite getActivePane_eq.
      cbn [_activePaneId addEvent setActive].
      unfold refAt, JsObject.get. cbn [_paneViews addEvent setActive].
      rewrite Hget. unfold bind at 1, readMethod, callMethod.
      cbn [_paneViews addEvent setActive]. rewrite Hget.
      rewrite set_same by done. unfold triggerHandler, modify.
      rewrite forceFocus_run; [done|].
      unfold JsObject.hasOwnProperty. simpl. by rewrite Hget.
  - simpl. unfold bind, ret. by rewrite forceFocus_run.
Qed.

(** X1. In a reachable state [setActivePaneId] never throws.  For an id that
    is not registered, or is the active one already, it changes nothing and
    sends nothing; for another registered id it makes that pane active and
    sends [activePaneChange] and then [currentFileChanged], with the file
    that pane shows; and calling it a second time with the same id changes
    nothing more. *)
Theorem X1_setActivePaneId canOpenFile isWithinProject s newPaneId :
  reachable canOpenFile isWithinProject s →
  ∃ s',
    setActivePaneId newPaneId s = (Ok tt, s') ∧
    (JsObject.hasOwnProperty (_paneViews s) newPaneId = false ∨
     newPaneId = _activePaneId s → s' = s) ∧
    (∀ p, JsObject.getOwn (_paneViews s) newPaneId = Some p →
          newPaneId ≠ _activePaneId s →
          _activePaneId s' = newPaneId ∧
          _paneViews s' = _paneViews s ∧
          events s'
          = events s
            ++ [activePaneChange newPaneId (_activePaneId s);
                currentFileChanged (Pane._currentView p) newPaneId]) ∧
    setActivePaneId newPaneId s' = (Ok tt, s').
Proof.
  intros Hreach. apply reachable_Inv in Hreach.
  pose proof (inv_active _ Hreach) as Hactive.
  exists (activated newPaneId s). split_and!.
  - by apply setActivePaneId_run.
  - unfold activated, JsObject.hasOwnProperty.
    destruct (JsObject.getOwn _ newPaneId); intros [H| ->]; try done.
    by rewrite decide_True.
  - intros p Hget Hne. unfold activated. rewrite Hget, decide_False by done.
    simpl. by rewrite <- app_assoc.
  - unfold activated.
    destruct (JsObject.getOwn (_paneViews s) newPaneId) as [p|] eqn:Hget.
    + case_decide as Heq.
      * rewrite setActivePaneId_run by done. unfold activated.
        by rewrite Hget, decide_True.
      * rewrite setActivePaneId_run.
        -- unfold activated. simpl. rewrite Hget. by rewrite decide_True.
        -- unfold JsObject.hasOwnProperty. simpl. by rewrite Hget.
    + rewrite setActivePaneId_run by done. unfold activated. by rewrite Hget.
Qed.

Lemma X1_setActivePaneId_witness :
  ∃ s',
    setActivePaneId SECOND_PANE splitExample = (Ok tt, s') ∧
    (JsObject.hasOwnProperty (_paneViews splitExample) SECOND_PANE = false ∨
     SECOND_PANE = _activePaneId splitExample → s' = splitExample) ∧
    (∀ p, JsObject.getOwn (_paneViews splitExample) SECOND_PANE = Some p →
          SECOND_PANE ≠ _activePaneId splitExample →
          _activePaneId s' = SECOND_PANE ∧
          _paneViews s' = _paneViews splitExample ∧
          events s'
          = events splitExample
            ++ [activePaneChange SECOND_PANE (_activePaneId splitExample);
                currentFileChanged (Pane._currentView p) SECOND_PANE]) ∧
    setActivePaneId SECOND_PANE s' = (Ok tt, s').
Proof.
  apply (X1_setActivePaneId (λ _, true) (λ _, true) splitExample SECOND_PANE).
  exact splitExample_reachable.
Defined.

(** ** Splitting and unsplitting, step by step *)

Lemma createPaneIfNecessary_run paneId s :
  _createPaneIfNecessary paneId s =
    (Ok tt,
     if JsObject.hasOwnProperty (_paneViews s) paneId then s
     else addEvent (paneCreated paneId)
            (setPaneViews
               (JsObject.set (_paneViews s) paneId
                  (Pane.new paneId (nextElement s)))
               (setNextElement (S (nextElement s)) s))).
Proof.
  unfold _createPaneIfNecessary, bind at 1, gets at 1.
  by destruct (JsObject.hasOwnProperty _ _).
Qed.

Lemma doSplit_run orientation s :
  _doSplit orientation s = (Ok tt, splitInto orientation s).
Proof.
  unfold _doSplit, bind at 1. rewrite createPaneIfNecessary_run.
  unfold splitInto. by destruct (JsObject.hasOwnProperty _ _).
Qed.

Lemma doUnsplit_run s p1 p2 :
  JsObject.getOwn (_paneViews s) FIRST_PANE = Some p1 →
  JsObject.getOwn (_paneViews s) SECOND_PANE = Some p2 →
  JsObject.hasOwnProperty (_paneViews s) (_activePaneId s) = true →
  _doUnsplit s = (Ok tt, unsplit s).
Proof.
  intros H1 H2 Hactive.
  unfold _doUnsplit, unsplit, paneAt, JsObject.hasOwnProperty, JsObject.get.
  unfold bind at 1, gets at 1. rewrite H2.
  unfold bind at 1. unfold bind at 1, gets at 1. rewrite H1. unfold ret at 1.
  unfold bind at 1. unfold bind at 1, gets at 1. rewrite H2. unfold ret at 1.
  unfold bind at 1, readMethod at 1, callMethod at 1. rewrite H2.
  rewrite set_same, setPaneViews_same by done. cbn [fst snd].
  unfold bind at 1, readMethod at 1, callMethod at 1. rewrite H2.
  rewrite set_same, setPaneViews_same by done. cbn [fst snd].
  unfold bind at 1, voidMethod at 1, callMethod at 1. rewrite H1.
  unfold bind at 1, triggerHandler at 1, modify at 1.
  unfold bind at 1. cbn [idOf].
  rewrite setActivePaneId_run.
  - done.
  - cbn [_paneViews _activePaneId addEvent setPaneViews].
    rewrite hasOwnProperty_set; [done|].
    unfold JsObject.hasOwnProperty. by rewrite H1.
Qed.

(** ** What a call may change *)

Lemma Within_refl fresh p : Within fresh p p.
Proof. split; auto. Qed.

Lemma Within_weaken (fresh fresh' : File → Prop) p p' :
  (∀ g, fresh g → fresh' g) → Within fresh p p' → Within fresh' p p'.
Proof. intros H [H1 H2]. split; [done|]. naive_solver. Qed.

Lemma Within_trans fresh p p' p'' :
  Within fresh p p' → Within fresh p' p'' → Within fresh p p''.
Proof.
  intros [H1 H2] [H1' H2']. split; [congruence|].
  intros g Hg. destruct (H2' g Hg) as [Hg'|Hg']; auto.
Qed.

Lemma Evolves_Within fresh p p' : Evolves nothing p p' → Within fresh p p'.
Proof.
  intros [H1 _ H3]. split; [done|]. intros g Hg.
  by destruct (H3 g Hg) as [Hg'|[]]; left.
Qed.

Lemma Within_addToViewList f index p :
  Within (λ g, g = f) p (Pane.addToViewList f index p).1.
Proof.
  unfold Pane.addToViewList.
  pose proof (elem_of_insertAt index f (Pane._viewList p)) as Hin.
  destruct (insertAt index f (Pane._viewList p)) as [vl i]; simpl in *.
  split; simpl; [done|]. intros g Hg. apply Hin in Hg. naive_solver.
Qed.

Lemma Within_addListToViewList canOpen openElsewhere fileList p :
  Within (λ g, g ∈ fileList ∧ canOpen (fullPath g) = true) p
    (Pane.addListToViewList canOpen openElsewhere fileList p).1.
Proof.
  revert p. induction fileList as [|f rest IH]; intros p; simpl.
  - apply Within_refl.
  - destruct (_ && _) eqn:Hadmit.
    + apply andb_true_iff in Hadmit as [[Hcan _]%andb_true_iff _].
      pose proof (Within_addToViewList f None p) as Hadd.
      specialize (IH (Pane.addToViewList f None p).1).
      destruct (Pane.addListToViewList _ _ rest _) as [p' added].
      eapply Within_trans.
      * eapply Within_weaken; [|exact Hadd].
        intros g ->. split; [left|done].
      * eapply Within_weaken; [|exact IH].
        intros g [Hg Hc]. split; [by right|done].
    + eapply Within_weaken; [|apply IH].
      intros g [Hg Hc]. split; [by right|done].
Qed.

Lemma Changes_weaken (a a' : bool) (fresh fresh' : File → Prop) s s' :
  (a = true → a' = true) → (∀ g, fresh g → fresh' g) →
  Changes a fresh s s' → Changes a' fresh' s s'.
Proof.
  intros Ha Hf. induction 1.
  - apply changes_none.
  - by eapply changes_then.
  - apply changes_event.
  - eapply changes_pane; [done|]. by eapply Within_weaken.
  - apply changes_active; auto.
Qed.

Lemma Changes_bind a fresh {A B} (m : M A) (k : A → M B) s :
  Changes a fresh s (m s).2 →
  (∀ x s', m s = (Ok x, s') → Changes a fresh s' (k x s').2) →
  Changes a fresh s (bind m k s).2.
Proof.
  intros Hm Hk. unfold bind. destruct (m s) as [[x|] s'] eqn:Hrun; simpl in *.
  - eapply changes_then; [done|]. by apply Hk.
  - done.
Qed.

Lemma changes_weaken (a a' : bool) (fresh fresh' : File → Prop) {A} (m : M A) :
  (a = true → a' = true) → (∀ g, fresh g → fresh' g) →
  changes a fresh m → changes a' fresh' m.
Proof. intros Ha Hf H s. by eapply Changes_weaken. Qed.

Lemma changes_ret a fresh {A} (x : A) : changes a fresh (ret x).
Proof. intros s. apply changes_none. Qed.

Lemma changes_throw a fresh {A} : changes a fresh (@throw A).
Proof. intros s. apply changes_none. Qed.

Lemma changes_gets a fresh {A} (f : State → A) : changes a fresh (gets f).
Proof. intros s. apply changes_none. Qed.

Lemma changes_trigger a fresh e : changes a fresh (triggerHandler e).
Proof. intros s. apply changes_event. Qed.

Lemma changes_bind a fresh {A B} (m : M A) (k : A → M B) :
  changes a fresh m → (∀ x, changes a fresh (k x)) →
  changes a fresh (bind m k).
Proof. intros Hm Hk s. apply Changes_bind; [done|]. intros x s' _. apply Hk. Qed.

Lemma changes_getPane a fresh paneId :
  changes a fresh (_getPaneFromPaneId paneId).
Proof. intros s. rewrite getPaneFromPaneId_eq. apply changes_none. Qed.

Lemma changes_getPaneIdForPath a fresh path :
  changes a fresh (getPaneIdForPath path).
Proof. intros s. rewrite getPaneIdForPath_run. apply changes_none. Qed.

Lemma changes_callMethod a fresh {A} pane (method : Pane.t → Pane.t * A) :
  (∀ p, Within fresh p (method p).1) → changes a fresh (callMethod pane method).
Proof.
  intros Hw s. destruct pane as [key p0| |]; try apply changes_none.
  unfold callMethod.
  destruct (JsObject.getOwn _ _) as [p|] eqn:Hget; [|apply changes_none].
  specialize (Hw p). destruct (method p) as [p' x]. simpl in *.
  by eapply changes_pane.
Qed.

Lemma changes_readMethod a fresh {A} pane (method : Pane.t → A) :
  changes a fresh (readMethod pane method).
Proof. apply changes_callMethod. intros p. apply Within_refl. Qed.

Lemma changes_voidMethod a fresh pane (method : Pane.t → Pane.t) :
  (∀ p, Within fresh p (method p)) → changes a fresh (voidMethod pane method).
Proof. intros H. by apply changes_callMethod. Qed.

Lemma changes_forEachKey a fresh ks callback :
  (∀ pane, changes a fresh (callback pane)) →
  changes a fresh (forEachKey ks callback).
Proof.
  intros H. induction ks as [|k ks IH]; simpl; [apply changes_ret|].
  apply changes_bind; [apply changes_gets|]. intros slot.
  apply changes_bind; [apply H|]. by intros _.
Qed.

Lemma changes_forEachPane a fresh callback :
  (∀ pane, changes a fresh (callback pane)) →
  changes a fresh (forEachPane callback).
Proof.
  intros H. apply changes_bind; [apply changes_gets|]. intros ks.
  by apply changes_forEachKey.
Qed.

Lemma changes_forceFocus a fresh : changes a fresh forceFocusToActivePaneView.
Proof.
  unfold forceFocusToActivePaneView, _getActivePane.
  apply changes_bind.
  - apply changes_bind; [apply changes_gets|]. intros x. apply changes_getPane.
  - intros pane. apply changes_voidMethod. intros p. apply Within_refl.
Qed.

Lemma changes_setActivePaneId fresh newPaneId :
  changes true fresh (setActivePaneId newPaneId).
Proof.
  intros s. unfold setActivePaneId.
  apply Changes_bind; [apply changes_none|]. intros known s1 [= <- <-].
  apply Changes_bind; [apply changes_none|]. intros oldPaneId s1 [= <- <-].
  apply Changes_bind; [|intros _ s1 _; apply changes_forceFocus].
  destruct (JsObject.hasOwnProperty _ _) eqn:Hk; [|apply changes_none].
  case_bool_decide; [apply changes_none|]. simpl.
  apply Changes_bind; [by apply changes_active|]. intros _ s1 _.
  apply changes_bind; [apply changes_trigger|]. intros _.
  apply changes_bind.
  - apply changes_bind; [apply changes_gets|]. intros x. apply changes_getPane.
  - intros pane. apply changes_bind; [apply changes_readMethod|].
    intros current. apply changes_trigger.
Qed.

Ltac changes_step :=
  lazymatch goal with
  | |- changes _ _ (bind _ _) => apply changes_bind; [|intros ?]
  | |- changes _ _ (ret _) => apply changes_ret
  | |- changes _ _ throw => apply changes_throw
  | |- changes _ _ (gets _) => apply changes_gets
  | |- changes _ _ (triggerHandler _) => apply changes_trigger
  | |- changes _ _ (_getPaneFromPaneId _) => apply changes_getPane
  | |- changes _ _ (getPaneIdForPath _) => apply changes_getPaneIdForPath
  | |- changes _ _ (readMethod _ _) => apply changes_readMethod
  | |- changes _ _ (voidMethod _ _) => apply changes_voidMethod; intros ?
  | |- changes _ _ (callMethod _ _) => apply changes_callMethod; intros ?
  | |- changes _ _ (setActivePaneId _) => apply changes_setActivePaneId
  | |- changes _ _ forceFocusToActivePaneView => apply changes_forceFocus
  | |- changes _ _ (forEachPane _) => apply changes_forEachPane; intros ?
  | |- changes _ _ (if ?b then _ else _) => destruct b
  | |- changes _ _ (match ?x with _ => _ end) => destruct x
  end.

Ltac changes_auto :=
  repeat changes_step;
  try solve
    [ apply Within_refl
    | apply Evolves_Within;
      eauto using Evolves_removeFromViewList,
        Evolves_removeListFromViewList, Evolves_removeAllFromViewList,
        Evolves_doRemoveView, Evolves_doRemoveAllViews, Evolves_doRemoveViews,
        Evolves_makeViewMostRecent, Evolves_sortViewList,
        Evolves_swapViewListIndexes, Evolves_setCurrentView,
        Evolves_reorderItem ].

Lemma changes_addToPaneViewList canOpenFile a paneId f index force :
  changes a (λ g, g = f ∧ canOpenFile (fullPath g) = true)
    (addToPaneViewList canOpenFile paneId f index force).
Proof.
  unfold addToPaneViewList.
  destruct (canOpenFile (fullPath f)) eqn:Hcan.
  - changes_auto. eapply Within_weaken; [|apply Within_addToViewList].
    by intros g ->.
  - apply changes_bind; [apply changes_getPane|]. intros pane.
    apply changes_bind; [apply changes_getPaneIdForPath|]. intros current.
    simpl. rewrite orb_true_r. apply changes_ret.
Qed.

Lemma changes_addListToPaneViewList canOpenFile a paneId fileList :
  changes a (λ g, g ∈ fileList ∧ canOpenFile (fullPath g) = true)
    (addListToPaneViewList canOpenFile paneId fileList).
Proof.
  unfold addListToPaneViewList. changes_auto.
  apply Within_addListToViewList.
Qed.

Lemma changes__removeFromPaneViewList a fresh paneId f suppressRedraw :
  changes a fresh (_removeFromPaneViewList paneId f suppressRedraw).
Proof. unfold _removeFromPaneViewList. changes_auto. Qed.

Lemma changes__removeListFromPaneViewList a fresh paneId l :
  changes a fresh (_removeListFromPaneViewList paneId l).
Proof. unfold _removeListFromPaneViewList. changes_auto. Qed.

Lemma changes__removeAllFromPaneViewList a fresh paneId :
  changes a fresh (_removeAllFromPaneViewList paneId).
Proof. unfold _removeAllFromPaneViewList. changes_auto. Qed.

Lemma changes_makePaneViewMostRecent a fresh paneId f :
  changes a fresh (makePaneViewMostRecent paneId f).
Proof. unfold makePaneViewMostRecent. changes_auto. Qed.

Lemma changes_doEdit canOpenFile isWithinProject paneId doc :
  changes true (λ g, g = file doc ∧ canOpenFile (fullPath g) = true)
    (doEdit canOpenFile isWithinProject paneId doc).
Proof.
  unfold doEdit, doOpenDocument. changes_auto;
    try apply changes_addToPaneViewList;
    apply changes_makePaneViewMostRecent.
Qed.

Ltac as_changes :=
  lazymatch goal with
  | |- Changes ?a ?fresh ?s (?m ?s).2 =>
      generalize s; change (changes a fresh m)
  end.

Lemma step_Changes canOpenFile isWithinProject op s :
  isSplitCommand op = false →
  Changes (mayActivate op)
    (λ g, g ∈ filesOf op ∧ canOpenFile (fullPath g) = true)
    s (step canOpenFile isWithinProject op s).
Proof.
  destruct op; intros Hop; try discriminate Hop; cbn [step mayActivate filesOf].
  - eapply changes_weaken; [| |apply changes_addToPaneViewList]; [done|].
    intros g [-> Hg]. split; [left|done].
  - apply changes_addListToPaneViewList.
  - as_changes. unfold removeFromPaneViewList. changes_auto;
      apply changes__removeFromPaneViewList.
  - as_changes. unfold removeListFromPaneViewList. changes_auto;
      apply changes__removeListFromPaneViewList.
  - as_changes. unfold removeAllFromPaneViewList. changes_auto;
      apply changes__removeAllFromPaneViewList.
  - apply changes_makePaneViewMostRecent.
  - as_changes. unfold sortPaneViewList. changes_auto.
  - as_changes. unfold swapPaneViewListIndexes. changes_auto.
  - apply changes_forceFocus.
  - apply changes_setActivePaneId.
  - as_changes. unfold destroyEditorIfNotNeeded, _getPaneIdFromContainer.
    changes_auto.
  - eapply changes_weaken; [| |apply changes_doEdit]; [done|].
    intros g [-> Hg]. split; [left|done].
  - as_changes. unfold doOpen.
    destruct f as [f|]; [|apply changes_ret].
    apply changes_bind; [apply changes_getPaneIdForPath|]. intros currentPaneId.
    apply changes_bind; [changes_auto|]. intros paneId'.
    destruct openDoc as [doc|].
    + apply changes_bind; [|intros ?; apply changes_ret].
      eapply changes_weaken; [| |apply changes_doEdit]; [done|].
      intros g [-> Hg]. split; [left|done].
    + destruct (canOpenFile (fullPath f)); [|apply changes_ret].
      destruct load as [doc| |]; try apply changes_ret.
      apply changes_bind; [|intros ?; apply changes_ret].
      eapply changes_weaken; [| |apply changes_doEdit]; [done|].
      intros g [-> Hg]. split; [left|done].
  - as_changes. unfold doClose, findInPaneViewList, _doFindInViewList.
    changes_auto.
  - as_changes. unfold doCloseAll. changes_auto.
  - as_changes. unfold doCloseList. changes_auto.
  - as_changes. unfold _activeEditorChange, _getPaneIdFromContainer.
    changes_auto.
Qed.

Lemma keys_set {A} (o : JsObject.t A) k a a' :
  JsObject.getOwn o k = Some a →
  JsObject.keys (JsObject.set o k a') = JsObject.keys o.
Proof.
  unfold JsObject.keys.
  induction o as [|[k0 a0] o IH]; simpl; [done|].
  case_decide; subst; [done|]. intros Hget.
  rewrite fmap_cons. by rewrite IH.
Qed.

Lemma Changes_layout a fresh s s' :
  Changes a fresh s s' →
  JsObject.keys (_paneViews s') = JsObject.keys (_paneViews s) ∧
  _orientation s' = _orientation s ∧
  nextElement s' = nextElement s.
Proof.
  induction 1 as [s|s s' s'' _ (I1 & I2 & I3) _ (J1 & J2 & J3)|e s
                  |s key p p' Hget Hw|s k Ha Hk]; simpl.
  - done.
  - split_and!; congruence.
  - done.
  - split_and!; [by eapply keys_set|done|done].
  - done.
Qed.

Lemma Changes_ids a fresh s s' k :
  Changes a fresh s s' →
  Pane.id <$> JsObject.getOwn (_paneViews s') k
  = Pane.id <$> JsObject.getOwn (_paneViews s) k.
Proof.
  induction 1 as [s|s s' s'' _ I1 _ I2|e s|s key p p' Hget Hw|s k' Ha Hk];
    simpl; try done.
  - congruence.
  - rewrite getOwn_set. case_decide; [|done]. subst. rewrite Hget. simpl.
    f_equal. apply Hw.
Qed.

Lemma Changes_active fresh s s' :
  Changes false fresh s s' → _activePaneId s' = _activePaneId s.
Proof.
  induction 1 as [s|s s' s'' _ I1 _ I2|e s|s key p p' Hget Hw|s k' Ha Hk];
    simpl; try done.
  congruence.
Qed.

Lemma Changes_events a fresh s s' :
  Changes a fresh s s' → ∃ sent, events s' = events s ++ sent.
Proof.
  induction 1 as [s|s s' s'' _ [l1 I1] _ [l2 I2]|e s|s key p p' Hget Hw
                  |s k' Ha Hk]; simpl.
  - exists []. by rewrite app_nil_r.
  - exists (l1 ++ l2). by rewrite I2, I1, app_assoc.
  - by exists [e].
  - exists []. by rewrite app_nil_r.
  - exists []. by rewrite app_nil_r.
Qed.

Lemma Changes_Open a fresh s s' g :
  Changes a fresh s s' → Open s' g → Open s g ∨ fresh g.
Proof.
  induction 1 as [s|s s' s'' _ I1 _ I2|e s|s key p p' Hget Hw|s k' Ha Hk];
    simpl; auto.
  - intros Hg. destruct (I2 Hg) as [Hg'|Hg']; auto.
  - intros (k & q & Hq & Hg). simpl in Hq. rewrite getOwn_set in Hq.
    case_decide as Hk; [subst k|].
    + injection Hq as <-. destruct (within_files _ _ _ Hw g Hg) as [Hg'|Hg'];
        [|by right]. left. by exists key, p.
    + left. by exists k, q.
Qed.

(** X2. Only the two split commands create or destroy a pane or change the
    orientation: after any other call, on any state, [getPaneIdList],
    [getPaneCount] and [getSplitOrientation] answer what they answered
    before; the active pane is the same too, unless the call is one of
    [setActivePaneId], [doEdit], [doOpen] or the [activeEditorChange]
    handler; and the notifications sent before the call are still there,
    in order, followed by those the call sent. *)
Theorem X2_only_split_commands_change_layout canOpenFile isWithinProject op s :
  isSplitCommand op = false →
  (getPaneIdList (step canOpenFile isWithinProject op s)).1
    = (getPaneIdList s).1 ∧
  (getPaneCount (step canOpenFile isWithinProject op s)).1
    = (getPaneCount s).1 ∧
  (getSplitOrientation (step canOpenFile isWithinProject op s)).1
    = (getSplitOrientation s).1 ∧
  (mayActivate op = false →
   (getActivePaneId (step canOpenFile isWithinProject op s)).1
     = (getActivePaneId s).1) ∧
  ∃ sent, events (step canOpenFile isWithinProject op s) = events s ++ sent.
Proof.
  intros Hop.
  pose proof (step_Changes canOpenFile isWithinProject op s Hop) as Hch.
  destruct (Changes_layout _ _ _ _ Hch) as (Hkeys & Hor & _).
  unfold getPaneIdList, getPaneCount, getSplitOrientation, getActivePaneId,
    gets. cbn [fst].
  split_and!.
  - by rewrite Hkeys.
  - by rewrite Hkeys.
  - by rewrite Hor.
  - intros Hno. rewrite Hno in Hch. f_equal. by eapply Changes_active.
  - by eapply Changes_events.
Qed.

Lemma X2_only_split_commands_witness :
  (getPaneIdList
     (step (λ _, true) (λ _, true) (OpDoCloseAll ALL_PANES) splitExample)).1
    = (getPaneIdList splitExample).1 ∧
  (getPaneCount
     (step (λ _, true) (λ _, true) (OpDoCloseAll ALL_PANES) splitExample)).1
    = (getPaneCount splitExample).1 ∧
  (getSplitOrientation
     (step (λ _, true) (λ _, true) (OpDoCloseAll ALL_PANES) splitExample)).1
    = (getSplitOrientation splitExample).1 ∧
  (mayActivate (OpDoCloseAll ALL_PANES) = false →
   (getActivePaneId
      (step (λ _, true) (λ _, true) (OpDoCloseAll ALL_PANES) splitExample)).1
     = (getActivePaneId splitExample).1) ∧
  ∃ sent,
    events (step (λ _, true) (λ _, true) (OpDoCloseAll ALL_PANES) splitExample)
    = events splitExample ++ sent.
Proof.
  apply (X2_only_split_commands_change_layout (λ _, true) (λ _, true)
           (OpDoCloseAll ALL_PANES) splitExample).
  reflexivity.
Defined.

(** ** The split commands *)

Lemma doUnsplit_Inv_run s :
  Inv s →
  _doUnsplit s
  = (Ok tt,
     if JsObject.hasOwnProperty (_paneViews s) SECOND_PANE then unsplit s
     else s).
Proof.
  intros [H1 H2 H3 H4].
  destruct (JsObject.hasOwnProperty (_paneViews s) SECOND_PANE) eqn:Hk;
    [|by apply doUnsplit_unsplit].
  destruct H1 as (p1 & Hid1 & [Hreg|(p2 & Hid2 & Hreg)]);
    [by rewrite Hreg in Hk|].
  apply (doUnsplit_run s p1 p2); [by rewrite Hreg|by rewrite Hreg|done].
Qed.

Lemma splitCommand_run orientation s :
  Inv s →
  splitCommand orientation s
  = (Ok tt,
     if decide (_orientation s = Some orientation) then
       if JsObject.hasOwnProperty (_paneViews s) SECOND_PANE then unsplit s
       else s
     else splitInto orientation s).
Proof.
  intros HI.
  destruct orientation; simpl;
    unfold _handleSplitVertically, _handleSplitHorizontially;
    unfold bind at 1, gets at 1; case_decide;
    by rewrite ?doUnsplit_Inv_run, ?doSplit_run.
Qed.

Lemma unsplit_split s p1 p2 :
  _paneViews s = [(FIRST_PANE, p1); (SECOND_PANE, p2)] →
  Pane.id p1 = FIRST_PANE → Pane.id p2 = SECOND_PANE →
  unsplit s
  = mkState [(FIRST_PANE, Pane.mergeWith p2 p1)] FIRST_PANE None
      (nextElement s)
      (events s
       ++ [paneViewListRemoveList (Pane._viewList p2) SECOND_PANE]
       ++ (if decide (_activePaneId s = FIRST_PANE) then []
           else [activePaneChange FIRST_PANE (_activePaneId s);
                 currentFileChanged (Pane._currentView p1) FIRST_PANE])
       ++ [paneDestroyed SECOND_PANE;
           paneViewListAddList (Pane._viewList p2) FIRST_PANE;
           paneLayoutChange None]).
Proof.
  intros Hreg Hid1 Hid2. unfold unsplit. rewrite Hreg.
  change (JsObject.getOwn _ FIRST_PANE) with (Some p1).
  change (JsObject.getOwn _ SECOND_PANE) with (Some p2).
  cbv beta iota zeta. rewrite Hid1, Hid2.
  change (JsObject.set _ FIRST_PANE (Pane.mergeWith p2 p1))
    with [(FIRST_PANE, Pane.mergeWith p2 p1); (SECOND_PANE, p2)].
  unfold activated.
  cbn [_paneViews _activePaneId addEvent setPaneViews].
  change (JsObject.getOwn _ FIRST_PANE) with (Some (Pane.mergeWith p2 p1)).
  cbv iota. unfold Pane.getViewList.
  case_decide as Ha.
  - rewrite decide_True by done. destruct s; simpl in *. subst.
    unfold addEvent, setOrientation, setPaneViews; simpl.
    by rewrite <- !app_assoc.
  - rewrite decide_False by done. destruct s; simpl in *. subst.
    unfold addEvent, setOrientation, setPaneViews; simpl.
    by rewrite <- !app_assoc.
Qed.

Lemma hasOwnProperty_same_keys {A} (o o' : JsObject.t A) k :
  JsObject.keys o' = JsObject.keys o →
  JsObject.hasOwnProperty o' k = JsObject.hasOwnProperty o k.
Proof.
  intros Hkeys. apply eq_true_iff_eq. by rewrite !hasOwnProperty_keys, Hkeys.
Qed.

Lemma splitInto_unsplit orientation s p1 :
  _paneViews s = [(FIRST_PANE, p1)] →
  splitInto orientation s
  = mkState
      [(FIRST_PANE, p1); (SECOND_PANE, Pane.new SECOND_PANE (nextElement s))]
      (_activePaneId s) (Some orientation) (S (nextElement s))
      (events s ++ [paneCreated SECOND_PANE;
                    paneLayoutChange (Some orientation)]).
Proof.
  intros Hreg. unfold splitInto. rewrite Hreg.
  change (JsObject.hasOwnProperty _ SECOND_PANE) with false. cbv iota.
  change (JsObject.set _ SECOND_PANE (Pane.new SECOND_PANE (nextElement s)))
    with [(FIRST_PANE, p1);
          (SECOND_PANE, Pane.new SECOND_PANE (nextElement s))].
  unfold addEvent, setOrientation, setPaneViews, setNextElement; simpl.
  by rewrite <- app_assoc.
Qed.

Lemma splitInto_split orientation s :
  JsObject.hasOwnProperty (_paneViews s) SECOND_PANE = true →
  splitInto orientation s
  = addEvent (paneLayoutChange (Some orientation))
      (setOrientation (Some orientation) s).
Proof. intros Hk. unfold splitInto. by rewrite Hk. Qed.

Lemma Shape_cases o :
  Shape o →
  (JsObject.hasOwnProperty o SECOND_PANE = false ∧
   ∃ p1, Pane.id p1 = FIRST_PANE ∧ o = [(FIRST_PANE, p1)]) ∨
  (JsObject.hasOwnProperty o SECOND_PANE = true ∧
   ∃ p1 p2, Pane.id p1 = FIRST_PANE ∧ Pane.id p2 = SECOND_PANE ∧
            o = [(FIRST_PANE, p1); (SECOND_PANE, p2)]).
Proof.
  intros (p1 & Hid1 & [->|(p2 & Hid2 & ->)]); [left|right];
    (split; [done|eauto 6]).
Qed.


(** The two halves make up [_doUnsplit], in every state. *)
Lemma doUnsplit_halves s :
  _doUnsplit s
  = (let* split :=
       gets (λ s, JsObject.hasOwnProperty (_paneViews s) SECOND_PANE) in
     if split then
       let* firstPane := paneAt FIRST_PANE in
       let* secondPane := paneAt SECOND_PANE in
       let* fileList := _doUnsplit_activate firstPane secondPane in
       _doUnsplit_destroy firstPane secondPane fileList
     else ret tt) s.
Proof.
  unfold _doUnsplit, _doUnsplit_activate, _doUnsplit_destroy, bind, gets.
  destruct (JsObject.hasOwnProperty _ _); [|done].
  destruct (paneAt FIRST_PANE s) as [[firstPane|] s1]; [|done].
  destruct (paneAt SECOND_PANE s1) as [[secondPane|] s2]; [|done].
  destruct (readMethod secondPane Pane.getViewList s2) as [[fileList|] s3];
    [|done].
  destruct (readMethod secondPane _ s3) as [[other|] s4]; [|done].
  destruct (voidMethod firstPane _ s4) as [[[]|] s5]; [|done].
  destruct (triggerHandler _ s5) as [[[]|] s6]; [|done].
  by destruct (setActivePaneId _ s6) as [[[]|] s7].
Qed.




Lemma splitCommand_SplitConsistent orientation s :
  Inv s → SplitConsistent s → SplitConsistent (splitCommand orientation s).2.
Proof.
  intros HI Hs. rewrite splitCommand_run by done. cbn [snd].
  unfold SplitConsistent in *.
  destruct (Shape_cases _ (inv_shape _ HI))
    as [(Hk & p1 & Hid1 & Hreg)|(Hk & p1 & p2 & Hid1 & Hid2 & Hreg)].
  - rewrite Hk. case_decide as Ho; [done|].
    by rewrite (splitInto_unsplit _ _ p1 Hreg).
  - rewrite Hk. case_decide as Ho.
    + by rewrite (unsplit_split s p1 p2).
    + rewrite splitInto_split by done. simpl. by rewrite Hk.
Qed.

Lemma step_SplitConsistent canOpenFile isWithinProject op s :
  Inv s → SplitConsistent s →
  SplitConsistent (step canOpenFile isWithinProject op s).
Proof.
  intros HI Hs.
  destruct (isSplitCommand op) eqn:Hop.
  - destruct op; try discriminate Hop.
    + by apply (splitCommand_SplitConsistent VERTICAL).
    + by apply (splitCommand_SplitConsistent HORIZONTAL).
  - pose proof (step_Changes canOpenFile isWithinProject op s Hop) as Hch.
    destruct (Changes_layout _ _ _ _ Hch) as (Hkeys & Hor & _).
    unfold SplitConsistent.
    by rewrite Hor, (hasOwnProperty_same_keys _ _ _ Hkeys).
Qed.

Lemma reachable_SplitConsistent canOpenFile isWithinProject s :
  reachable canOpenFile isWithinProject s → SplitConsistent s.
Proof.
  induction 1 as [|op s Hreach IH]; [done|].
  apply step_SplitConsistent; [by eapply reachable_Inv|done].
Qed.

(** X3. In every reachable state the orientation tells whether the editor
    is split: either [getSplitOrientation] answers null, the first pane is
    the only one and is the active one, or it answers an orientation and the
    panes are the first and the second, in this order, one of them
    active. *)
Theorem X3_orientation_tells_split canOpenFile isWithinProject s :
  reachable canOpenFile isWithinProject s →
  ((getSplitOrientation s).1 = Ok None ∧
   (getPaneIdList s).1 = Ok [FIRST_PANE] ∧
   (getPaneCount s).1 = Ok 1%nat ∧
   (getActivePaneId s).1 = Ok FIRST_PANE) ∨
  (∃ orientation,
     (getSplitOrientation s).1 = Ok (Some orientation) ∧
     (getPaneIdList s).1 = Ok [FIRST_PANE; SECOND_PANE] ∧
     (getPaneCount s).1 = Ok 2%nat ∧
     ((getActivePaneId s).1 = Ok FIRST_PANE ∨
      (getActivePaneId s).1 = Ok SECOND_PANE)).
Proof.
  intros Hreach.
  pose proof (reachable_SplitConsistent _ _ _ Hreach) as Hs.
  pose proof (reachable_Inv _ _ _ Hreach) as HI.
  pose proof (inv_active _ HI) as Ha.
  unfold getSplitOrientation, getPaneIdList, getPaneCount, getActivePaneId,
    gets, SplitConsistent in *. cbn [fst].
  destruct (Shape_cases _ (inv_shape _ HI))
    as [(Hk & p1 & Hid1 & Hreg)|(Hk & p1 & p2 & Hid1 & Hid2 & Hreg)].
  - left. rewrite Hreg in *. split_and!; try done.
    + f_equal. by apply Hs.
    + f_equal. apply hasOwnProperty_keys in Ha.
      by apply list_elem_of_singleton in Ha.
  - right. destruct (_orientation s) as [o|] eqn:Ho.
    + exists o. rewrite Hreg in *. split_and!; try done.
      apply hasOwnProperty_keys in Ha. cbn in Ha.
      apply elem_of_cons in Ha as [->|Ha]; [by left|].
      apply list_elem_of_singleton in Ha as ->. by right.
    + destruct Hs as [Hs _]. rewrite Hs in Hk; done.
Qed.

Lemma X3_orientation_tells_split_witness :
  ((getSplitOrientation splitExample).1 = Ok None ∧
   (getPaneIdList splitExample).1 = Ok [FIRST_PANE] ∧
   (getPaneCount splitExample).1 = Ok 1%nat ∧
   (getActivePaneId splitExample).1 = Ok FIRST_PANE) ∨
  (∃ orientation,
     (getSplitOrientation splitExample).1 = Ok (Some orientation) ∧
     (getPaneIdList splitExample).1 = Ok [FIRST_PANE; SECOND_PANE] ∧
     (getPaneCount splitExample).1 = Ok 2%nat ∧
     ((getActivePaneId splitExample).1 = Ok FIRST_PANE ∨
      (getActivePaneId splitExample).1 = Ok SECOND_PANE)).
Proof.
  apply (X3_orientation_tells_split (λ _, true) (λ _, true) splitExample).
  exact splitExample_reachable.
Defined.

Lemma mergeWith_new p paneId element :
  Pane.mergeWith (Pane.new paneId element) p = p.
Proof.
  destruct p. unfold Pane.mergeWith, Pane.setLists. simpl.
  by rewrite !app_nil_r.
Qed.

(** X4. A split command given while the editor is not split answers without
    throwing; it registers a second pane that holds no file, after the first
    pane, which it leaves as it is; the active pane stays the active one,
    the orientation becomes the one of the command, and [paneCreated] for
    the second pane and then [paneLayoutChange] are sent. *)
Theorem X4_split_command_creates_second_pane canOpenFile isWithinProject s
    orientation :
  reachable canOpenFile isWithinProject s →
  _orientation s = None →
  ∃ p1 p2 s',
    splitCommand orientation s = (Ok tt, s') ∧
    _paneViews s = [(FIRST_PANE, p1)] ∧
    _paneViews s' = [(FIRST_PANE, p1); (SECOND_PANE, p2)] ∧
    Pane.id p2 = SECOND_PANE ∧ Pane._viewList p2 = [] ∧
    Pane._currentView p2 = None ∧
    _activePaneId s' = _activePaneId s ∧
    _orientation s' = Some orientation ∧
    events s' = events s ++ [paneCreated SECOND_PANE;
                             paneLayoutChange (Some orientation)].
Proof.
  intros Hreach Ho.
  pose proof (reachable_SplitConsistent _ _ _ Hreach) as Hs.
  pose proof (reachable_Inv _ _ _ Hreach) as HI.
  destruct (Shape_cases _ (inv_shape _ HI))
    as [(Hk & p1 & Hid1 & Hreg)|(Hk & p1 & p2 & Hid1 & Hid2 & Hreg)].
  - exists p1, (Pane.new SECOND_PANE (nextElement s)). eexists.
    rewrite splitCommand_run by done. rewrite decide_False by by rewrite Ho.
    rewrite (splitInto_unsplit _ _ p1 Hreg). by split_and!.
  - apply Hs in Ho. by rewrite Ho in Hk.
Qed.

Lemma X4_split_command_witness :
  ∃ p1 p2 s',
    splitCommand HORIZONTAL initialState = (Ok tt, s') ∧
    _paneViews initialState = [(FIRST_PANE, p1)] ∧
    _paneViews s' = [(FIRST_PANE, p1); (SECOND_PANE, p2)] ∧
    Pane.id p2 = SECOND_PANE ∧ Pane._viewList p2 = [] ∧
    Pane._currentView p2 = None ∧
    _activePaneId s' = _activePaneId initialState ∧
    _orientation s' = Some HORIZONTAL ∧
    events s' = events initialState
                ++ [paneCreated SECOND_PANE;
                    paneLayoutChange (Some HORIZONTAL)].
Proof.
  apply (X4_split_command_creates_second_pane (λ _, true) (λ _, true)
           initialState HORIZONTAL).
  - apply reachable_init.
  - reflexivity.
Defined.

(** X5. A split command given while the editor is split along the other
    axis answers without throwing and only turns the split: the panes, their
    files and the active pane are as before, no pane is created or
    destroyed, the orientation becomes the one of the command and one
    [paneLayoutChange] is sent. *)
Theorem X5_split_command_turns_split canOpenFile isWithinProject s
    orientation other :
  reachable canOpenFile isWithinProject s →
  _orientation s = Some other → other ≠ orientation →
  ∃ s',
    splitCommand orientation s = (Ok tt, s') ∧
    _paneViews s' = _paneViews s ∧
    JsObject.keys (_paneViews s') = [FIRST_PANE; SECOND_PANE] ∧
    _activePaneId s' = _activePaneId s ∧
    nextElement s' = nextElement s ∧
    _orientation s' = Some orientation ∧
    events s' = events s ++ [paneLayoutChange (Some orientation)].
Proof.
  intros Hreach Ho Hne.
  pose proof (reachable_SplitConsistent _ _ _ Hreach) as Hs.
  pose proof (reachable_Inv _ _ _ Hreach) as HI.
  destruct (Shape_cases _ (inv_shape _ HI))
    as [(Hk & p1 & Hid1 & Hreg)|(Hk & p1 & p2 & Hid1 & Hid2 & Hreg)].
  - apply Hs in Hk. by rewrite Hk in Ho.
  - eexists. rewrite splitCommand_run by done.
    rewrite decide_False by (rewrite Ho; congruence).
    rewrite splitInto_split by done. split_and!; try done.
    simpl. by rewrite Hreg.
Qed.

Lemma X5_split_command_turns_witness :
  ∃ s',
    splitCommand HORIZONTAL splitExample = (Ok tt, s') ∧
    _paneViews s' = _paneViews splitExample ∧
    JsObject.keys (_paneViews s') = [FIRST_PANE; SECOND_PANE] ∧
    _activePaneId s' = _activePaneId splitExample ∧
    nextElement s' = nextElement splitExample ∧
    _orientation s' = Some HORIZONTAL ∧
    events s' = events splitExample ++ [paneLayoutChange (Some HORIZONTAL)].
Proof.
  apply (X5_split_command_turns_split (λ _, true) (λ _, true) splitExample
           HORIZONTAL VERTICAL).
  - exact splitExample_reachable.
  - reflexivity.
  - discriminate.
Defined.

(** X6. A split command given while the editor is split along the axis of
    the command unsplits it, and sends, in this order:
    [paneViewListRemoveList] with the files of the second pane; when the
    second pane was the active one, [activePaneChange] to the first pane and
    [currentFileChanged] with the file the first pane shows;
    [paneDestroyed] for the second pane; [paneViewListAddList] with the same
    files for the first pane; and [paneLayoutChange] with null.  The
    orientation is null afterwards and no new element was created. *)
Theorem X6_split_command_unsplits canOpenFile isWithinProject s orientation :
  reachable canOpenFile isWithinProject s →
  _orientation s = Some orientation →
  ∃ p1 p2 s',
    splitCommand orientation s = (Ok tt, s') ∧
    _paneViews s = [(FIRST_PANE, p1); (SECOND_PANE, p2)] ∧
    _orientation s' = None ∧
    nextElement s' = nextElement s ∧
    events s'
    = events s
      ++ [paneViewListRemoveList (Pane._viewList p2) SECOND_PANE]
      ++ (if decide (_activePaneId s = SECOND_PANE)
          then [activePaneChange FIRST_PANE SECOND_PANE;
                currentFileChanged (Pane._currentView p1) FIRST_PANE]
          else [])
      ++ [paneDestroyed SECOND_PANE;
          paneViewListAddList (Pane._viewList p2) FIRST_PANE;
          paneLayoutChange None].
Proof.
  intros Hreach Ho.
  pose proof (reachable_SplitConsistent _ _ _ Hreach) as Hs.
  pose proof (reachable_Inv _ _ _ Hreach) as HI.
  pose proof (inv_active _ HI) as Ha.
  destruct (Shape_cases _ (inv_shape _ HI))
    as [(Hk & p1 & Hid1 & Hreg)|(Hk & p1 & p2 & Hid1 & Hid2 & Hreg)].
  - apply Hs in Hk. by rewrite Hk in Ho.
  - exists p1, p2. eexists. rewrite splitCommand_run by done.
    rewrite decide_True by done. rewrite Hk.
    rewrite (unsplit_split s p1 p2) by done. split_and!; try done. simpl.
    do 2 f_equal.
    apply hasOwnProperty_keys in Ha. rewrite Hreg in Ha. cbn in Ha.
    apply elem_of_cons in Ha as [Ha|Ha%list_elem_of_singleton]; rewrite Ha.
    + by rewrite decide_True, decide_False.
    + by rewrite decide_False, decide_True.
Qed.

Lemma X6_split_command_unsplits_witness :
  ∃ p1 p2 s',
    splitCommand VERTICAL splitExample = (Ok tt, s') ∧
    _paneViews splitExample = [(FIRST_PANE, p1); (SECOND_PANE, p2)] ∧
    _orientation s' = None ∧
    nextElement s' = nextElement splitExample ∧
    events s'
    = events splitExample
      ++ [paneViewListRemoveList (Pane._viewList p2) SECOND_PANE]
      ++ (if decide (_activePaneId splitExample = SECOND_PANE)
          then [activePaneChange FIRST_PANE SECOND_PANE;
                currentFileChanged (Pane._currentView p1) FIRST_PANE]
          else [])
      ++ [paneDestroyed SECOND_PANE;
          paneViewListAddList (Pane._viewList p2) FIRST_PANE;
          paneLayoutChange None].
Proof.
  apply (X6_split_command_unsplits (λ _, true) (λ _, true) splitExample
           VERTICAL).
  - exact splitExample_reachable.
  - reflexivity.
Defined.

(** X7. Splitting and unsplitting at once is a round trip: from a state that
    is not split, the same split command given twice leaves the registry,
    with the first pane and its three orders of files, the active pane and
    the orientation as they were; only the element counter and the
    notifications tell that a pane was created and destroyed. *)
Theorem X7_split_then_unsplit canOpenFile isWithinProject s orientation :
  reachable canOpenFile isWithinProject s →
  _orientation s = None →
  ∃ s1 s2,
    splitCommand orientation s = (Ok tt, s1) ∧
    splitCommand orientation s1 = (Ok tt, s2) ∧
    _paneViews s2 = _paneViews s ∧
    _activePaneId s2 = _activePaneId s ∧
    _orientation s2 = _orientation s ∧
    nextElement s2 = S (nextElement s) ∧
    events s2
    = events s
      ++ [paneCreated SECOND_PANE;
          paneLayoutChange (Some orientation);
          paneViewListRemoveList [] SECOND_PANE;
          paneDestroyed SECOND_PANE;
          paneViewListAddList [] FIRST_PANE;
          paneLayoutChange None].
Proof.
  intros Hreach Ho.
  pose proof (reachable_SplitConsistent _ _ _ Hreach) as Hs.
  pose proof (reachable_Inv _ _ _ Hreach) as HI.
  pose proof (inv_active _ HI) as Ha.
  destruct (Shape_cases _ (inv_shape _ HI))
    as [(Hk & p1 & Hid1 & Hreg)|(Hk & p1 & p2 & Hid1 & Hid2 & Hreg)];
    [|apply Hs in Ho; by rewrite Ho in Hk].
  assert (_activePaneId s = FIRST_PANE) as Hfirst.
  { apply hasOwnProperty_keys in Ha. rewrite Hreg in Ha.
    by apply list_elem_of_singleton in Ha. }
  assert (Inv (splitCommand orientation s).2) as HI1.
  { destruct orientation; simpl;
      [apply keeps__handleSplitVertically
      |apply keeps__handleSplitHorizontially]; done. }
  do 2 eexists. split; [|split].
  - rewrite splitCommand_run by done. rewrite decide_False by by rewrite Ho.
    by rewrite (splitInto_unsplit _ _ p1 Hreg).
  - rewrite splitCommand_run.
    + rewrite decide_True by done. cbn [_paneViews].
      change (JsObject.hasOwnProperty _ SECOND_PANE) with true. cbv iota.
      by rewrite (unsplit_split _ p1 (Pane.new SECOND_PANE (nextElement s))).
    + rewrite splitCommand_run in HI1 by done.
      rewrite decide_False in HI1 by by rewrite Ho.
      by rewrite (splitInto_unsplit _ _ p1 Hreg) in HI1.
  - simpl. rewrite mergeWith_new, Hreg, Hfirst, Ho.
    rewrite decide_True by done. split_and!; try done.
    by rewrite <- app_assoc.
Qed.

Lemma X7_split_then_unsplit_witness :
  ∃ s1 s2,
    splitCommand VERTICAL editExample = (Ok tt, s1) ∧
    splitCommand VERTICAL s1 = (Ok tt, s2) ∧
    _paneViews s2 = _paneViews editExample ∧
    _activePaneId s2 = _activePaneId editExample ∧
    _orientation s2 = _orientation editExample ∧
    nextElement s2 = S (nextElement editExample) ∧
    events s2
    = events editExample
      ++ [paneCreated SECOND_PANE;
          paneLayoutChange (Some VERTICAL);
          paneViewListRemoveList [] SECOND_PANE;
          paneDestroyed SECOND_PANE;
          paneViewListAddList [] FIRST_PANE;
          paneLayoutChange None].
Proof.
  apply (X7_split_then_unsplit (λ _, true) (λ _, true) editExample VERTICAL).
  - exact editExample_reachable.
  - reflexivity.
Defined.

(** ** The files in the view lists *)

Lemma splitCommand_Open orientation s g :
  Inv s → Open (splitCommand orientation s).2 g → Open s g.
Proof.
  intros HI. rewrite splitCommand_run by done. cbn [snd].
  destruct (Shape_cases _ (inv_shape _ HI))
    as [(Hk & p1 & Hid1 & Hreg)|(Hk & p1 & p2 & Hid1 & Hid2 & Hreg)];
    rewrite Hk.
  - case_decide as Ho; [done|].
    rewrite (splitInto_unsplit _ _ p1 Hreg).
    intros (k & q & Hq & Hg). unfold Open. rewrite Hreg.
    cbn in Hq. repeat case_decide; simplify_eq.
    + exists FIRST_PANE, q. cbn. by rewrite decide_True.
    + by apply elem_of_nil in Hg.
  - case_decide as Ho.
    + rewrite (unsplit_split s p1 p2) by done.
      intros (k & q & Hq & Hg). unfold Open. rewrite Hreg.
      cbn in Hq. case_decide; simplify_eq.
      cbn in Hg. apply elem_of_app in Hg as [Hg|Hg].
      * exists FIRST_PANE, p1. cbn. by rewrite decide_True.
      * exists SECOND_PANE, p2. cbn. by rewrite decide_False, decide_True.
    + by rewrite splitInto_split.
Qed.

Lemma step_Open canOpenFile isWithinProject op s g :
  Inv s → Open (step canOpenFile isWithinProject op s) g →
  Open s g ∨ (g ∈ filesOf op ∧ canOpenFile (fullPath g) = true).
Proof.
  intros HI Hg.
  destruct (isSplitCommand op) eqn:Hop.
  - left. destruct op; try discriminate Hop.
    + by apply (splitCommand_Open VERTICAL).
    + by apply (splitCommand_Open HORIZONTAL).
  - pose proof (step_Changes canOpenFile isWithinProject op s Hop) as Hch.
    by apply (Changes_Open _ _ _ _ g Hch).
Qed.

(** X8. Files enter the view lists only by name: a file that is in the view
    list of some pane after a call, made in a reachable state, was in the
    view list of some pane before it, or is a file the call was given (the
    file of [addToPaneViewList], a file of the list of
    [addListToPaneViewList], the file of the document of [doEdit] or
    [doOpen]) and needs no custom viewer.  The split commands and the
    remove, close, sort and swap calls bring in no file at all. *)
Theorem X8_files_enter_by_name canOpenFile isWithinProject op s g :
  reachable canOpenFile isWithinProject s →
  Open (step canOpenFile isWithinProject op s) g →
  Open s g ∨ (g ∈ filesOf op ∧ canOpenFile (fullPath g) = true).
Proof.
  intros Hreach. apply step_Open. by eapply reachable_Inv.
Qed.

Lemma X8_files_enter_by_name_witness :
  Open initialState (mkFile "/a.js") ∨
  (mkFile "/a.js"
     ∈ filesOf (OpDoEdit FIRST_PANE (mkDocument (mkFile "/a.js") true)) ∧
   (λ _ : string, true) (fullPath (mkFile "/a.js")) = true).
Proof.
  apply (X8_files_enter_by_name (λ _, true) (λ _, true)
           (OpDoEdit FIRST_PANE (mkDocument (mkFile "/a.js") true))
           initialState (mkFile "/a.js")).
  - apply reachable_init.
  - exists FIRST_PANE.
    exists (Pane.mk FIRST_PANE 0 [mkFile "/a.js"] [mkFile "/a.js"]
              [mkFile "/a.js"] (Some (mkFile "/a.js"))).
    split; [reflexivity|]. simpl. left.
Defined.

(** X9. No pane of a reachable state holds a file that needs a custom
    viewer: every file in a view list passes [EditorManager.canOpenFile]. *)
Theorem X9_no_custom_viewer_file_in_a_pane canOpenFile isWithinProject s g :
  reachable canOpenFile isWithinProject s →
  Open s g → canOpenFile (fullPath g) = true.
Proof.
  induction 1 as [|op s Hreach IH].
  - intros (k & q & Hq & Hg). cbn in Hq. case_decide; simplify_eq.
    by apply elem_of_nil in Hg.
  - intros Hg. apply step_Open in Hg; [|by eapply reachable_Inv].
    destruct Hg as [Hg|[_ Hg]]; auto.
Qed.

Lemma X9_no_custom_viewer_witness :
  (λ path : string, negb (String.eqb path "/image.png"))
    (fullPath (mkFile "/a.js")) = true.
Proof.
  apply (X9_no_custom_viewer_file_in_a_pane
           (λ path, negb (String.eqb path "/image.png")) (λ _, true)
           (run (λ path, negb (String.eqb path "/image.png")) (λ _, true)
              [OpAddListToPaneViewList FIRST_PANE
                 [mkFile "/image.png"; mkFile "/a.js"]]
              initialState)
           (mkFile "/a.js")).
  - apply run_reachable. apply reachable_init.
  - exists FIRST_PANE.
    exists (Pane.mk FIRST_PANE 0 [mkFile "/a.js"] [mkFile "/a.js"]
              [mkFile "/a.js"] None).
    split; [reflexivity|]. simpl. left.
Defined.

(** ** Calls that answer *)

Lemma step_call canOpenFile isWithinProject op s :
  step canOpenFile isWithinProject op s
  = (call canOpenFile isWithinProject op s).2.
Proof. destruct op; try done. simpl. by rewrite bind_ret_state. Qed.

Lemma safe_ret key {A} (x : A) : safe key (ret x).
Proof. intros s _ _. by eexists. Qed.

Lemma safe_gets key {A} (f : State → A) : safe key (gets f).
Proof. intros s _ _. by eexists. Qed.

Lemma safe_trigger key e : safe key (triggerHandler e).
Proof. intros s _ _. by eexists. Qed.

Lemma safe_getPane key paneId : safe key (_getPaneFromPaneId paneId).
Proof. intros s _ _. rewrite getPaneFromPaneId_eq. by eexists. Qed.

Lemma safe_getPaneIdForPath key path : safe key (getPaneIdForPath path).
Proof. intros s _ _. rewrite getPaneIdForPath_run. by eexists. Qed.

Lemma safe_callMethod key {A} p0 (method : Pane.t → Pane.t * A) :
  safe key (callMethod (IsPane key p0) method).
Proof.
  intros s _ Hk. unfold callMethod, JsObject.hasOwnProperty in *.
  destruct (JsObject.getOwn _ _) as [p|]; [|done].
  destruct (method p). by eexists.
Qed.

Lemma safe_bind key {A B} (m : M A) (k : A → M B) :
  safe key m → keeps m → changes true (λ _, True) m →
  (∀ x, safe key (k x)) → safe key (bind m k).
Proof.
  intros Hm Hkeeps Hch Hk s HI Hkey.
  destruct (Hm s HI Hkey) as [x Hx].
  specialize (Hkeeps s HI). specialize (Hch s).
  apply Changes_layout in Hch as (Hkeys & _).
  unfold bind. destruct (m s) as [[x'|] s']; simpl in *; [|done].
  apply Hk; [done|]. by rewrite (hasOwnProperty_same_keys _ _ _ Hkeys).
Qed.

Lemma safe_forceFocus key : safe key forceFocusToActivePaneView.
Proof.
  intros s HI _. rewrite forceFocus_run by apply HI. by eexists.
Qed.

Lemma safe_setActivePaneId key newPaneId : safe key (setActivePaneId newPaneId).
Proof.
  intros s HI _. rewrite setActivePaneId_run by apply HI. by eexists.
Qed.

Lemma total_ret {A} (x : A) : total (ret x).
Proof. intros s. by eexists. Qed.

Lemma total_gets {A} (f : State → A) : total (gets f).
Proof. intros s. by eexists. Qed.

Lemma total_trigger e : total (triggerHandler e).
Proof. intros s. by eexists. Qed.

Lemma total_bind {A B} (m : M A) (k : A → M B) :
  total m → (∀ x, total (k x)) → total (bind m k).
Proof.
  intros Hm Hk s. destruct (Hm s) as [x Hx]. unfold bind.
  destruct (m s) as [[x'|] s']; simpl in *; [apply Hk|done].
Qed.

Ltac total_step :=
  lazymatch goal with
  | |- total (bind _ _) => apply total_bind; [|intros ?]
  | |- total (ret _) => apply total_ret
  | |- total (gets _) => apply total_gets
  | |- total (triggerHandler _) => apply total_trigger
  | |- total (if ?b then _ else _) => destruct b
  | |- total (match ?x with _ => _ end) => destruct x
  end.

Ltac total_auto := repeat total_step.

Lemma safe_total key {A} (m : M A) : total m → safe key m.
Proof. intros H s _ _. apply H. Qed.

Lemma safe_bind_total key {A B} (m : M A) (k : A → M B) :
  safe key m → (∀ x, total (k x)) → safe key (bind m k).
Proof.
  intros Hm Hk s HI Hkey. destruct (Hm s HI Hkey) as [x Hx]. unfold bind.
  destruct (m s) as [[x'|] s']; simpl in *; [apply Hk|done].
Qed.

Ltac safe_step :=
  lazymatch goal with
  | |- safe _ (bind _ _) =>
      first
        [ apply safe_bind_total; [|intros ?; solve [total_auto]]
        | apply safe_bind;
          [|solve [keeps_auto]|solve [changes_auto]|intros ?] ]
  | |- safe _ (ret _) => apply safe_ret
  | |- safe _ (gets _) => apply safe_gets
  | |- safe _ (triggerHandler _) => apply safe_trigger
  | |- safe _ (_getPaneFromPaneId _) => apply safe_getPane
  | |- safe _ (getPaneIdForPath _) => apply safe_getPaneIdForPath
  | |- safe _ (readMethod _ _) => apply safe_callMethod
  | |- safe _ (voidMethod _ _) => apply safe_callMethod
  | |- safe _ (callMethod _ _) => apply safe_callMethod
  | |- safe _ (setActivePaneId _) => apply safe_setActivePaneId
  | |- safe _ forceFocusToActivePaneView => apply safe_forceFocus
  | |- safe _ (if ?b then _ else _) => destruct b
  | |- safe _ (match ?x with _ => _ end) => destruct x
  end.

Ltac safe_auto := repeat safe_step.

Lemma refAt_unknown s key :
  JsObject.hasOwnProperty (_paneViews s) key = false →
  key ∉ JsObject.Object_prototype → refAt s key = Null.
Proof.
  unfold JsObject.hasOwnProperty, refAt, JsObject.get.
  destruct (JsObject.getOwn _ _); [done|]. intros _ Hk.
  by rewrite bool_decide_eq_false_2.
Qed.

Lemma lookup_answers {A} paneId (body : PaneRef → M A) s :
  Inv s →
  (∀ p, safe (resolvePaneId s paneId)
          (body (IsPane (resolvePaneId s paneId) p))) →
  JsObject.hasOwnProperty (_paneViews s) (resolvePaneId s paneId) = true ∨
  ((resolvePaneId s paneId ∉ JsObject.Object_prototype) ∧
   ∃ a, (body Null s).1 = Ok a) →
  ∃ a, (bind (_getPaneFromPaneId paneId) body s).1 = Ok a.
Proof.
  intros HI Hbody Hid. unfold bind. rewrite getPaneFromPaneId_eq.
  destruct (JsObject.hasOwnProperty (_paneViews s) (resolvePaneId s paneId))
    eqn:Hk.
  - destruct (refAt_known _ _ Hk) as (p & -> & Hget). by apply Hbody.
  - destruct Hid as [Hid|[Hid Hnull]]; [done|].
    by rewrite refAt_unknown.
Qed.

Lemma refAt_IsPane s k key p :
  refAt s k = IsPane key p →
  key = k ∧ JsObject.hasOwnProperty (_paneViews s) k = true.
Proof.
  unfold refAt, JsObject.get, JsObject.hasOwnProperty.
  destruct (JsObject.getOwn _ _); [by intros [= <- <-]|].
  by case_bool_decide.
Qed.

Lemma lookup_atomic {A} paneId (body : PaneRef → M A) s :
  Inv s →
  (∀ p, safe (resolvePaneId s paneId)
          (body (IsPane (resolvePaneId s paneId) p))) →
  (body Null s).2 = s →
  (refAt s (resolvePaneId s paneId) = NotAPane → (body NotAPane s).2 = s) →
  (bind (_getPaneFromPaneId paneId) body s).1 = TypeError →
  (bind (_getPaneFromPaneId paneId) body s).2 = s.
Proof.
  intros HI Hbody Hnull Hnot. unfold bind. rewrite getPaneFromPaneId_eq.
  destruct (refAt s (resolvePaneId s paneId)) as [key p| |] eqn:Href;
    [|auto|done].
  apply refAt_IsPane in Href as [-> Hk].
  destruct (Hbody p s HI Hk) as [a Ha]. by rewrite Ha.
Qed.

Lemma resolvePaneId_cases s paneId :
  resolvePaneId s paneId = _activePaneId s ∨ resolvePaneId s paneId = paneId.
Proof. unfold resolvePaneId. destruct (_ || _); auto. Qed.

Lemma resolve_ok s key paneId :
  Inv s → JsObject.hasOwnProperty (_paneViews s) key = true →
  paneId = key ∨ paneId ∉ JsObject.Object_prototype →
  JsObject.hasOwnProperty (_paneViews s) (resolvePaneId s paneId) = true ∨
  resolvePaneId s paneId ∉ JsObject.Object_prototype.
Proof.
  intros HI Hkey Hid.
  destruct (resolvePaneId_cases s paneId) as [->| ->]; [left; apply HI|].
  destruct Hid as [->|Hid]; auto.
Qed.

Lemma lookup_guarded {A} paneId (body : PaneRef → M A) s :
  Inv s →
  (∀ p, safe (resolvePaneId s paneId)
          (body (IsPane (resolvePaneId s paneId) p))) →
  (∃ a, body Null s = (Ok a, s)) →
  (refAt s (resolvePaneId s paneId) = NotAPane → (body NotAPane s).2 = s) →
  (lookupOk s paneId →
   ∃ a, (bind (_getPaneFromPaneId paneId) body s).1 = Ok a) ∧
  ((bind (_getPaneFromPaneId paneId) body s).1 = TypeError →
   (bind (_getPaneFromPaneId paneId) body s).2 = s).
Proof.
  intros HI Hbody [a Hnull] Hnot. split.
  - intros Hid. apply lookup_answers; [done|done|].
    destruct Hid as [Hid|Hid]; [by left|right]. split; [done|].
    rewrite Hnull. by eexists.
  - apply lookup_atomic; try done. by rewrite Hnull.
Qed.

Lemma lookup_unguarded {A} paneId (body : PaneRef → M A) s :
  Inv s →
  (∀ p, safe (resolvePaneId s paneId)
          (body (IsPane (resolvePaneId s paneId) p))) →
  (body Null s).2 = s →
  (refAt s (resolvePaneId s paneId) = NotAPane → (body NotAPane s).2 = s) →
  (JsObject.hasOwnProperty (_paneViews s) (resolvePaneId s paneId) = true →
   ∃ a, (bind (_getPaneFromPaneId paneId) body s).1 = Ok a) ∧
  ((bind (_getPaneFromPaneId paneId) body s).1 = TypeError →
   (bind (_getPaneFromPaneId paneId) body s).2 = s).
Proof.
  intros HI Hbody Hnull Hnot. split.
  - intros Hid. apply lookup_answers; [done|done|by left].
  - by apply lookup_atomic.
Qed.

Lemma addToPaneViewList_outcome canOpenFile paneId f index force s :
  Inv s →
  (lookupOk s paneId →
   ∃ a, (addToPaneViewList canOpenFile paneId f index force s).1 = Ok a) ∧
  ((addToPaneViewList canOpenFile paneId f index force s).1 = TypeError →
   (addToPaneViewList canOpenFile paneId f index force s).2 = s).
Proof.
  intros HI. unfold addToPaneViewList. apply lookup_guarded; [done| | |].
  - intros p. safe_auto.
  - unfold bind. rewrite getPaneIdForPath_run. by eexists.
  - intros _. unfold bind. rewrite getPaneIdForPath_run. by destruct (_ || _).
Qed.

Lemma addListToPaneViewList_outcome canOpenFile paneId fileList s :
  Inv s →
  (lookupOk s paneId →
   ∃ a, (addListToPaneViewList canOpenFile paneId fileList s).1 = Ok a) ∧
  ((addListToPaneViewList canOpenFile paneId fileList s).1 = TypeError →
   (addListToPaneViewList canOpenFile paneId fileList s).2 = s).
Proof.
  intros HI. unfold addListToPaneViewList.
  apply lookup_guarded; [done| |by eexists|done].
  intros p. cbn [isNull]. safe_auto.
Qed.

Lemma _removeFromPaneViewList_outcome paneId f suppressRedraw s :
  Inv s →
  (lookupOk s paneId →
   ∃ a, (_removeFromPaneViewList paneId f suppressRedraw s).1 = Ok a) ∧
  ((_removeFromPaneViewList paneId f suppressRedraw s).1 = TypeError →
   (_removeFromPaneViewList paneId f suppressRedraw s).2 = s).
Proof.
  intros HI. unfold _removeFromPaneViewList.
  apply lookup_guarded; [done| |by eexists|done].
  intros p. cbn [isNull]. safe_auto.
Qed.

Lemma _removeListFromPaneViewList_outcome paneId l s :
  Inv s →
  (lookupOk s paneId →
   ∃ a, (_removeListFromPaneViewList paneId l s).1 = Ok a) ∧
  ((_removeListFromPaneViewList paneId l s).1 = TypeError →
   (_removeListFromPaneViewList paneId l s).2 = s).
Proof.
  intros HI. unfold _removeListFromPaneViewList.
  apply lookup_guarded; [done| |by eexists|done].
  intros p. cbn [isNull]. safe_auto.
Qed.

Lemma _removeAllFromPaneViewList_outcome paneId s :
  Inv s →
  (lookupOk s paneId →
   ∃ a, (_removeAllFromPaneViewList paneId s).1 = Ok a) ∧
  ((_removeAllFromPaneViewList paneId s).1 = TypeError →
   (_removeAllFromPaneViewList paneId s).2 = s).
Proof.
  intros HI. unfold _removeAllFromPaneViewList.
  apply lookup_guarded; [done| |by eexists|done].
  intros p. cbn [isNull]. safe_auto.
Qed.

Lemma makePaneViewMostRecent_outcome paneId f s :
  Inv s →
  (lookupOk s paneId → ∃ a, (makePaneViewMostRecent paneId f s).1 = Ok a) ∧
  ((makePaneViewMostRecent paneId f s).1 = TypeError →
   (makePaneViewMostRecent paneId f s).2 = s).
Proof.
  intros HI. unfold makePaneViewMostRecent.
  apply lookup_guarded; [done| |by eexists|done].
  intros p. cbn [isNull]. safe_auto.
Qed.

Lemma sortPaneViewList_outcome paneId compareFn s :
  Inv s →
  (lookupOk s paneId → ∃ a, (sortPaneViewList paneId compareFn s).1 = Ok a) ∧
  ((sortPaneViewList paneId compareFn s).1 = TypeError →
   (sortPaneViewList paneId compareFn s).2 = s).
Proof.
  intros HI. unfold sortPaneViewList.
  apply lookup_guarded; [done| |by eexists|done].
  intros p. cbn [isNull]. safe_auto.
Qed.

Lemma swapPaneViewListIndexes_outcome paneId index1 index2 s :
  Inv s →
  (lookupOk s paneId →
   ∃ a, (swapPaneViewListIndexes paneId index1 index2 s).1 = Ok a) ∧
  ((swapPaneViewListIndexes paneId index1 index2 s).1 = TypeError →
   (swapPaneViewListIndexes paneId index1 index2 s).2 = s).
Proof.
  intros HI. unfold swapPaneViewListIndexes.
  apply lookup_guarded; [done| |by eexists|done].
  intros p. cbn [isNull]. safe_auto.
Qed.

Lemma forEachKey_answers ks callback :
  (∀ k p s, Inv s → JsObject.getOwn (_paneViews s) k = Some p →
            ∃ a, (callback (IsPane k p) s).1 = Ok a) →
  (∀ pane, keeps (callback pane)) →
  (∀ pane, changes true (λ _, True) (callback pane)) →
  ∀ s, Inv s →
       (∀ k, k ∈ ks → JsObject.hasOwnProperty (_paneViews s) k = true) →
       ∃ a, (forEachKey ks callback s).1 = Ok a.
Proof.
  intros Hcb Hkeeps Hch.
  induction ks as [|k ks IH]; intros s HI Hks; simpl; [by eexists|].
  unfold bind at 1, gets at 1.
  assert (JsObject.hasOwnProperty (_paneViews s) k = true) as Hk.
  { apply Hks. left. }
  apply hasOwnProperty_getOwn in Hk as [p Hget]. rewrite Hget.
  destruct (Hcb k p s HI Hget) as [x Hx].
  pose proof (Hkeeps (IsPane k p) s HI) as HI'.
  pose proof (Hch (IsPane k p) s) as Hlay.
  apply Changes_layout in Hlay as (Hkeys & _).
  unfold bind.
  destruct (callback (IsPane k p) s) as [[x'|] s']; simpl in *; [|done].
  apply IH; [done|]. intros k' Hk'.
  rewrite (hasOwnProperty_same_keys _ _ _ Hkeys). apply Hks. by right.
Qed.

Lemma forEachPane_answers callback s :
  (∀ k p s, Inv s → JsObject.getOwn (_paneViews s) k = Some p →
            ∃ a, (callback (IsPane k p) s).1 = Ok a) →
  (∀ pane, keeps (callback pane)) →
  (∀ pane, changes true (λ _, True) (callback pane)) →
  Inv s → ∃ a, (forEachPane callback s).1 = Ok a.
Proof.
  intros Hcb Hkeeps Hch HI. unfold forEachPane, bind, gets.
  apply forEachKey_answers; try done.
  intros k Hk. by apply hasOwnProperty_keys.
Qed.

Lemma lookupOk_key s k p :
  Inv s → JsObject.getOwn (_paneViews s) k = Some p → lookupOk s (Pane.id p).
Proof.
  intros HI Hget. left.
  destruct (Shape_key _ _ _ (inv_shape _ HI) Hget) as [-> _].
  rewrite (resolvePaneId_key s k p); [|apply HI|done].
  unfold JsObject.hasOwnProperty. by rewrite Hget.
Qed.

Lemma removeFromPaneViewList_outcome paneId f suppressRedraw s :
  Inv s →
  (paneId = ALL_PANES ∨ lookupOk s paneId →
   ∃ a, (removeFromPaneViewList paneId f suppressRedraw s).1 = Ok a) ∧
  ((removeFromPaneViewList paneId f suppressRedraw s).1 = TypeError →
   (removeFromPaneViewList paneId f suppressRedraw s).2 = s).
Proof.
  intros HI. unfold removeFromPaneViewList. case_decide as Hall.
  - assert (∃ a, (forEachPane
                    (λ pane, _removeFromPaneViewList (idOf pane) f
                               suppressRedraw) s).1 = Ok a) as [a Ha].
    { apply forEachPane_answers; try done.
      - intros k p s' HI' Hget.
        apply _removeFromPaneViewList_outcome; [done|]. by eapply lookupOk_key.
      - intros pane. apply keeps__removeFromPaneViewList.
      - intros pane. apply changes__removeFromPaneViewList. }
    split; [by eexists|by rewrite Ha].
  - destruct (_removeFromPaneViewList_outcome paneId f suppressRedraw s HI)
      as [H1 H2].
    split; [|done]. intros [?|?]; [done|auto].
Qed.

Lemma removeListFromPaneViewList_outcome paneId l s :
  Inv s →
  (paneId = ALL_PANES ∨ lookupOk s paneId →
   ∃ a, (removeListFromPaneViewList paneId l s).1 = Ok a) ∧
  ((removeListFromPaneViewList paneId l s).1 = TypeError →
   (removeListFromPaneViewList paneId l s).2 = s).
Proof.
  intros HI. unfold removeListFromPaneViewList. case_decide as Hall.
  - assert (∃ a, (forEachPane
                    (λ pane, _removeListFromPaneViewList (idOf pane) l) s).1
                 = Ok a) as [a Ha].
    { apply forEachPane_answers; try done.
      - intros k p s' HI' Hget.
        apply _removeListFromPaneViewList_outcome; [done|].
        by eapply lookupOk_key.
      - intros pane. apply keeps__removeListFromPaneViewList.
      - intros pane. apply changes__removeListFromPaneViewList. }
    split; [by eexists|by rewrite Ha].
  - destruct (_removeListFromPaneViewList_outcome paneId l s HI) as [H1 H2].
    split; [|done]. intros [?|?]; [done|auto].
Qed.

Lemma removeAllFromPaneViewList_outcome paneId s :
  Inv s →
  (paneId = ALL_PANES ∨ lookupOk s paneId →
   ∃ a, (removeAllFromPaneViewList paneId s).1 = Ok a) ∧
  ((removeAllFromPaneViewList paneId s).1 = TypeError →
   (removeAllFromPaneViewList paneId s).2 = s).
Proof.
  intros HI. unfold removeAllFromPaneViewList. case_decide as Hall.
  - assert (∃ a, (forEachPane
                    (λ pane, _removeAllFromPaneViewList (idOf pane)) s).1
                 = Ok a) as [a Ha].
    { apply forEachPane_answers; try done.
      - intros k p s' HI' Hget.
        apply _removeAllFromPaneViewList_outcome; [done|].
        by eapply lookupOk_key.
      - intros pane. apply keeps__removeAllFromPaneViewList.
      - intros pane. apply changes__removeAllFromPaneViewList. }
    split; [by eexists|by rewrite Ha].
  - destruct (_removeAllFromPaneViewList_outcome paneId s HI) as [H1 H2].
    split; [|done]. intros [?|?]; [done|auto].
Qed.

Lemma doCloseAll_outcome paneId s :
  Inv s →
  (paneId = ALL_PANES ∨
   JsObject.hasOwnProperty (_paneViews s) (resolvePaneId s paneId) = true →
   ∃ a, (doCloseAll paneId s).1 = Ok a) ∧
  ((doCloseAll paneId s).1 = TypeError → (doCloseAll paneId s).2 = s).
Proof.
  intros HI. unfold doCloseAll. case_decide as Hall.
  - match goal with
    | |- (_ → ∃ a, (?m s).1 = Ok a) ∧ _ =>
        assert (∃ a, (m s).1 = Ok a) as [a Ha]
    end.
    { apply forEachPane_answers; try done.
      - intros k p s' HI' Hget.
        assert (safe k
                  (let* fileList := readMethod (IsPane k p) Pane.getViewList in
                   let* _ := voidMethod (IsPane k p) Pane.doRemoveAllViews in
                   triggerHandler
                     (paneViewListRemoveList fileList (idOf (IsPane k p)))))
          as Hsafe by safe_auto.
        apply Hsafe; [done|]. unfold JsObject.hasOwnProperty. by rewrite Hget.
      - intros pane. keeps_auto.
      - intros pane. changes_auto. }
    split; [by eexists|by rewrite Ha].
  - match goal with
    | |- (_ → ∃ a, (bind _ ?body s).1 = Ok a) ∧ _ =>
        destruct (lookup_unguarded paneId body s) as [H1 H2];
          [done|intros p; safe_auto|done|done|]
    end.
    split; [|done]. intros [?|?]; [done|auto].
Qed.

Lemma doCloseList_outcome paneId fileList s :
  Inv s →
  (paneId = ALL_PANES ∨
   JsObject.hasOwnProperty (_paneViews s) (resolvePaneId s paneId) = true →
   ∃ a, (doCloseList paneId fileList s).1 = Ok a) ∧
  ((doCloseList paneId fileList s).1 = TypeError →
   (doCloseList paneId fileList s).2 = s).
Proof.
  intros HI. unfold doCloseList. case_decide as Hall.
  - match goal with
    | |- (_ → ∃ a, (?m s).1 = Ok a) ∧ _ =>
        assert (∃ a, (m s).1 = Ok a) as [a Ha]
    end.
    { apply forEachPane_answers; try done.
      - intros k p s' HI' Hget.
        assert (safe k
                  (let* closedList :=
                     callMethod (IsPane k p) (Pane.doRemoveViews fileList) in
                   triggerHandler
                     (paneViewListRemoveList closedList (idOf (IsPane k p)))))
          as Hsafe by safe_auto.
        apply Hsafe; [done|]. unfold JsObject.hasOwnProperty. by rewrite Hget.
      - intros pane. keeps_auto.
      - intros pane. changes_auto. }
    split; [by eexists|by rewrite Ha].
  - match goal with
    | |- (_ → ∃ a, (bind _ ?body s).1 = Ok a) ∧ _ =>
        destruct (lookup_unguarded paneId body s) as [H1 H2];
          [done|intros p; safe_auto|done|done|]
    end.
    split; [|done]. intros [?|?]; [done|auto].
Qed.

Lemma findInPaneViewList_all path s :
  findInPaneViewList ALL_PANES path s
  = (Ok (findInAllPanes findInViewList (JsObject.values (_paneViews s)) path),
     s).
Proof. reflexivity. Qed.

Lemma doClose_outcome paneId f s :
  Inv s →
  (paneId = ALL_PANES ∨
   JsObject.hasOwnProperty (_paneViews s) (resolvePaneId s paneId) = true →
   ∃ a, (doClose paneId f s).1 = Ok a) ∧
  ((doClose paneId f s).1 = TypeError → (doClose paneId f s).2 = s).
Proof.
  intros HI. unfold doClose. case_decide as Hall.
  - match goal with
    | |- (_ → ∃ a, (?m s).1 = Ok a) ∧ _ =>
        assert (post m (λ o _, ∃ a, o = Ok a) s) as [a Ha]
    end.
    { unfold findInPaneViewList, _doFindInViewList.
      rewrite decide_True by done. post_steps.
      pose proof (findInAllPanes_spec (JsObject.values (_paneViews s))
                    (fullPath f)) as Hspec.
      destruct (findInAllPanes _ _ _) as [i|k i|]; [| |done].
      - post_steps. by eexists.
      - post_step. destruct Hspec as (p & Hp & <- & _).
        apply (Shape_values _ _ (inv_shape _ HI)) in Hp.
        unfold post. apply lookup_answers; [done|intros p'; safe_auto|].
        left. rewrite (resolvePaneId_key s (Pane.id p) p); [|apply HI|done].
        unfold JsObject.hasOwnProperty. by rewrite Hp. }
    split; [by eexists|by rewrite Ha].
  - cbn [ret]. unfold bind at 1. cbn [ret].
    match goal with
    | |- (_ → ∃ a, (bind _ ?body s).1 = Ok a) ∧ _ =>
        destruct (lookup_unguarded paneId body s) as [H1 H2];
          [done|intros p; safe_auto|done|done|]
    end.
    split; [|done]. intros [?|?]; [done|auto].
Qed.

Lemma getOwn_undefined s :
  Inv s → JsObject.get (_paneViews s) "undefined" = Missing.
Proof.
  intros HI. unfold JsObject.get.
  destruct (JsObject.getOwn _ _) as [p|] eqn:Hget; [|done].
  by destruct (Shape_key _ _ _ (inv_shape _ HI) Hget) as [_ [?|?]].
Qed.

Lemma destroyEditorIfNotNeeded_answers editor s :
  Inv s → ∃ a, (destroyEditorIfNotNeeded editor s).1 = Ok a.
Proof.
  intros HI. unfold destroyEditorIfNotNeeded.
  destruct editor as [editor|]; [|by eexists].
  unfold _getPaneIdFromContainer. unfold bind at 1, gets at 1.
  unfold bind at 1, gets at 1.
  destruct (head _) as [p|] eqn:Hhead; simpl.
  - apply head_Some_elem_of, list_elem_of_filter in Hhead as [_ Hp].
    apply (Shape_values _ _ (inv_shape _ HI)) in Hp.
    unfold JsObject.get. rewrite Hp. unfold voidMethod, callMethod.
    rewrite Hp. by eexists.
  - rewrite getOwn_undefined by done. by eexists.
Qed.

Lemma _activeEditorChange_answers current s :
  Inv s → ∃ a, (_activeEditorChange current s).1 = Ok a.
Proof.
  intros HI.
  change (post (_activeEditorChange current) (λ o _, ∃ a, o = Ok a) s).
  unfold _activeEditorChange, _getPaneIdFromContainer.
  destruct current as [current|]; [|post_step; by eexists].
  post_steps. case_bool_decide.
  - post_steps. apply post_forceFocus. intros o Ho. exists tt.
    apply Ho, HI.
  - apply post_setActivePaneId_Inv; [done|]. intros. by eexists.
Qed.

Lemma splitCommand_answers orientation s :
  Inv s → ∃ a, (splitCommand orientation s).1 = Ok a.
Proof. intros HI. rewrite splitCommand_run by done. by eexists. Qed.

Lemma resolve_stable s s' paneId :
  Inv s' →
  JsObject.hasOwnProperty (_paneViews s') (resolvePaneId s paneId) = true →
  JsObject.hasOwnProperty (_paneViews s') (resolvePaneId s' paneId) = true.
Proof.
  intros HI. unfold resolvePaneId. destruct (_ || _); [|done].
  intros _. apply HI.
Qed.

Lemma doEdit_body_safe canOpenFile isWithinProject s target doc p :
  safe (resolvePaneId s target)
    (let pane := IsPane (resolvePaneId s target) p in
     let* _ :=
       (if isUntitled doc || negb (isWithinProject (fullPath (file doc)))
        then addToPaneViewList canOpenFile target (file doc) None false
        else ret tt) in
     let* _ := doOpenDocument doc pane in
     let* active := gets _activePaneId in
     let* _ :=
       (if bool_decide (idOf pane = active)
        then triggerHandler (currentFileChanged (Some (file doc)) (idOf pane))
        else ret tt) in
     makePaneViewMostRecent target (file doc)).
Proof.
  cbv zeta. unfold doOpenDocument.
  apply safe_bind.
  - destruct (_ || _); [|apply safe_ret].
    intros s' HI' Hk. apply addToPaneViewList_outcome; [done|].
    left. by eapply resolve_stable.
  - destruct (_ || _); [apply addToPaneViewList_Inv|apply keeps_ret].
  - destruct (_ || _); [|apply changes_ret].
    eapply changes_weaken; [| |apply changes_addToPaneViewList];
      [intros Ha; exact Ha|intros g _; exact I].
  - intros _. safe_step; [safe_step|]. safe_step; [safe_step|].
    apply safe_bind; [safe_auto|keeps_auto|changes_auto|]. intros _.
    intros s' HI' Hk. apply makePaneViewMostRecent_outcome; [done|].
    left. by eapply resolve_stable.
Qed.

Lemma bind_run {A B} (m : M A) (k : A → M B) s a s' :
  m s = (Ok a, s') → bind m k s = k a s'.
Proof. unfold bind. by intros ->. Qed.

Lemma addToPaneViewList_NotAPane canOpenFile paneId f index force s :
  refAt s (resolvePaneId s paneId) = NotAPane →
  (addToPaneViewList canOpenFile paneId f index force s).2 = s.
Proof.
  intros Href. unfold addToPaneViewList.
  rewrite (bind_run _ _ s _ s (getPaneFromPaneId_eq paneId s)).
  rewrite (bind_run _ _ s _ s (getPaneIdForPath_run _ s)).
  rewrite Href. by destruct (_ || _).
Qed.

Lemma doEdit_outcome canOpenFile isWithinProject paneId doc s :
  Inv s →
  (isOpenAt (paneIdForPath s (fullPath (file doc))) = true ∨ lookupOk s paneId →
   ∃ a, (doEdit canOpenFile isWithinProject paneId doc s).1 = Ok a) ∧
  ((doEdit canOpenFile isWithinProject paneId doc s).1 = TypeError →
   (doEdit canOpenFile isWithinProject paneId doc s).2 = s).
Proof.
  intros HI. unfold doEdit.
  rewrite (bind_run _ _ s _ s (getPaneIdForPath_run _ s)).
  destruct (paneIdForPath s (fullPath (file doc))) as [current|] eqn:Hfound.
  - destruct (is_open s (file doc) current (inv_shape _ HI) Hfound)
      as (Htruthy & q & Hget & _).
    rewrite Htruthy.
    assert (JsObject.hasOwnProperty (_paneViews s) current = true) as Hk.
    { unfold JsObject.hasOwnProperty. by rewrite Hget. }
    pose proof (keeps_setActivePaneId current s HI) as HI1.
    pose proof (changes_setActivePaneId (λ _, True) current s) as Hch.
    apply Changes_layout in Hch as (Hkeys & _).
    rewrite (bind_run _ _ s current (setActivePaneId current s).2).
    + match goal with
      | |- (_ → ∃ a, (?m ?s1).1 = Ok a) ∧ _ =>
          assert (∃ a, (m s1).1 = Ok a) as [a Ha]
      end.
      { apply lookup_answers; [done| |].
        - intros p. cbn [isNull]. apply doEdit_body_safe.
        - left. apply (resolve_stable s); [done|].
          rewrite (resolvePaneId_key s current q); [|apply HI|done].
          by rewrite (hasOwnProperty_same_keys _ _ _ Hkeys). }
      split; [by eexists|by rewrite Ha].
    + rewrite (bind_run _ _ s tt (setActivePaneId current s).2); [done|].
      rewrite setActivePaneId_run by apply HI. done.
  - change (bind (ret paneId) ?k s) with (k paneId s). cbv beta.
    match goal with
    | |- (_ → ∃ a, (bind _ ?body s).1 = Ok a) ∧ _ =>
        destruct (lookup_guarded paneId body s) as [H1 H2]
    end; [done| | | |].
    + intros p. cbn [isNull]. apply doEdit_body_safe.
    + by eexists.
    + intros Href. cbn [isNull].
      pose proof (addToPaneViewList_NotAPane canOpenFile paneId (file doc)
                    None false s Href) as Hadd.
      destruct (_ || _); [|done].
      unfold bind at 1.
      destruct (addToPaneViewList _ _ _ _ _ s) as [[[]|] s']; simpl in Hadd;
        by subst.
    + split; [|done]. intros [?|?]; [done|auto].
Qed.

Lemma bind_ret_answers {A B} (m : M A) (b : B) s :
  (∃ a, (m s).1 = Ok a) → ∃ a, ((let* _ := m in ret b) s).1 = Ok a.
Proof.
  intros [a Ha]. unfold bind, ret.
  destruct (m s) as [[a'|] s']; [by eexists|done].
Qed.

Lemma bind_ret_throws {A B} (m : M A) (b : B) s :
  ((let* _ := m in ret b) s).1 = TypeError → (m s).1 = TypeError.
Proof. unfold bind, ret. by destruct (m s) as [[a'|] s']. Qed.

Lemma doOpen_outcome canOpenFile isWithinProject paneId f openDoc load s :
  Inv s →
  (lookupOk s paneId →
   ∃ a, (doOpen canOpenFile isWithinProject paneId f openDoc load s).1 = Ok a) ∧
  ((doOpen canOpenFile isWithinProject paneId f openDoc load s).1 = TypeError →
   (doOpen canOpenFile isWithinProject paneId f openDoc load s).2 = s).
Proof.
  intros HI. unfold doOpen. destruct f as [f|]; [|split; [by eexists|done]].
  rewrite (bind_run _ _ s _ s (getPaneIdForPath_run _ s)).
  destruct (paneIdForPath s (fullPath f)) as [current|] eqn:Hfound.
  - destruct (is_open s f current (inv_shape _ HI) Hfound)
      as (Htruthy & q & Hget & _).
    rewrite Htruthy.
    assert (JsObject.hasOwnProperty (_paneViews s) current = true) as Hk.
    { unfold JsObject.hasOwnProperty. by rewrite Hget. }
    pose proof (keeps_setActivePaneId current s HI) as HI1.
    pose proof (changes_setActivePaneId (λ _, True) current s) as Hch.
    apply Changes_layout in Hch as (Hkeys & _).
    rewrite (bind_run _ _ s current (setActivePaneId current s).2).
    + match goal with
      | |- (_ → ∃ a, (?m ?s1).1 = Ok a) ∧ _ =>
          assert (∃ a, (m s1).1 = Ok a) as [a Ha]
      end.
      { assert (lookupOk (setActivePaneId current s).2 current) as Hok.
        { left. apply (resolve_stable s); [done|].
          rewrite (resolvePaneId_key s current q); [|apply HI|done].
          by rewrite (hasOwnProperty_same_keys _ _ _ Hkeys). }
        destruct openDoc as [doc|].
        - apply bind_ret_answers. apply doEdit_outcome; auto.
        - destruct (canOpenFile (fullPath f)); [|by eexists].
          destruct load as [doc|err|]; try by eexists.
          apply bind_ret_answers. apply doEdit_outcome; auto. }
      split; [by eexists|by rewrite Ha].
    + rewrite (bind_run _ _ s tt (setActivePaneId current s).2); [done|].
      rewrite setActivePaneId_run by apply HI. done.
  - change (bind (ret paneId) ?k s) with (k paneId s). cbv beta.
    destruct openDoc as [doc|].
    + destruct (doEdit_outcome canOpenFile isWithinProject paneId doc s HI)
        as [H1 H2].
      split.
      * intros Hok. apply bind_ret_answers. auto.
      * intros Hthrow. rewrite bind_ret_state.
        apply H2. by eapply bind_ret_throws.
    + destruct (canOpenFile (fullPath f)); [|split; [by eexists|done]].
      destruct load as [doc|err|]; try (split; [by eexists|done]).
      destruct (doEdit_outcome canOpenFile isWithinProject paneId doc s HI)
        as [H1 H2].
      split.
      * intros Hok. apply bind_ret_answers. auto.
      * intros Hthrow. rewrite bind_ret_state.
        apply H2. by eapply bind_ret_throws.
Qed.

Lemma usable_lookupOk s paneId :
  paneId = ALL_PANES ∨
  JsObject.hasOwnProperty (_paneViews s) (resolvePaneId s paneId) = true ∨
  (false = false ∧ resolvePaneId s paneId ∉ JsObject.Object_prototype) →
  lookupOk s paneId.
Proof.
  intros [->|[H|[_ H]]]; [right|by left|by right].
  assert (bool_decide (ALL_PANES ∈ JsObject.Object_prototype) = false) as Hb
    by (vm_compute; reflexivity).
  by apply bool_decide_eq_false_1 in Hb.
Qed.

Lemma call_outcome canOpenFile isWithinProject op s :
  Inv s →
  (usable s op → ∃ a, (call canOpenFile isWithinProject op s).1 = Ok a) ∧
  ((call canOpenFile isWithinProject op s).1 = TypeError →
   (call canOpenFile isWithinProject op s).2 = s).
Proof.
  intros HI. unfold usable.
  destruct op; cbn [call paneIdOf unguarded].
  - destruct (addToPaneViewList_outcome canOpenFile paneId f index force s HI)
      as [H1 H2]. split; [|done]. intros H. by apply H1, usable_lookupOk.
  - destruct (addListToPaneViewList_outcome canOpenFile paneId fileList s HI)
      as [H1 H2]. split; [|done]. intros H. by apply H1, usable_lookupOk.
  - destruct (removeFromPaneViewList_outcome paneId f suppressRedraw s HI)
      as [H1 H2]. split; [|done].
    intros [H|H]; apply H1; [by left|right]. apply usable_lookupOk. by right.
  - destruct (removeListFromPaneViewList_outcome paneId l s HI) as [H1 H2].
    split; [|done].
    intros [H|H]; apply H1; [by left|right]. apply usable_lookupOk. by right.
  - destruct (removeAllFromPaneViewList_outcome paneId s HI) as [H1 H2].
    split; [|done].
    intros [H|H]; apply H1; [by left|right]. apply usable_lookupOk. by right.
  - destruct (makePaneViewMostRecent_outcome paneId f s HI) as [H1 H2].
    split; [|done]. intros H. by apply H1, usable_lookupOk.
  - destruct (sortPaneViewList_outcome paneId compareFn s HI) as [H1 H2].
    split; [|done]. intros H. by apply H1, usable_lookupOk.
  - destruct (swapPaneViewListIndexes_outcome paneId index1 index2 s HI)
      as [H1 H2]. split; [|done]. intros H. by apply H1, usable_lookupOk.
  - rewrite forceFocus_run by apply HI. split; [by eexists|done].
  - rewrite setActivePaneId_run by apply HI. split; [by eexists|done].
  - destruct (destroyEditorIfNotNeeded_answers _masterEditor s HI) as [a Ha].
    split; [by eexists|by rewrite Ha].
  - destruct (doEdit_outcome canOpenFile isWithinProject paneId doc s HI)
      as [H1 H2]. split; [|done]. intros H. apply H1. right.
    by apply usable_lookupOk.
  - destruct (doOpen_outcome canOpenFile isWithinProject paneId f openDoc load
                s HI) as [H1 H2].
    split.
    + intros H. apply bind_ret_answers, H1. by apply usable_lookupOk.
    + intros Hthrow. rewrite bind_ret_state. apply H2.
      by eapply bind_ret_throws.
  - destruct (doClose_outcome paneId f s HI) as [H1 H2]. split; [|done].
    intros [H|[H|[H _]]]; [apply H1; by left|apply H1; by right|done].
  - destruct (doCloseAll_outcome paneId s HI) as [H1 H2]. split; [|done].
    intros [H|[H|[H _]]]; [apply H1; by left|apply H1; by right|done].
  - destruct (doCloseList_outcome paneId fileList s HI) as [H1 H2].
    split; [|done].
    intros [H|[H|[H _]]]; [apply H1; by left|apply H1; by right|done].
  - destruct (splitCommand_answers VERTICAL s HI) as [a Ha].
    split; [by eexists|]. simpl in Ha. by rewrite Ha.
  - destruct (splitCommand_answers HORIZONTAL s HI) as [a Ha].
    split; [by eexists|]. simpl in Ha. by rewrite Ha.
  - destruct (_activeEditorChange_answers current s HI) as [a Ha].
    split; [by eexists|by rewrite Ha].
Qed.

(** X10. In a reachable state no call throws when the pane id it is given
    is usable: [ALL_PANES], the id of a registered pane, [FOCUSED_PANE] or
    the empty string (which stand for the active pane), or, for every call
    but [doClose], [doCloseAll] and [doCloseList], any id that is not the
    name of a member of [Object.prototype].  The calls that take no pane id
    ([setActivePaneId], [forceFocusToActivePaneView],
    [destroyEditorIfNotNeeded], the split commands, the [activeEditorChange]
    handler) never throw. *)
Theorem X10_usable_pane_id_never_throws canOpenFile isWithinProject op s :
  reachable canOpenFile isWithinProject s →
  usable s op →
  (call canOpenFile isWithinProject op s).1 = Ok tt.
Proof.
  intros Hreach Hop. apply reachable_Inv in Hreach.
  destruct (call_outcome canOpenFile isWithinProject op s Hreach) as [H _].
  destruct (H Hop) as [[] Ha]. done.
Qed.

Lemma X10_usable_pane_id_witness :
  (call (λ _, true) (λ _, true) (OpDoCloseAll FOCUSED_PANE) splitExample).1
  = Ok tt.
Proof.
  apply (X10_usable_pane_id_never_throws (λ _, true) (λ _, true)
           (OpDoCloseAll FOCUSED_PANE) splitExample).
  - exact splitExample_reachable.
  - right. left. reflexivity.
Defined.

(** X11. In a reachable state a call that throws has changed nothing: the
    registry, the view lists, the active pane, the orientation and the
    notifications sent are as they were before the call. *)
Theorem X11_throwing_call_changes_nothing canOpenFile isWithinProject op s :
  reachable canOpenFile isWithinProject s →
  (call canOpenFile isWithinProject op s).1 = TypeError →
  (call canOpenFile isWithinProject op s).2 = s ∧
  step canOpenFile isWithinProject op s = s.
Proof.
  intros Hreach Hthrow. apply reachable_Inv in Hreach.
  destruct (call_outcome canOpenFile isWithinProject op s Hreach) as [_ H].
  rewrite step_call. auto.
Qed.

Lemma X11_throwing_call_witness :
  (call (λ _, true) (λ _, true)
     (OpDoCloseList SECOND_PANE [mkFile "/a.js"]) editExample).2
  = editExample ∧
  step (λ _, true) (λ _, true)
    (OpDoCloseList SECOND_PANE [mkFile "/a.js"]) editExample
  = editExample.
Proof.
  apply (X11_throwing_call_changes_nothing (λ _, true) (λ _, true)
           (OpDoCloseList SECOND_PANE [mkFile "/a.js"]) editExample).
  - exact editExample_reachable.
  - reflexivity.
Defined.

(** ** The active pane, in any state *)

Lemma setActivePaneId_known newPaneId s :
  JsObject.hasOwnProperty (_paneViews s) newPaneId = true →
  JsObject.hasOwnProperty (_paneViews s) (_activePaneId s) = false →
  setActivePaneId newPaneId s = (Ok tt, activated newPaneId s).
Proof.
  intros Hnew Hactive.
  assert (newPaneId ≠ _activePaneId s) as Hne.
  { intros ->. by rewrite Hnew in Hactive. }
  unfold setActivePaneId, activated, JsObject.hasOwnProperty in *.
  unfold bind at 1, gets at 1. unfold bind at 1, gets at 1.
  destruct (JsObject.getOwn (_paneViews s) newPaneId) as [p|] eqn:Hget;
    [|done].
  rewrite decide_False by done.
  rewrite bool_decide_eq_false_2 by done. simpl.
  unfold bind at 1. unfold bind at 1, modify at 1.
  unfold bind at 1, triggerHandler at 1, modify at 1.
  unfold bind at 1. rewrite getActivePane_eq.
  cbn [_activePaneId addEvent setActive].
  unfold refAt, JsObject.get. cbn [_paneViews addEvent setActive].
  rewrite Hget. unfold bind at 1, readMethod, callMethod.
  cbn [_paneViews addEvent setActive]. rewrite Hget.
  rewrite set_same by done. unfold triggerHandler, modify.
  rewrite forceFocus_run; [done|].
  unfold JsObject.hasOwnProperty. simpl. by rewrite Hget.
Qed.

Lemma setActivePaneId_unknown newPaneId s :
  JsObject.hasOwnProperty (_paneViews s) newPaneId = false →
  JsObject.hasOwnProperty (_paneViews s) (_activePaneId s) = false →
  setActivePaneId newPaneId s = (TypeError, s).
Proof.
  intros Hnew Hactive. unfold setActivePaneId.
  unfold bind at 1, gets at 1. unfold bind at 1, gets at 1.
  rewrite Hnew. simpl. unfold bind, ret. by rewrite forceFocus_throws.
Qed.

Lemma getCurrentlyViewedFile_run s :
  getCurrentlyViewedFile s
  = match JsObject.getOwn (_paneViews s) (_activePaneId s) with
    | Some p => (Ok (Pane.getCurrentlyViewedFile p), s)
    | None => (TypeError, s)
    end.
Proof.
  unfold getCurrentlyViewedFile, bind. rewrite getActivePane_eq.
  unfold refAt, JsObject.get.
  destruct (JsObject.getOwn _ _) as [p|] eqn:Hget.
  - unfold readMethod, callMethod. rewrite Hget.
    by rewrite set_same, setPaneViews_same.
  - by case_bool_decide.
Qed.

(** X12. In any state, also before the first pane is created or with an
    active pane id that names no pane: [setActivePaneId] answers exactly
    when the requested pane or the active pane is registered, and leaves
    the state as it was when it throws; [forceFocusToActivePaneView] and
    [getCurrentlyViewedFile] answer exactly when the active pane is
    registered, while [getCurrentlyViewedFileForPane], given the active
    pane id, answers [undefined] instead of throwing when it is neither
    registered nor the name of a member of [Object.prototype]. *)
Theorem X12_active_pane_calls_throw_without_pane newPaneId s :
  ((setActivePaneId newPaneId s).1 = Ok tt ↔
   JsObject.hasOwnProperty (_paneViews s) newPaneId = true ∨
   JsObject.hasOwnProperty (_paneViews s) (_activePaneId s) = true) ∧
  ((setActivePaneId newPaneId s).1 = TypeError →
   (setActivePaneId newPaneId s).2 = s) ∧
  ((forceFocusToActivePaneView s).1 = Ok tt ↔
   JsObject.hasOwnProperty (_paneViews s) (_activePaneId s) = true) ∧
  ((∃ f, (getCurrentlyViewedFile s).1 = Ok f) ↔
   JsObject.hasOwnProperty (_paneViews s) (_activePaneId s) = true) ∧
  (JsObject.hasOwnProperty (_paneViews s) (_activePaneId s) = false →
   _activePaneId s ∉ JsObject.Object_prototype →
   getCurrentlyViewedFileForPane (_activePaneId s) s = (Ok None, s)).
Proof.
  destruct (JsObject.hasOwnProperty (_paneViews s) (_activePaneId s))
    eqn:Hactive.
  - rewrite setActivePaneId_run, forceFocus_run by done.
    rewrite getCurrentlyViewedFile_run.
    apply hasOwnProperty_getOwn in Hactive as [p Hp]. rewrite Hp.
    split_and!; try done; naive_solver.
  - rewrite forceFocus_throws by done. rewrite getCurrentlyViewedFile_run.
    assert (JsObject.getOwn (_paneViews s) (_activePaneId s) = None) as Hp.
    { unfold JsObject.hasOwnProperty in Hactive.
      by destruct (JsObject.getOwn _ _). }
    rewrite Hp.
    destruct (JsObject.hasOwnProperty (_paneViews s) newPaneId) eqn:Hnew.
    + rewrite setActivePaneId_known by done.
      split_and!; try done; try naive_solver.
      intros _ Hno. unfold getCurrentlyViewedFileForPane, bind.
      rewrite getPaneFromPaneId_eq, resolvePaneId_active.
      by rewrite refAt_unknown.
    + rewrite setActivePaneId_unknown by done.
      split_and!; try done; try naive_solver.
      intros _ Hno. unfold getCurrentlyViewedFileForPane, bind.
      rewrite getPaneFromPaneId_eq, resolvePaneId_active.
      by rewrite refAt_unknown.
Qed.

(** ** Closing and adding *)

Lemma doClose_known k f s :
  k ≠ ALL_PANES →
  doClose k f s
  = bind (_getPaneFromPaneId k)
      (λ pane,
         let* index := readMethod pane
                         (λ p, Pane.findInViewList p (fullPath f)) in
         let dispatchEvent := negb (index =? -1)%Z in
         let* _ := voidMethod pane (Pane.doRemoveView f) in
         if dispatchEvent
         then triggerHandler (paneViewListRemove f false (idOf pane))
         else ret tt) s.
Proof. intros Hk. unfold doClose. by rewrite decide_False. Qed.

Lemma doClose_all f s :
  doClose ALL_PANES f s
  = match paneIdForPath s (fullPath f) with
    | Some k =>
        bind (_getPaneFromPaneId k)
          (λ pane,
             let* index := readMethod pane
                             (λ p, Pane.findInViewList p (fullPath f)) in
             let dispatchEvent := negb (index =? -1)%Z in
             let* _ := voidMethod pane (Pane.doRemoveView f) in
             if dispatchEvent
             then triggerHandler (paneViewListRemove f false (idOf pane))
             else ret tt) s
    | None => (Ok tt, s)
    end.
Proof.
  unfold doClose, paneIdForPath. rewrite decide_True by done.
  unfold bind at 1. unfold bind at 1. rewrite findInPaneViewList_all.
  by destruct (findInAllPanes _ _ _).
Qed.

(** X13. [doClose] given [ALL_PANES], in a reachable state: when the file
    is in the view list of a pane, the call does what [doClose] does when
    it is given that pane; when it is in no view list, the call changes
    nothing, sends nothing and does not throw. *)
Theorem X13_doClose_all_panes canOpenFile isWithinProject s f :
  reachable canOpenFile isWithinProject s →
  (∀ k p, JsObject.getOwn (_paneViews s) k = Some p →
          f ∈ Pane._viewList p →
          doClose ALL_PANES f s = doClose k f s) ∧
  (NotOpen s f → doClose ALL_PANES f s = (Ok tt, s)).
Proof.
  intros Hreach. apply reachable_Inv in Hreach. split.
  - intros k p Hget Hf.
    rewrite doClose_all, (open_at s f k p Hreach Hget Hf).
    rewrite doClose_known; [done|].
    by destruct (Shape_key _ _ _ (inv_shape _ Hreach) Hget) as [_ [->| ->]].
  - intros Hno. rewrite doClose_all.
    destruct (paneIdForPath s (fullPath f)) as [k|] eqn:Hfound; [|done].
    destruct (is_open s f k (inv_shape _ Hreach) Hfound) as (_ & p & Hp & Hf).
    by destruct (Hno k p Hp).
Qed.

Lemma X13_doClose_all_panes_witness :
  (∀ k p, JsObject.getOwn (_paneViews splitExample) k = Some p →
          mkFile "/d.js" ∈ Pane._viewList p →
          doClose ALL_PANES (mkFile "/d.js") splitExample
          = doClose k (mkFile "/d.js") splitExample) ∧
  (NotOpen splitExample (mkFile "/d.js") →
   doClose ALL_PANES (mkFile "/d.js") splitExample = (Ok tt, splitExample)).
Proof.
  apply (X13_doClose_all_panes (λ _, true) (λ _, true) splitExample
           (mkFile "/d.js")).
  exact splitExample_reachable.
Defined.

(** X14. [addToPaneViewList] ignores a file that is in the view list of a
    pane already, the pane it is given included, and a file that needs a
    custom viewer: in a reachable state such a call changes nothing, sends
    nothing (so it never reorders a file and never sends
    [paneViewListSort]) and does not throw, whatever pane id, index and
    [force] it is given. *)
Theorem X14_addToPaneViewList_ignores_open_file canOpenFile isWithinProject s
    paneId f index force :
  reachable canOpenFile isWithinProject s →
  Open s f ∨ canOpenFile (fullPath f) = false →
  addToPaneViewList canOpenFile paneId f index force s = (Ok tt, s).
Proof.
  intros Hreach Hf. apply reachable_Inv in Hreach.
  destruct Hf as [(k & p & Hget & Hf)|Hcan].
  - apply addToPaneViewList_open.
    rewrite (open_at s f k p Hreach Hget Hf). simpl.
    by eapply truthy_key; [apply Hreach|].
  - unfold addToPaneViewList.
    rewrite (bind_run _ _ s _ s (getPaneFromPaneId_eq paneId s)).
    rewrite (bind_run _ _ s _ s (getPaneIdForPath_run _ s)).
    rewrite Hcan. simpl. by rewrite orb_true_r.
Qed.

Lemma X14_addToPaneViewList_ignores_witness :
  addToPaneViewList (λ _, true) SECOND_PANE (mkFile "/a.js") (Some 0%Z) true
    splitExample
  = (Ok tt, splitExample).
Proof.
  apply (X14_addToPaneViewList_ignores_open_file (λ _, true) (λ _, true)
           splitExample SECOND_PANE (mkFile "/a.js") (Some 0%Z) true).
  - exact splitExample_reachable.
  - left. exists FIRST_PANE.
    exists (Pane.mk FIRST_PANE 0 [mkFile "/a.js"] [mkFile "/a.js"]
              [mkFile "/a.js"] None).
    split; [reflexivity|]. simpl. left.
Defined.

(** ** Queries over all panes and over the focused pane *)

Lemma dedup_NoDup seen l :
  NoDup l → (∀ x, x ∈ l → x ∉ seen) → dedup seen l = l.
Proof.
  revert seen. induction l as [|f l IH]; intros seen Hnd Hseen; simpl; [done|].
  apply NoDup_cons in Hnd as [Hf Hnd].
  rewrite bool_decide_eq_false_2 by (apply Hseen; left).
  f_equal. apply IH; [done|].
  intros x Hx [->|Hin]%elem_of_cons; [done|].
  by apply (Hseen x); [right|].
Qed.

Lemma union_NoDup a b : NoDup (a ++ b) → union a b = a ++ b.
Proof.
  intros Hnd. unfold union. apply dedup_NoDup; [done|].
  intros x _ Hx. by apply elem_of_nil in Hx.
Qed.

Lemma Inv_lists s :
  Inv s →
  NoDup (concat (Pane._viewList <$> JsObject.values (_paneViews s))) ∧
  (∀ g, g ∈ concat (Pane._viewList <$> JsObject.values (_paneViews s))
        ↔ Open s g).
Proof.
  intros HI. pose proof (inv_panes _ HI) as Hok.
  pose proof (inv_disjoint _ HI) as Hdis. unfold Open.
  destruct (Shape_cases _ (inv_shape _ HI))
    as [(Hk & p1 & Hid1 & Hreg)|(Hk & p1 & p2 & Hid1 & Hid2 & Hreg)];
    rewrite Hreg in *; cbn [JsObject.values fmap list_fmap snd concat].
  - rewrite app_nil_r. split.
    + apply (Hok FIRST_PANE p1). cbn. by rewrite decide_True.
    + intros g. split.
      * intros Hg. exists FIRST_PANE, p1. cbn. by rewrite decide_True.
      * intros (k & q & Hq & Hg). cbn in Hq. case_decide; by simplify_eq.
  - rewrite app_nil_r.
    assert (JsObject.getOwn [(FIRST_PANE, p1); (SECOND_PANE, p2)] FIRST_PANE
            = Some p1) as Hg1 by done.
    assert (JsObject.getOwn [(FIRST_PANE, p1); (SECOND_PANE, p2)] SECOND_PANE
            = Some p2) as Hg2 by done.
    split.
    + apply NoDup_app. split_and!; [by eapply Hok| |by eapply Hok].
      intros f Hf1 Hf2. by pose proof (Hdis _ _ _ _ f Hg1 Hg2 Hf1 Hf2).
    + intros g. rewrite elem_of_app. split.
      * intros [Hg|Hg]; [by exists FIRST_PANE, p1|by exists SECOND_PANE, p2].
      * intros (k & q & Hq & Hg). cbn in Hq.
        repeat case_decide; simplify_eq; auto.
Qed.

(** X15. In a reachable state [getPaneViewList] given [ALL_PANES] answers
    the view lists of the panes one after the other, in the order of the
    registry: no file is dropped by the union, because no file is in two
    view lists, so the answer has no file twice, holds exactly the files
    that are in some view list, and has as many entries as
    [getPaneViewListSize] given [ALL_PANES] counts.  Neither call changes
    the state. *)
Theorem X15_all_panes_list_and_size canOpenFile isWithinProject s :
  reachable canOpenFile isWithinProject s →
  ∃ l,
    getPaneViewList ALL_PANES s = (Ok (Some l), s) ∧
    getPaneViewListSize ALL_PANES s = (Ok (Z.of_nat (length l)), s) ∧
    l = concat (Pane._viewList <$> JsObject.values (_paneViews s)) ∧
    NoDup l ∧
    ∀ g, g ∈ l ↔ Open s g.
Proof.
  intros Hreach. apply reachable_Inv in Hreach.
  destruct (Inv_lists s Hreach) as [Hnd Hopen].
  exists (concat (Pane._viewList <$> JsObject.values (_paneViews s))).
  split_and!; try done.
  - unfold getPaneViewList. rewrite decide_True by done.
    unfold bind, gets, ret. do 2 f_equal.
    destruct (Shape_cases _ (inv_shape _ Hreach))
      as [(Hk & p1 & Hid1 & Hreg)|(Hk & p1 & p2 & Hid1 & Hid2 & Hreg)];
      rewrite Hreg in *;
      cbn [JsObject.values fmap list_fmap snd concat foldl] in *;
      unfold Pane.getViewList; rewrite app_nil_r in *.
    + by rewrite union_NoDup.
    + rewrite (union_NoDup []) by by apply NoDup_app in Hnd as (? & _).
      by rewrite union_NoDup.
  - unfold getPaneViewListSize. rewrite decide_True by done.
    unfold bind, gets, ret. do 2 f_equal.
    destruct (Shape_cases _ (inv_shape _ Hreach))
      as [(Hk & p1 & Hid1 & Hreg)|(Hk & p1 & p2 & Hid1 & Hid2 & Hreg)];
      rewrite Hreg;
      cbn [JsObject.values fmap list_fmap snd concat foldl];
      unfold Pane.getViewListSize; rewrite app_nil_r, ?length_app; lia.
Qed.

Lemma X15_all_panes_list_witness :
  ∃ l,
    getPaneViewList ALL_PANES splitExample = (Ok (Some l), splitExample) ∧
    getPaneViewListSize ALL_PANES splitExample
    = (Ok (Z.of_nat (length l)), splitExample) ∧
    l = concat (Pane._viewList <$> JsObject.values (_paneViews splitExample)) ∧
    NoDup l ∧
    ∀ g, g ∈ l ↔ Open splitExample g.
Proof.
  apply (X15_all_panes_list_and_size (λ _, true) (λ _, true) splitExample).
  exact splitExample_reachable.
Defined.

Lemma lookup_known s k p :
  Inv s → JsObject.getOwn (_paneViews s) k = Some p →
  _getPaneFromPaneId k s = (Ok (IsPane k p), s).
Proof.
  intros HI Hget. rewrite getPaneFromPaneId_eq.
  rewrite (resolvePaneId_key s k p); [|apply HI|done].
  unfold refAt, JsObject.get. by rewrite Hget.
Qed.

Lemma key_not_all s k p :
  Inv s → JsObject.getOwn (_paneViews s) k = Some p → k ≠ ALL_PANES.
Proof.
  intros HI Hget.
  by destruct (Shape_key _ _ _ (inv_shape _ HI) Hget) as [_ [->| ->]].
Qed.

Lemma findInPaneViewList_known s k p path :
  Inv s → JsObject.getOwn (_paneViews s) k = Some p →
  findInPaneViewList k path s
  = (Ok (FindIndex (Pane.findInViewList p path)), s).
Proof.
  intros HI Hget. unfold findInPaneViewList, _doFindInViewList.
  rewrite decide_False by by eapply key_not_all.
  rewrite (bind_run _ _ s _ s (lookup_known s k p HI Hget)). cbn [isNull].
  unfold bind, readMethod, callMethod. rewrite Hget. cbn [fst snd findBy].
  by rewrite set_same, setPaneViews_same.
Qed.

(** X16. The search over all panes agrees with the search in one pane, in
    a reachable state: when [findInPaneViewList] given [ALL_PANES] answers
    a pane id and an index, the index is not negative, the same search
    given that pane id answers that index, and [getPaneIdForPath] answers
    that pane id; when it answers -1, the search given any registered pane
    answers -1 and [getPaneIdForPath] answers null.  It never answers
    [undefined], and no search changes the state. *)
Theorem X16_find_in_all_panes canOpenFile isWithinProject s path :
  reachable canOpenFile isWithinProject s →
  ∃ r,
    findInPaneViewList ALL_PANES path s = (Ok r, s) ∧
    match r with
    | FindInfo k i =>
        (0 ≤ i)%Z ∧
        JsObject.hasOwnProperty (_paneViews s) k = true ∧
        findInPaneViewList k path s = (Ok (FindIndex i), s) ∧
        getPaneIdForPath path s = (Ok (Some k), s)
    | FindIndex i =>
        i = (-1)%Z ∧
        getPaneIdForPath path s = (Ok None, s) ∧
        ∀ k, JsObject.hasOwnProperty (_paneViews s) k = true →
             findInPaneViewList k path s = (Ok (FindIndex (-1)), s)
    | FindUndefined => False
    end.
Proof.
  intros Hreach. apply reachable_Inv in Hreach.
  eexists. split; [apply findInPaneViewList_all|].
  rewrite getPaneIdForPath_run. unfold paneIdForPath.
  pose proof (findInAllPanes_spec (JsObject.values (_paneViews s)) path)
    as Hspec.
  destruct (findInAllPanes _ _ _) as [i|k i|]; [| |done].
  - destruct Hspec as [-> Hspec]. split_and!; try done.
    intros k [p Hp]%hasOwnProperty_getOwn.
    rewrite (findInPaneViewList_known s k p) by done.
    pose proof (Hspec p (getOwn_values _ _ _ Hp)) as Hno.
    unfold Pane.findInViewList, hasPath in *.
    by destruct (indexOfPath _ _).
  - destruct Hspec as (p & Hp & <- & Hhas & ->).
    apply (Shape_values _ _ (inv_shape _ Hreach)) in Hp.
    split_and!; try done.
    + unfold Pane.findInViewList, hasPath in *.
      destruct (indexOfPath _ _); [simpl; lia|done].
    + unfold JsObject.hasOwnProperty. by rewrite Hp.
    + by apply findInPaneViewList_known.
Qed.

Lemma X16_find_in_all_panes_witness :
  ∃ r,
    findInPaneViewList ALL_PANES "/d.js" splitExample = (Ok r, splitExample) ∧
    match r with
    | FindInfo k i =>
        (0 ≤ i)%Z ∧
        JsObject.hasOwnProperty (_paneViews splitExample) k = true ∧
        findInPaneViewList k "/d.js" splitExample
        = (Ok (FindIndex i), splitExample) ∧
        getPaneIdForPath "/d.js" splitExample = (Ok (Some k), splitExample)
    | FindIndex i =>
        i = (-1)%Z ∧
        getPaneIdForPath "/d.js" splitExample = (Ok None, splitExample) ∧
        ∀ k, JsObject.hasOwnProperty (_paneViews splitExample) k = true →
             findInPaneViewList k "/d.js" splitExample
             = (Ok (FindIndex (-1)), splitExample)
    | FindUndefined => False
    end.
Proof.
  apply (X16_find_in_all_panes (λ _, true) (λ _, true) splitExample "/d.js").
  exact splitExample_reachable.
Defined.

Lemma lookup_focused s paneId :
  paneId = "" ∨ paneId = FOCUSED_PANE →
  _getPaneFromPaneId paneId s = _getPaneFromPaneId (_activePaneId s) s.
Proof.
  intros Hid. rewrite !getPaneFromPaneId_eq, resolvePaneId_active.
  by destruct Hid as [->| ->].
Qed.

Lemma bind_same {A B} (m m' : M A) (k : A → M B) s :
  m s = m' s → bind m k s = bind m' k s.
Proof. unfold bind. by intros ->. Qed.

(** X17. [FOCUSED_PANE] and the empty pane id stand for the active pane:
    in a reachable state each query given one of them answers what it
    answers when it is given the id of the active pane, and
    [getCurrentlyViewedFileForPane] and [getCurrentlyViewedPathForPane]
    given one of them answer what [getCurrentlyViewedFile] and
    [getCurrentlyViewedPath] answer. *)
Theorem X17_focused_pane_is_active_pane canOpenFile isWithinProject s paneId :
  reachable canOpenFile isWithinProject s →
  paneId = "" ∨ paneId = FOCUSED_PANE →
  getPaneViewList paneId s = getPaneViewList (_activePaneId s) s ∧
  getPaneViewListSize paneId s = getPaneViewListSize (_activePaneId s) s ∧
  (∀ path method,
     _doFindInViewList paneId path method s
     = _doFindInViewList (_activePaneId s) path method s) ∧
  (∀ direction,
     traversePaneViewListByMRU paneId direction s
     = traversePaneViewListByMRU (_activePaneId s) direction s) ∧
  getCurrentlyViewedFileForPane paneId s = getCurrentlyViewedFile s ∧
  getCurrentlyViewedPathForPane paneId s = getCurrentlyViewedPath s.
Proof.
  intros Hreach Hid. apply reachable_Inv in Hreach.
  pose proof (inv_active _ Hreach) as Ha.
  apply hasOwnProperty_getOwn in Ha as [p Hp].
  pose proof (key_not_all s _ p Hreach Hp) as Hactive.
  assert (paneId ≠ ALL_PANES) as Hne by by destruct Hid as [->| ->].
  pose proof (lookup_focused s paneId Hid) as Hlook.
  assert (getCurrentlyViewedFileForPane paneId s = getCurrentlyViewedFile s)
    as Hfile.
  { unfold getCurrentlyViewedFileForPane, getCurrentlyViewedFile.
    rewrite (bind_same _ _ _ s Hlook).
    rewrite (bind_run _ _ s _ s (lookup_known s _ p Hreach Hp)).
    unfold bind. rewrite getActivePane_eq.
    unfold refAt, JsObject.get. by rewrite Hp. }
  split_and!.
  - unfold getPaneViewList. rewrite !decide_False by done.
    by apply bind_same.
  - unfold getPaneViewListSize. rewrite !decide_False by done.
    by apply bind_same.
  - intros path method. unfold _doFindInViewList.
    rewrite !decide_False by done. by apply bind_same.
  - intros direction. unfold traversePaneViewListByMRU. by apply bind_same.
  - done.
  - unfold getCurrentlyViewedPathForPane, getCurrentlyViewedPath.
    by apply bind_same.
Qed.

Lemma X17_focused_pane_witness :
  getPaneViewList FOCUSED_PANE splitExample
  = getPaneViewList (_activePaneId splitExample) splitExample ∧
  getPaneViewListSize FOCUSED_PANE splitExample
  = getPaneViewListSize (_activePaneId splitExample) splitExample ∧
  (∀ path method,
     _doFindInViewList FOCUSED_PANE path method splitExample
     = _doFindInViewList (_activePaneId splitExample) path method
         splitExample) ∧
  (∀ direction,
     traversePaneViewListByMRU FOCUSED_PANE direction splitExample
     = traversePaneViewListByMRU (_activePaneId splitExample) direction
         splitExample) ∧
  getCurrentlyViewedFileForPane FOCUSED_PANE splitExample
  = getCurrentlyViewedFile splitExample ∧
  getCurrentlyViewedPathForPane FOCUSED_PANE splitExample
  = getCurrentlyViewedPath splitExample.
Proof.
  apply (X17_focused_pane_is_active_pane (λ _, true) (λ _, true)
           splitExample FOCUSED_PANE).
  - exact splitExample_reachable.
  - right. reflexivity.
Defined.

(** ** [ALL_PANES]: one pane after the other *)

Lemma bind_ret_unit (m : M unit) s : bind m (λ _, ret tt) s = m s.
Proof. unfold bind, ret. by destruct (m s) as [[[]|] s']. Qed.

Lemma forEachPane_each callback (each : string → M unit) s :
  Inv s →
  (∀ pane, keeps (callback pane)) →
  (∀ pane, changes true (λ _, True) (callback pane)) →
  (∀ k p s', Inv s' → JsObject.getOwn (_paneViews s') k = Some p →
             callback (IsPane k p) s' = each k s') →
  forEachPane callback s
  = if JsObject.hasOwnProperty (_paneViews s) SECOND_PANE
    then bind (each FIRST_PANE) (λ _, each SECOND_PANE) s
    else each FIRST_PANE s.
Proof.
  intros HI Hkeeps Hch Heach. unfold forEachPane, bind at 1, gets at 1.
  destruct (Shape_cases _ (inv_shape _ HI))
    as [(Hk & p1 & Hid1 & Hreg)|(Hk & p1 & p2 & Hid1 & Hid2 & Hreg)];
    rewrite Hk.
  - rewrite Hreg at 1. cbn [JsObject.keys fmap list_fmap fst forEachKey].
    unfold bind at 1, gets at 1. rewrite Hreg at 1.
    change (JsObject.getOwn _ FIRST_PANE) with (Some p1). cbv iota.
    rewrite bind_ret_unit. apply Heach; [done|by rewrite Hreg].
  - rewrite Hreg at 1. cbn [JsObject.keys fmap list_fmap fst forEachKey].
    unfold bind at 1, gets at 1. rewrite Hreg at 1.
    change (JsObject.getOwn _ FIRST_PANE) with (Some p1). cbv iota.
    assert (JsObject.getOwn (_paneViews s) FIRST_PANE = Some p1) as Hg1
      by by rewrite Hreg.
    pose proof (Hkeeps (IsPane FIRST_PANE p1) s HI) as HI1.
    pose proof (Hch (IsPane FIRST_PANE p1) s) as Hlay.
    apply Changes_layout in Hlay as (Hkeys & _).
    unfold bind at 1. unfold bind at 3.
    rewrite <- (Heach FIRST_PANE p1 s HI Hg1).
    destruct (callback (IsPane FIRST_PANE p1) s) as [[[]|] s1]; [|done].
    cbn [snd] in *.
    unfold bind at 1, gets at 1.
    assert (JsObject.hasOwnProperty (_paneViews s1) SECOND_PANE = true)
      as [q2 Hq2]%hasOwnProperty_getOwn.
    { by rewrite (hasOwnProperty_same_keys _ _ _ Hkeys). }
    rewrite Hq2, bind_ret_unit. by apply Heach.
Qed.

Lemma callback_id (each : string → M unit) k p s :
  Inv s → JsObject.getOwn (_paneViews s) k = Some p →
  each (idOf (IsPane k p)) s = each k s.
Proof.
  intros HI Hget. simpl.
  by destruct (Shape_key _ _ _ (inv_shape _ HI) Hget) as [-> _].
Qed.

Lemma lookup_second_unsplit s :
  Inv s → JsObject.hasOwnProperty (_paneViews s) SECOND_PANE = false →
  _getPaneFromPaneId SECOND_PANE s = (Ok Null, s).
Proof.
  intros HI Hk. rewrite getPaneFromPaneId_eq.
  change (resolvePaneId s SECOND_PANE) with SECOND_PANE.
  rewrite refAt_unknown; [done|done|].
  assert (bool_decide (SECOND_PANE ∈ JsObject.Object_prototype) = false) as Hb
    by (vm_compute; reflexivity).
  by apply bool_decide_eq_false_1 in Hb.
Qed.

Lemma then_second_unsplit (each : string → M unit) s :
  Inv s → keeps (each FIRST_PANE) →
  changes true (λ _, True) (each FIRST_PANE) →
  (∀ s', Inv s' →
         JsObject.hasOwnProperty (_paneViews s') SECOND_PANE = false →
         each SECOND_PANE s' = (Ok tt, s')) →
  JsObject.hasOwnProperty (_paneViews s) SECOND_PANE = false →
  bind (each FIRST_PANE) (λ _, each SECOND_PANE) s = each FIRST_PANE s.
Proof.
  intros HI Hkeeps Hch Hnoop Hk.
  specialize (Hkeeps s HI). specialize (Hch s).
  apply Changes_layout in Hch as (Hkeys & _).
  unfold bind. destruct (each FIRST_PANE s) as [[[]|] s1]; [|done].
  apply Hnoop; [done|]. simpl in *.
  by rewrite (hasOwnProperty_same_keys _ _ _ Hkeys).
Qed.

(** X18. Given [ALL_PANES], in a reachable state, the three remove calls do
    what they do when they are given the first pane and then the second
    pane (for which they do nothing when the editor is not split), and the
    two close calls that loop over the panes do what they do given the
    first pane and then, when the editor is split, given the second
    pane. *)
Theorem X18_all_panes_is_first_then_second canOpenFile isWithinProject s :
  reachable canOpenFile isWithinProject s →
  (∀ f suppressRedraw,
     removeFromPaneViewList ALL_PANES f suppressRedraw s
     = (let* _ := removeFromPaneViewList FIRST_PANE f suppressRedraw in
        removeFromPaneViewList SECOND_PANE f suppressRedraw) s) ∧
  (∀ l,
     removeListFromPaneViewList ALL_PANES l s
     = (let* _ := removeListFromPaneViewList FIRST_PANE l in
        removeListFromPaneViewList SECOND_PANE l) s) ∧
  removeAllFromPaneViewList ALL_PANES s
  = (let* _ := removeAllFromPaneViewList FIRST_PANE in
     removeAllFromPaneViewList SECOND_PANE) s ∧
  doCloseAll ALL_PANES s
  = (if JsObject.hasOwnProperty (_paneViews s) SECOND_PANE
     then (let* _ := doCloseAll FIRST_PANE in doCloseAll SECOND_PANE) s
     else doCloseAll FIRST_PANE s) ∧
  (∀ fileList,
     doCloseList ALL_PANES fileList s
     = (if JsObject.hasOwnProperty (_paneViews s) SECOND_PANE
        then (let* _ := doCloseList FIRST_PANE fileList in
              doCloseList SECOND_PANE fileList) s
        else doCloseList FIRST_PANE fileList s)).
Proof.
  intros Hreach. apply reachable_Inv in Hreach.
  assert (∀ (callback : PaneRef → M unit) (each : string → M unit),
            (∀ pane, keeps (callback pane)) →
            (∀ pane, changes true (λ _, True) (callback pane)) →
            (∀ k p s', Inv s' → JsObject.getOwn (_paneViews s') k = Some p →
                       callback (IsPane k p) s' = each k s') →
            keeps (each FIRST_PANE) →
            changes true (λ _, True) (each FIRST_PANE) →
            (∀ s', Inv s' →
                   JsObject.hasOwnProperty (_paneViews s') SECOND_PANE = false →
                   each SECOND_PANE s' = (Ok tt, s')) →
            forEachPane callback s
            = bind (each FIRST_PANE) (λ _, each SECOND_PANE) s) as Hboth.
  { intros callback each H1 H2 H3 H4 H5 H6.
    rewrite (forEachPane_each callback each) by done.
    destruct (JsObject.hasOwnProperty _ SECOND_PANE) eqn:Hk; [done|].
    by rewrite then_second_unsplit. }
  split_and!.
  - intros f suppressRedraw. unfold removeFromPaneViewList.
    rewrite decide_True by done. rewrite !decide_False by done.
    apply (Hboth _ (λ k, _removeFromPaneViewList k f suppressRedraw)).
    + intros pane. apply keeps__removeFromPaneViewList.
    + intros pane. apply changes__removeFromPaneViewList.
    + intros k p s' HI' Hget.
      by apply (callback_id (λ k, _removeFromPaneViewList k f suppressRedraw)
                  k p).
    + apply keeps__removeFromPaneViewList.
    + apply changes__removeFromPaneViewList.
    + intros s' HI' Hk. unfold _removeFromPaneViewList.
      by rewrite (bind_run _ _ s' _ s' (lookup_second_unsplit s' HI' Hk)).
  - intros l. unfold removeListFromPaneViewList.
    rewrite decide_True by done. rewrite !decide_False by done.
    apply (Hboth _ (λ k, _removeListFromPaneViewList k l)).
    + intros pane. apply keeps__removeListFromPaneViewList.
    + intros pane. apply changes__removeListFromPaneViewList.
    + intros k p s' HI' Hget.
      by apply (callback_id (λ k, _removeListFromPaneViewList k l) k p).
    + apply keeps__removeListFromPaneViewList.
    + apply changes__removeListFromPaneViewList.
    + intros s' HI' Hk. unfold _removeListFromPaneViewList.
      by rewrite (bind_run _ _ s' _ s' (lookup_second_unsplit s' HI' Hk)).
  - unfold removeAllFromPaneViewList.
    rewrite decide_True by done. rewrite !decide_False by done.
    apply (Hboth _ (λ k, _removeAllFromPaneViewList k)).
    + intros pane. apply keeps__removeAllFromPaneViewList.
    + intros pane. apply changes__removeAllFromPaneViewList.
    + intros k p s' HI' Hget.
      by apply (callback_id (λ k, _removeAllFromPaneViewList k) k p).
    + apply keeps__removeAllFromPaneViewList.
    + apply changes__removeAllFromPaneViewList.
    + intros s' HI' Hk. unfold _removeAllFromPaneViewList.
      by rewrite (bind_run _ _ s' _ s' (lookup_second_unsplit s' HI' Hk)).
  - unfold doCloseAll.
    rewrite decide_True by done. rewrite !decide_False by done.
    apply (forEachPane_each _
             (λ k, let* pane := _getPaneFromPaneId k in
                   let* fileList := readMethod pane Pane.getViewList in
                   let* _ := voidMethod pane Pane.doRemoveAllViews in
                   triggerHandler
                     (paneViewListRemoveList fileList (idOf pane))));
      [done|intros pane; keeps_auto|intros pane; changes_auto|].
    intros k p s' HI' Hget.
    by rewrite (bind_run _ _ s' _ s' (lookup_known s' k p HI' Hget)).
  - intros fileList. unfold doCloseList.
    rewrite decide_True by done. rewrite !decide_False by done.
    apply (forEachPane_each _
             (λ k, let* pane := _getPaneFromPaneId k in
                   let* closedList :=
                     callMethod pane (Pane.doRemoveViews fileList) in
                   triggerHandler
                     (paneViewListRemoveList closedList (idOf pane))));
      [done|intros pane; keeps_auto|intros pane; changes_auto|].
    intros k p s' HI' Hget.
    by rewrite (bind_run _ _ s' _ s' (lookup_known s' k p HI' Hget)).
Qed.

Lemma X18_all_panes_witness :
  (∀ f suppressRedraw,
     removeFromPaneViewList ALL_PANES f suppressRedraw splitExample
     = (let* _ := removeFromPaneViewList FIRST_PANE f suppressRedraw in
        removeFromPaneViewList SECOND_PANE f suppressRedraw) splitExample) ∧
  (∀ l,
     removeListFromPaneViewList ALL_PANES l splitExample
     = (let* _ := removeListFromPaneViewList FIRST_PANE l in
        removeListFromPaneViewList SECOND_PANE l) splitExample) ∧
  removeAllFromPaneViewList ALL_PANES splitExample
  = (let* _ := removeAllFromPaneViewList FIRST_PANE in
     removeAllFromPaneViewList SECOND_PANE) splitExample ∧
  doCloseAll ALL_PANES splitExample
  = (if JsObject.hasOwnProperty (_paneViews splitExample) SECOND_PANE
     then (let* _ := doCloseAll FIRST_PANE in doCloseAll SECOND_PANE)
            splitExample
     else doCloseAll FIRST_PANE splitExample) ∧
  (∀ fileList,
     doCloseList ALL_PANES fileList splitExample
     = (if JsObject.hasOwnProperty (_paneViews splitExample) SECOND_PANE
        then (let* _ := doCloseList FIRST_PANE fileList in
              doCloseList SECOND_PANE fileList) splitExample
        else doCloseList FIRST_PANE fileList splitExample)).
Proof.
  apply (X18_all_panes_is_first_then_second (λ _, true) (λ _, true)
           splitExample).
  exact splitExample_reachable.
Defined.

(** ** Editing a document whose file is in no pane *)

Lemma callMethod_run {A} k p0 (method : Pane.t → Pane.t * A) s p :
  JsObject.getOwn (_paneViews s) k = Some p →
  callMethod (IsPane k p0) method s
  = (Ok (method p).2,
     setPaneViews (JsObject.set (_paneViews s) k (method p).1) s).
Proof. intros Hget. unfold callMethod. rewrite Hget. by destruct (method p). Qed.

Lemma set_set {A} (o : JsObject.t A) k a b :
  JsObject.set (JsObject.set o k a) k b = JsObject.set o k b.
Proof.
  induction o as [|[k0 a0] o IH]; simpl.
  - by rewrite decide_True.
  - case_decide; simpl.
    + by rewrite decide_True.
    + rewrite decide_False by done. by rewrite IH.
Qed.

Lemma NotOpen_lookup s f :
  Inv s → NotOpen s f → paneIdForPath s (fullPath f) = None.
Proof.
  intros HI Hno.
  destruct (paneIdForPath s (fullPath f)) as [k|] eqn:Hfound; [|done].
  destruct (is_open s f k (inv_shape _ HI) Hfound) as (_ & p & Hp & Hf).
  by destruct (Hno k p Hp).
Qed.

Lemma addToPaneViewList_new canOpenFile s k p f index force :
  Inv s → JsObject.getOwn (_paneViews s) k = Some p → NotOpen s f →
  canOpenFile (fullPath f) = true →
  addToPaneViewList canOpenFile k f index force s
  = (Ok tt,
     addEvent (paneViewListAdd f (Pane.addToViewList f index p).2 k)
       (setPaneViews
          (JsObject.set (_paneViews s) k (Pane.addToViewList f index p).1) s)).
Proof.
  intros HI Hget Hno Hcan. unfold addToPaneViewList.
  rewrite (bind_run _ _ s _ s (lookup_known s k p HI Hget)).
  rewrite (bind_run _ _ s _ s (getPaneIdForPath_run _ s)).
  rewrite (NotOpen_lookup s f HI Hno), Hcan. cbn [isNull negb orb isOpenAt].
  rewrite (bind_run _ _ s Pane.ITEM_NOT_FOUND s).
  - rewrite (bind_run _ _ s _ _ (callMethod_run k p _ s p Hget)).
    cbn [idOf]. unfold triggerHandler, modify.
    by destruct (Shape_key _ _ _ (inv_shape _ HI) Hget) as [-> _].
  - rewrite (callMethod_run k p _ s p Hget).
    rewrite reorderItem_not_found by by eapply Hno.
    cbn [fst snd]. by rewrite set_same, setPaneViews_same.
Qed.

Lemma lookup_key s k p :
  k = FIRST_PANE ∨ k = SECOND_PANE →
  JsObject.getOwn (_paneViews s) k = Some p →
  _getPaneFromPaneId k s = (Ok (IsPane k p), s).
Proof.
  intros Hk Hget. rewrite getPaneFromPaneId_eq.
  assert (resolvePaneId s k = k) as -> by by destruct Hk as [->| ->].
  unfold refAt, JsObject.get. by rewrite Hget.
Qed.

Lemma makePaneViewMostRecent_run s k p f :
  k = FIRST_PANE ∨ k = SECOND_PANE →
  JsObject.getOwn (_paneViews s) k = Some p →
  makePaneViewMostRecent k f s
  = (Ok tt,
     setPaneViews
       (JsObject.set (_paneViews s) k (Pane.makeViewMostRecent f p)) s).
Proof.
  intros Hk Hget. unfold makePaneViewMostRecent.
  rewrite (bind_run _ _ s _ s (lookup_key s k p Hk Hget)). cbn [isNull].
  unfold voidMethod. by rewrite (callMethod_run k p _ s p Hget).
Qed.

Lemma addToPaneViewList_refused canOpenFile paneId f index force s :
  canOpenFile (fullPath f) = false →
  addToPaneViewList canOpenFile paneId f index force s = (Ok tt, s).
Proof.
  intros Hcan. unfold addToPaneViewList.
  rewrite (bind_run _ _ s _ s (getPaneFromPaneId_eq paneId s)).
  rewrite (bind_run _ _ s _ s (getPaneIdForPath_run _ s)).
  rewrite Hcan. simpl. by rewrite orb_true_r.
Qed.

Lemma doEdit_shows s k p0 p doc :
  k = FIRST_PANE ∨ k = SECOND_PANE →
  JsObject.getOwn (_paneViews s) k = Some p →
  (let* _ := doOpenDocument doc (IsPane k p0) in
   let* active := gets _activePaneId in
   let* _ :=
     (if bool_decide (k = active)
      then triggerHandler (currentFileChanged (Some (file doc)) k)
      else ret tt) in
   makePaneViewMostRecent k (file doc)) s
  = (Ok tt,
     mkState
       (JsObject.set (_paneViews s) k
          (Pane.makeViewMostRecent (file doc)
             (Pane.setCurrentView (Some (file doc)) p)))
       (_activePaneId s) (_orientation s) (nextElement s)
       (events s
        ++ (if decide (k = _activePaneId s)
            then [currentFileChanged (Some (file doc)) k] else []))).
Proof.
  intros Hk Hget. unfold doOpenDocument, voidMethod.
  rewrite (bind_run _ _ _ _ _ (callMethod_run k p0 _ s p Hget)).
  unfold bind at 1, gets at 1. cbn [_activePaneId setPaneViews fst snd].
  destruct (decide (k = _activePaneId s)) as [Ha|Ha].
  - rewrite bool_decide_eq_true_2 by done.
    unfold bind at 1, triggerHandler at 1, modify at 1.
    erewrite makePaneViewMostRecent_run; [|done|].
    + cbn [_paneViews addEvent setPaneViews fst snd].
      by rewrite !set_set.
    + cbn [_paneViews addEvent setPaneViews]. rewrite getOwn_set.
      by rewrite decide_True.
  - rewrite bool_decide_eq_false_2 by done.
    change (bind (ret tt) ?c ?s0) with (c tt s0). cbv beta.
    erewrite makePaneViewMostRecent_run; [|done|].
    + cbn [_paneViews addEvent setPaneViews fst snd].
      rewrite !set_set. unfold setPaneViews. simpl. by rewrite app_nil_r.
    + cbn [_paneViews addEvent setPaneViews]. rewrite getOwn_set.
      by rewrite decide_True.
Qed.

Lemma doEdit_new_run canOpenFile isWithinProject s k p doc :
  Inv s → JsObject.getOwn (_paneViews s) k = Some p →
  NotOpen s (file doc) →
  doEdit canOpenFile isWithinProject k doc s
  = (Ok tt,
     let f := file doc in
     let added :=
       (isUntitled doc || negb (isWithinProject (fullPath f)))
       && canOpenFile (fullPath f) in
     let p1 := if added then (Pane.addToViewList f None p).1 else p in
     mkState
       (JsObject.set (_paneViews s) k
          (Pane.makeViewMostRecent f (Pane.setCurrentView (Some f) p1)))
       (_activePaneId s) (_orientation s) (nextElement s)
       (events s
        ++ (if added
            then [paneViewListAdd f (Z.of_nat (length (Pane._viewList p))) k]
            else [])
        ++ (if decide (k = _activePaneId s)
            then [currentFileChanged (Some f) k] else []))).
Proof.
  intros HI Hget Hno.
  destruct (Shape_key _ _ _ (inv_shape _ HI) Hget) as [Hid Hk].
  unfold doEdit.
  rewrite (bind_run _ _ s _ s (getPaneIdForPath_run _ s)).
  rewrite (NotOpen_lookup s _ HI Hno).
  change (bind (ret k) ?c s) with (c k s). cbv beta.
  rewrite (bind_run _ _ s _ s (lookup_key s k p Hk Hget)). cbn [isNull idOf].
  rewrite Hid. cbv zeta.
  destruct (isUntitled doc || negb (isWithinProject (fullPath (file doc))))
    eqn:Hcase; cbn [andb].
  - destruct (canOpenFile (fullPath (file doc))) eqn:Hcan.
    + rewrite (bind_run _ _ s _ _
                 (addToPaneViewList_new canOpenFile s k p (file doc) None false
                    HI Hget Hno Hcan)).
      erewrite (doEdit_shows _ k p _ doc Hk).
      * cbn [_paneViews _activePaneId _orientation nextElement events
               addEvent setPaneViews].
        rewrite set_set. by rewrite <- app_assoc.
      * cbn [_paneViews addEvent setPaneViews]. rewrite getOwn_set.
        by rewrite decide_True.
    + rewrite (bind_run _ _ s _ _
                 (addToPaneViewList_refused canOpenFile k (file doc) None false
                    s Hcan)).
      by rewrite (doEdit_shows s k p p doc Hk Hget).
  - change (bind (ret tt) ?c s) with (c tt s). cbv beta.
    by rewrite (doEdit_shows s k p p doc Hk Hget).
Qed.

Lemma makeViewMostRecent_currentView f p :
  Pane._currentView (Pane.makeViewMostRecent f p) = Pane._currentView p.
Proof. unfold Pane.makeViewMostRecent. by destruct (hasPath _ _). Qed.

(** X19. [doEdit] of a document whose file is in no view list, given a
    registered pane, in a reachable state: the call answers; the pane shows
    the file; the file is appended to the view list of the pane exactly when
    the document is untitled or outside the project, and the file needs no
    custom viewer, and it is then the most recently used file of the pane;
    the other pane is as it was and the active pane stays the active one;
    [paneViewListAdd] is sent when the file was appended, with the position
    it was appended at, and then [currentFileChanged] when the pane is the
    active one. *)
Theorem X19_doEdit_of_a_new_file canOpenFile isWithinProject s k p doc :
  reachable canOpenFile isWithinProject s →
  JsObject.getOwn (_paneViews s) k = Some p →
  NotOpen s (file doc) →
  ∃ p' s',
    doEdit canOpenFile isWithinProject k doc s = (Ok tt, s') ∧
    JsObject.getOwn (_paneViews s') k = Some p' ∧
    Pane._currentView p' = Some (file doc) ∧
    Pane._viewList p'
    = (if (isUntitled doc || negb (isWithinProject (fullPath (file doc))))
          && canOpenFile (fullPath (file doc))
       then Pane._viewList p ++ [file doc] else Pane._viewList p) ∧
    ((isUntitled doc || negb (isWithinProject (fullPath (file doc))))
     && canOpenFile (fullPath (file doc)) = true →
     head (Pane._viewListMRUOrder p') = Some (file doc)) ∧
    (∀ k', k' ≠ k →
           JsObject.getOwn (_paneViews s') k'
           = JsObject.getOwn (_paneViews s) k') ∧
    _activePaneId s' = _activePaneId s ∧
    events s'
    = events s
      ++ (if (isUntitled doc || negb (isWithinProject (fullPath (file doc))))
             && canOpenFile (fullPath (file doc))
          then [paneViewListAdd (file doc)
                  (Z.of_nat (length (Pane._viewList p))) k]
          else [])
      ++ (if decide (k = _activePaneId s)
          then [currentFileChanged (Some (file doc)) k] else []).
Proof.
  intros Hreach Hget Hno. apply reachable_Inv in Hreach.
  do 2 eexists. split; [by apply (doEdit_new_run _ _ s k p)|].
  cbv zeta. cbn [_paneViews _activePaneId events].
  rewrite getOwn_set, decide_True by done.
  split_and!; try done.
  - by rewrite makeViewMostRecent_currentView.
  - rewrite makeViewMostRecent_viewList. cbn [Pane.setCurrentView Pane._viewList].
    by destruct (_ && _).
  - intros ->. unfold Pane.makeViewMostRecent, Pane.addToViewList, insertAt.
    cbn [Pane.setCurrentView Pane.setLists Pane._viewListMRUOrder fst].
    assert (hasPath (Pane._viewListMRUOrder p ++ [file doc])
              (fullPath (file doc)) = true) as ->; [|done].
    apply hasPath_elem. apply elem_of_app. right. left.
  - intros k' Hk'. rewrite getOwn_set. by rewrite decide_False.
Qed.

Lemma X19_doEdit_of_a_new_file_witness :
  ∃ p' s',
    doEdit (λ _, true) (λ _, true) FIRST_PANE
      (mkDocument (mkFile "/a.js") true) initialState = (Ok tt, s') ∧
    JsObject.getOwn (_paneViews s') FIRST_PANE = Some p' ∧
    Pane._currentView p' = Some (mkFile "/a.js") ∧
    Pane._viewList p' = [mkFile "/a.js"] ∧
    (true = true → head (Pane._viewListMRUOrder p') = Some (mkFile "/a.js")) ∧
    (∀ k', k' ≠ FIRST_PANE →
           JsObject.getOwn (_paneViews s') k'
           = JsObject.getOwn (_paneViews initialState) k') ∧
    _activePaneId s' = _activePaneId initialState ∧
    events s'
    = events initialState
      ++ [paneViewListAdd (mkFile "/a.js") 0%Z FIRST_PANE]
      ++ [currentFileChanged (Some (mkFile "/a.js")) FIRST_PANE].
Proof.
  apply (X19_doEdit_of_a_new_file (λ _, true) (λ _, true) initialState
           FIRST_PANE (Pane.new FIRST_PANE 0)
           (mkDocument (mkFile "/a.js") true)).
  - apply reachable_init.
  - reflexivity.
  - intros k q Hq. cbn in Hq. case_decide; [|done].
    injection Hq as <-. apply not_elem_of_nil.
Defined.

(** ** The [activeEditorChange] handler *)

(** X20. The [activeEditorChange] handler, in a reachable state, never
    throws.  Given no editor it does nothing.  Given an editor whose
    container is the element of the active pane, it sends
    [currentFileChanged] with the file of the editor.  Given an editor
    whose container is the element of the other pane, it makes that pane
    the active one and sends [activePaneChange] and then
    [currentFileChanged] with the file that pane shows, which need not be
    the file of the editor.  Given an editor whose container is the element
    of no pane, it does nothing. *)
Theorem X20_activeEditorChange canOpenFile isWithinProject s current :
  reachable canOpenFile isWithinProject s →
  _activeEditorChange None s = (Ok tt, s) ∧
  match (_getPaneIdFromContainer (getContainer current) s).1 with
  | Ok (Some k) =>
      ∃ p, JsObject.getOwn (_paneViews s) k = Some p ∧
           Pane.el p = getContainer current ∧
           _activeEditorChange (Some current) s
           = (Ok tt,
              if decide (k = _activePaneId s)
              then addEvent (currentFileChanged (Some (getFile current)) k) s
              else addEvent (currentFileChanged (Pane._currentView p) k)
                     (addEvent (activePaneChange k (_activePaneId s))
                        (setActive k s)))
  | Ok None => _activeEditorChange (Some current) s = (Ok tt, s)
  | TypeError => False
  end.
Proof.
  intros Hreach. apply reachable_Inv in Hreach.
  pose proof (inv_active _ Hreach) as Ha.
  split; [done|].
  assert (_activeEditorChange (Some current) s
          = (let newPaneId :=
               Pane.id <$>
                 head (filter (λ p, Pane.el p = getContainer current)
                         (JsObject.values (_paneViews s))) in
             if bool_decide (newPaneId = Some (_activePaneId s))
             then (let* _ := triggerHandler
                               (currentFileChanged (Some (getFile current))
                                  (_activePaneId s)) in
                   forceFocusToActivePaneView) s
             else setActivePaneId (toKey newPaneId) s)) as ->.
  { unfold _activeEditorChange, _getPaneIdFromContainer.
    unfold bind at 1, gets at 1. unfold bind at 1, gets at 1.
    cbv zeta. by destruct (bool_decide _). }
  change ((_getPaneIdFromContainer (getContainer current) s).1)
    with (Ok (Pane.id <$>
                head (filter (λ p, Pane.el p = getContainer current)
                        (JsObject.values (_paneViews s))))).
  cbv zeta.
  destruct (head _) as [p|] eqn:Hhead; cbn [fmap option_fmap option_map].
  - apply head_Some_elem_of, list_elem_of_filter in Hhead as [Hel Hp].
    apply (Shape_values _ _ (inv_shape _ Hreach)) in Hp.
    exists p. split_and!; [done|done|].
    destruct (decide (Pane.id p = _activePaneId s)) as [Heq|Hne].
    + rewrite bool_decide_eq_true_2 by by rewrite Heq.
      unfold bind at 1, triggerHandler, modify.
      rewrite forceFocus_run by exact Ha. by rewrite Heq.
    + rewrite bool_decide_eq_false_2 by congruence.
      change (toKey (Some (Pane.id p))) with (Pane.id p).
      rewrite setActivePaneId_run by done.
      unfold activated. rewrite Hp. by rewrite decide_False.
  - rewrite bool_decide_eq_false_2 by done.
    change (toKey None) with "undefined".
    rewrite setActivePaneId_run by done. unfold activated.
    pose proof (getOwn_undefined s Hreach) as Hun. unfold JsObject.get in Hun.
    by destruct (JsObject.getOwn (_paneViews s) "undefined").
Qed.

Lemma X20_activeEditorChange_witness :
  _activeEditorChange None splitExample = (Ok tt, splitExample) ∧
  match (_getPaneIdFromContainer
           (getContainer (mkEditor 1 (mkFile "/e.js"))) splitExample).1 with
  | Ok (Some k) =>
      ∃ p, JsObject.getOwn (_paneViews splitExample) k = Some p ∧
           Pane.el p = getContainer (mkEditor 1 (mkFile "/e.js")) ∧
           _activeEditorChange (Some (mkEditor 1 (mkFile "/e.js"))) splitExample
           = (Ok tt,
              if decide (k = _activePaneId splitExample)
              then addEvent
                     (currentFileChanged
                        (Some (getFile (mkEditor 1 (mkFile "/e.js")))) k)
                     splitExample
              else addEvent (currentFileChanged (Pane._currentView p) k)
                     (addEvent
                        (activePaneChange k (_activePaneId splitExample))
                        (setActive k splitExample)))
  | Ok None =>
      _activeEditorChange (Some (mkEditor 1 (mkFile "/e.js"))) splitExample
      = (Ok tt, splitExample)
  | TypeError => False
  end.
Proof.
  apply (X20_activeEditorChange (λ _, true) (λ _, true) splitExample
           (mkEditor 1 (mkFile "/e.js"))).
  exact splitExample_reachable.
Defined.

(** ** Traversal in most-recently-used order, and the edit that follows *)









